(** * LeetCode tracker: spaced-repetition scheduler, due classifier, question store

    A shallow embedding of
    - [backend/src/utils/spacedRepetition.ts]  (module [SpacedRepetitionService]),
    - [src/utils/spacedRepetition.ts] and [src/components/ReviewQueue.tsx]
      (module [Frontend]),
    - [backend/src/services/questionService.ts] (module [QuestionService]),
    together with the small part of the JavaScript runtime they rely on
    (module [JS]). *)

From Stdlib Require Import ZArith List String Ascii Lia Sorted Permutation.
From Stdlib Require Import Decimal DecimalString DecimalPos.
From stdpp Require Import base numbers list strings.
Import ListNotations.

Local Open Scope Z_scope.

(** ** The JavaScript runtime, as far as the sources use it *)

Module JS.

(** A [number] that holds an integer is a [Z]; the sources only ever store
    integers in [id], [reviewCount] and time values.  A [Date] is its time
    value in milliseconds since the epoch, or [None] for an Invalid Date
    (time value NaN). *)
Definition JSDate := option Z.

Definition msPerDay : Z := 1000 * 60 * 60 * 24.

(** [x || y] on an optional string: [undefined] and the empty string are
    falsy. *)
Definition truthy (o : option string) : bool :=
  match o with
  | Some s => negb (String.eqb s EmptyString)
  | None => false
  end.

Definition or_else (o : option string) (dflt : string) : string :=
  match o with
  | Some s => if String.eqb s EmptyString then dflt else s
  | None => dflt
  end.

(** [arr[i]] for an integer index: [undefined] out of range. *)
Definition array_get {A} (arr : list A) (i : Z) : option A :=
  if i <? 0 then None else nth_error arr (Z.to_nat i).

Section LocalTime.

(** The local time zone is a fixed offset from UTC, in milliseconds (local
    = UTC + [tz]), so every local day has 24 hours.  Where a result depends
    on the length of a day, the days overdue of the frontend, the source is
    also embedded for a zone whose offset changes
    ([Frontend.getDaysOverdue_in] and the groups that use it).  The
    calendar fields year, month and day of month are only ever passed
    around together, so they are represented by the number of the local
    day. *)
Variable tz : Z.

(** [getFullYear(), getMonth(), getDate()] taken together. *)
Definition localDay (t : Z) : Z := (t + tz) / msPerDay.

(** Milliseconds since local midnight: [getHours()], [getMinutes()],
    [getSeconds()], [getMilliseconds()] taken together. *)
Definition timeOfDay (t : Z) : Z := (t + tz) mod msPerDay.

(** [d.setHours(0, 0, 0, 0)], and also
    [new Date(d.getFullYear(), d.getMonth(), d.getDate())]. *)
Definition startOfDay (t : Z) : Z := t - timeOfDay t.

(** [d.setDate(d.getDate() + n)]: the local day moves by [n], the local
    time of day stays. *)
Definition addDays (t : Z) (n : Z) : Z := t + n * msPerDay.

End LocalTime.

(** *** [Date.prototype.toISOString] and the date-time string format

    [toISOString] prints the UTC fields as [YYYY-MM-DDTHH:mm:ss.sssZ]
    (years outside 0..9999 with a sign and six digits).  The civil date of
    a day number is computed with the usual era-based conversion of the
    proleptic Gregorian calendar. *)

Definition civil_from_days (z : Z) : Z * Z * Z :=
  let z := z + 719468 in
  let era := z / 146097 in
  let doe := z - era * 146097 in
  let yoe := (doe - doe / 1460 + doe / 36524 - doe / 146096) / 365 in
  let doy := doe - (365 * yoe + yoe / 4 - yoe / 100) in
  let mp := (5 * doy + 2) / 153 in
  let d := doy - (153 * mp + 2) / 5 + 1 in
  let m := if mp <? 10 then mp + 3 else mp - 9 in
  let y := yoe + era * 400 in
  (if m <=? 2 then y + 1 else y, m, d).

Definition days_from_civil (y m d : Z) : Z :=
  let y := if m <=? 2 then y - 1 else y in
  let era := y / 400 in
  let yoe := y - era * 400 in
  let doy := (153 * (if 2 <? m then m - 3 else m + 9) + 2) / 5 + d - 1 in
  let doe := yoe * 365 + yoe / 4 - yoe / 100 + doy in
  era * 146097 + doe - 719468.

Definition digit (n : Z) : ascii := ascii_of_nat (48 + Z.to_nat (n mod 10)).

Fixpoint pad (width : nat) (n : Z) : string :=
  match width with
  | O => EmptyString
  | S w => pad w (n / 10) +:+ String (digit n) EmptyString
  end.

Definition year_string (y : Z) : string :=
  if (0 <=? y) && (y <=? 9999) then pad 4 y
  else if y <? 0 then String "-" (pad 6 (- y))
  else String "+" (pad 6 y).

Definition toISOString (t : Z) : string :=
  let '(y, m, d) := civil_from_days (t / msPerDay) in
  let ms := t mod msPerDay in
  year_string y +:+ String "-" (pad 2 m) +:+ String "-" (pad 2 d)
  +:+ String "T" (pad 2 (ms / 3600000))
  +:+ String ":" (pad 2 (ms / 60000 mod 60))
  +:+ String ":" (pad 2 (ms / 1000 mod 60))
  +:+ String "." (pad 3 (ms mod 1000)) +:+ "Z".

(** The parser of [new Date(string)] is the engine's: the language only
    fixes it on the date-time string format, so the developments below take
    it as a variable.  [iso_parse] is the instance used in the examples: it
    reads exactly the strings [toISOString] prints for years 0..9999 and
    rejects every other string. *)

Definition digit_val (c : ascii) : option Z :=
  let n := Z.of_nat (nat_of_ascii c) in
  if (48 <=? n) && (n <=? 57) then Some (n - 48) else None.

Fixpoint digits_val (acc : Z) (cs : list ascii) : option Z :=
  match cs with
  | [] => Some acc
  | c :: cs' =>
      match digit_val c with
      | Some v => digits_val (10 * acc + v) cs'
      | None => None
      end
  end.

Definition iso_parse (s : string) : JSDate :=
  match list_ascii_of_string s with
  | [y1; y2; y3; y4; "-"; m1; m2; "-"; d1; d2; "T";
     h1; h2; ":"; n1; n2; ":"; s1; s2; "."; f1; f2; f3; "Z"]%char =>
      match digits_val 0 [y1; y2; y3; y4], digits_val 0 [m1; m2],
            digits_val 0 [d1; d2], digits_val 0 [h1; h2],
            digits_val 0 [n1; n2], digits_val 0 [s1; s2],
            digits_val 0 [f1; f2; f3] with
      | Some y, Some m, Some d, Some h, Some n, Some sec, Some f =>
          let day := days_from_civil y m d in
          if (1 <=? m) && (m <=? 12) && (1 <=? d)
             && bool_decide (civil_from_days day = (y, m, d))
             && (h <=? 23) && (n <=? 59) && (sec <=? 59)
          then Some (day * msPerDay + h * 3600000 + n * 60000 + sec * 1000 + f)
          else None
      | _, _, _, _, _, _, _ => None
      end
  | _ => None
  end.

(** *** [Array.prototype.sort] with a comparator

    The sort is stable, and a comparator result of NaN (here [None]) counts
    as [+0].  For a comparator that orders its inputs consistently the
    result is fixed by the language: the stable sorted rearrangement, which
    insertion from the right computes. *)

Definition cmp_le {A} (cmp : A -> A -> option Z) (a b : A) : bool :=
  match cmp a b with
  | Some v => v <=? 0
  | None => true
  end.

Fixpoint sort_insert {A} (cmp : A -> A -> option Z) (a : A) (l : list A) : list A :=
  match l with
  | [] => [a]
  | b :: l' => if cmp_le cmp a b then a :: l else b :: sort_insert cmp a l'
  end.

Definition Array_sort {A} (cmp : A -> A -> option Z) (l : list A) : list A :=
  foldr (sort_insert cmp) [] l.

(** Comparisons of dates compare time values, and are false as soon as one
    side is NaN. *)
Definition date_le (a b : JSDate) : bool :=
  match a, b with
  | Some x, Some y => x <=? y
  | _, _ => false
  end.

Definition date_lt (a b : JSDate) : bool :=
  match a, b with
  | Some x, Some y => x <? y
  | _, _ => false
  end.

(** [a.getTime() === b.getTime()]: NaN is not equal to itself. *)
Definition date_eq (a b : JSDate) : bool :=
  match a, b with
  | Some x, Some y => x =? y
  | _, _ => false
  end.

(** [d.setHours(0, 0, 0, 0)] and
    [new Date(d.getFullYear(), d.getMonth(), d.getDate())] on a date that
    may be invalid: an invalid date stays invalid. *)
Definition setHours0 (tz : Z) (d : JSDate) : JSDate :=
  option_map (startOfDay tz) d.

(** [Math.max(...xs, last)] on numbers that may be NaN ([None]): NaN as soon
    as one argument is. *)
Definition Math_max (xs : list (option Z)) (last : Z) : option Z :=
  foldr (fun x acc =>
           match x, acc with
           | Some a, Some b => Some (Z.max a b)
           | _, _ => None
           end)
        (Some last) xs.

(** [a - b] on numbers, NaN when either side is. *)
Definition num_sub (a b : option Z) : option Z :=
  match a, b with
  | Some x, Some y => Some (x - y)
  | _, _ => None
  end.

End JS.

(** ** Data model ([types/Question.ts]) *)

Inductive Difficulty := easy | medium | hard.

Inductive Status := not_started | completed | under_review | needs_attention.

Inductive LeetcodeDifficulty := Easy | Medium | Hard.

#[global] Instance Difficulty_eq_dec : EqDecision Difficulty.
Proof. solve_decision. Defined.

#[global] Instance Status_eq_dec : EqDecision Status.
Proof. solve_decision. Defined.

#[global] Instance LeetcodeDifficulty_eq_dec : EqDecision LeetcodeDifficulty.
Proof. solve_decision. Defined.

(** Optional properties are [option]s: a property that is missing and one
    that holds [undefined] read the same everywhere in the sources. *)
Record Question := mkQuestion {
  id : Z;
  name : string;
  category : string;
  leetcodeUrl : string;
  leetcodeDifficulty : option LeetcodeDifficulty;
  status : Status;
  firstCompleted : option string;
  lastReviewed : option string;
  nextReview : option string;
  reviewCount : Z;
  difficultyHistory : list Difficulty;
  notes : string
}.
(* The backend always stores a string in [notes]: [row.notes || ''] on load
   and [data.notes || ''] on creation. *)

#[global] Instance Question_eq_dec : EqDecision Question.
Proof. solve_decision. Defined.

(** ** The scheduler of the backend ([backend/src/utils/spacedRepetition.ts]) *)

Module SpacedRepetitionService.

Definition intervals : list Z := [1; 3; 7; 14; 30; 90].

Section Scheduler.
Variable tz : Z.

(** [now] is the time value of [new Date()].  A negative [reviewCount]
    indexes outside [intervals], [daysToAdd] is [undefined] and the date
    becomes invalid. *)
Definition calculateNextReview (now : Z) (reviewCount : Z) (difficulty : Difficulty)
  : JS.JSDate :=
  let intervalIndex := Z.min reviewCount (Z.of_nat (length intervals) - 1) in
  let intervalIndex :=
    if decide (difficulty = hard) then 0 else intervalIndex in
  match JS.array_get intervals intervalIndex with
  | Some daysToAdd =>
      let nextReview := now in
      let nextReview := JS.addDays nextReview daysToAdd in
      let nextReview := JS.startOfDay tz nextReview in
      Some nextReview
  | None => None
  end.

End Scheduler.

End SpacedRepetitionService.

(** The interval the specification assigns to a review: the table entry at
    [min reviewCount 5], and one day after a [hard] rating. *)
Definition spec_table : list Z := [1; 3; 7; 14; 30; 90].

Definition spec_interval (reviewCount : Z) (difficulty : Difficulty) : Z :=
  match difficulty with
  | hard => 1
  | _ => nth (Z.to_nat (Z.min reviewCount 5)) spec_table 0
  end.

(** ** The helpers of the frontend ([src/utils/spacedRepetition.ts]) and the
    groups of [src/components/ReviewQueue.tsx] *)

Module Frontend.

Definition calculateNextReview (now : Z) (reviewCount : Z) (difficulty : Difficulty)
  : JS.JSDate :=
  let intervals := [1; 3; 7; 14; 30; 90] in
  let intervalIndex := Z.min reviewCount (Z.of_nat (length intervals) - 1) in
  let intervalIndex :=
    if decide (difficulty = hard) then 0 else intervalIndex in
  match JS.array_get intervals intervalIndex with
  | Some daysToAdd => Some (JS.addDays now daysToAdd)
  | None => None
  end.

(** The records [ReviewQueue] classifies. *)
Definition reviewQuestions (questions : list Question) : list Question :=
  List.filter
    (fun q => bool_decide (status q = under_review) && JS.truthy (nextReview q))
    questions.

(** The helpers and groups that call [setHours(0, 0, 0, 0)], in any time
    zone: [midnight t] is the time value of [d.setHours(0, 0, 0, 0)] on a
    date of time value [t], the local midnight of the day of [t].  The UTC
    offset of the zone may change over the year, so two consecutive
    midnights can be 23 or 25 hours apart. *)
Section AnyZone.
Variable midnight : Z -> Z.
Variable Date_parse : string -> JS.JSDate.

Definition isDueForReview (now : Z) (nextReview : option string) : bool :=
  if negb (JS.truthy nextReview) then false
  else match nextReview with
       | Some s => JS.date_le (Date_parse s) (Some now)
       | None => false
       end.

Definition isOverdue_in (now : Z) (nextReview : option string) : bool :=
  if negb (JS.truthy nextReview) then false
  else match nextReview with
       | Some s =>
           let today := option_map midnight (Some now) in
           let reviewDate := option_map midnight (Date_parse s) in
           JS.date_lt reviewDate today
       | None => false
       end.

(** The result is a number: [Some] of an integer, or [None] for NaN. *)
Definition getDaysOverdue_in (now : Z) (nextReview : option string) : option Z :=
  if negb (JS.truthy nextReview) then Some 0
  else match nextReview with
       | Some s =>
           let today := option_map midnight (Some now) in
           let reviewDate := option_map midnight (Date_parse s) in
           let diffTime := JS.num_sub today reviewDate in
           option_map (fun d => d / (1000 * 60 * 60 * 24)) diffTime
       | None => Some 0
       end.


(** The groups of [ReviewQueue]; [now] is the value every [new Date()] of
    one rendering returns. *)
Definition overdueQuestions_in (now : Z) (questions : list Question) : list Question :=
  JS.Array_sort
    (fun a b => JS.num_sub (getDaysOverdue_in now (nextReview b))
                           (getDaysOverdue_in now (nextReview a)))
    (List.filter (fun q => isOverdue_in now (nextReview q)) (reviewQuestions questions)).



End AnyZone.

(** The same in a zone whose UTC offset is [tz] throughout, where local
    midnight is [JS.startOfDay tz]. *)
Section Classifier.
Variable tz : Z.
Variable Date_parse : string -> JS.JSDate.

Definition isOverdue : Z -> option string -> bool :=
  isOverdue_in (JS.startOfDay tz) Date_parse.




End Classifier.

End Frontend.

(** ** The question store ([backend/src/services/questionService.ts]) *)

Module QuestionService.

(** Request types ([CreateQuestionRequest], [UpdateQuestionRequest],
    [ReviewRequest]); a field that may be missing is an [option]. *)
Record CreateQuestionRequest := mkCreate {
  c_name : string;
  c_category : string;
  c_leetcodeUrl : string;
  c_leetcodeDifficulty : option LeetcodeDifficulty;
  c_notes : option string
}.

Record UpdateQuestionRequest := mkUpdate {
  u_name : option string;
  u_category : option string;
  u_leetcodeUrl : option string;
  u_notes : option string
}.

Record ReviewRequest := mkReview {
  r_difficulty : Difficulty;
  r_notes : option string
}.

(** The service object: the array [questions], the counter [nextId], and
    [csvFile], the records last read from or handed to the CSV service. *)
Record Store := mkStore {
  questions : list Question;
  nextId : Z;
  csvFile : list Question
}.

(** What an operation can throw: the two errors the service raises itself,
    and the [RangeError] of [toISOString] on an invalid date. *)
Inductive Error := NotFound | DuplicateUrl | RangeError.

Inductive Result (A : Type) :=
| Ok (a : A)
| Throw (e : Error).
Arguments Ok {A} a.
Arguments Throw {A} e.

(** [{ ...question, ...data }] *)
Definition spread (question : Question) (data : UpdateQuestionRequest) : Question :=
  {| id := id question;
     name := default (name question) (u_name data);
     category := default (category question) (u_category data);
     leetcodeUrl := default (leetcodeUrl question) (u_leetcodeUrl data);
     leetcodeDifficulty := leetcodeDifficulty question;
     status := status question;
     firstCompleted := firstCompleted question;
     lastReviewed := lastReviewed question;
     nextReview := nextReview question;
     reviewCount := reviewCount question;
     difficultyHistory := difficultyHistory question;
     notes := default (notes question) (u_notes data) |}.

(** [this.questions.find(q => q.id === id)] with its index. *)
Definition findById (i : Z) (qs : list Question) : option (nat * Question) :=
  list_find (fun q => id q = i) qs.

(** [Math.max(...this.questions.map(q => q.id), 0)] on records of the
    [Question] type, whose ids are numbers; what the expression gives when
    an id read from the file is NaN is [CsvService.loaded_counter]. *)
Definition maxId (qs : list Question) : Z :=
  foldr Z.max 0 (id <$> qs).

(** [saveQuestions] hands the array to the CSV service; the flag that
    suppresses the file watcher and its timer are not modelled. *)
Definition saveQuestions (s : Store) : Store :=
  {| questions := questions s; nextId := nextId s; csvFile := questions s |}.

(** [file] is what [csvService.readQuestions()] returns, when that is a
    list of records of the [Question] type ([CsvService.load]). *)
Definition initialize (file : list Question) : Store :=
  {| questions := file; nextId := maxId file + 1; csvFile := file |}.

Definition getQuestionById (i : Z) (s : Store) : option Question :=
  snd <$> findById i (questions s).

Definition createQuestion (data : CreateQuestionRequest) (s : Store)
  : Result Question * Store :=
  match list_find (fun q => leetcodeUrl q = c_leetcodeUrl data) (questions s) with
  | Some _ => (Throw DuplicateUrl, s)
  | None =>
      let question :=
        {| id := nextId s;
           name := c_name data;
           category := c_category data;
           leetcodeUrl := c_leetcodeUrl data;
           leetcodeDifficulty := c_leetcodeDifficulty data;
           status := not_started;
           firstCompleted := None;
           lastReviewed := None;
           nextReview := None;
           reviewCount := 0;
           difficultyHistory := [];
           notes := JS.or_else (c_notes data) EmptyString |} in
      (Ok question,
       saveQuestions {| questions := questions s ++ [question];
                        nextId := nextId s + 1;
                        csvFile := csvFile s |})
  end.

Definition updateQuestion (i : Z) (data : UpdateQuestionRequest) (s : Store)
  : Result Question * Store :=
  match findById i (questions s) with
  | None => (Throw NotFound, s)
  | Some (questionIndex, old) =>
      let existingQuestion :=
        if JS.truthy (u_leetcodeUrl data) then
          list_find (fun q => Some (leetcodeUrl q) = u_leetcodeUrl data /\ id q <> i)
                    (questions s)
        else None in
      match existingQuestion with
      | Some _ => (Throw DuplicateUrl, s)
      | None =>
          let updatedQuestion := spread old data in
          (Ok updatedQuestion,
           saveQuestions {| questions := <[questionIndex := updatedQuestion]> (questions s);
                            nextId := nextId s;
                            csvFile := csvFile s |})
      end
  end.

Definition deleteQuestion (i : Z) (s : Store) : bool * Store :=
  match findById i (questions s) with
  | None => (false, s)
  | Some (questionIndex, _) =>
      (true,
       saveQuestions {| questions := delete questionIndex (questions s);
                        nextId := nextId s;
                        csvFile := csvFile s |})
  end.

Definition resetQuestion (i : Z) (s : Store) : Result Question * Store :=
  match findById i (questions s) with
  | None => (Throw NotFound, s)
  | Some (questionIndex, question) =>
      let question :=
        {| id := id question;
           name := name question;
           category := category question;
           leetcodeUrl := leetcodeUrl question;
           leetcodeDifficulty := leetcodeDifficulty question;
           status := not_started;
           firstCompleted := None;
           lastReviewed := None;
           nextReview := None;
           reviewCount := 0;
           difficultyHistory := [];
           notes := notes question |} in
      (Ok question,
       saveQuestions {| questions := <[questionIndex := question]> (questions s);
                        nextId := nextId s;
                        csvFile := csvFile s |})
  end.

Section Scheduling.
Variable tz : Z.

(** [now] is the time value of the operation's own [new Date()], and
    [schedNow] that of the [new Date()] inside [calculateNextReview]. *)
Definition completeQuestion (i : Z) (reviewData : ReviewRequest) (now schedNow : Z)
    (s : Store) : Result Question * Store :=
  match findById i (questions s) with
  | None => (Throw NotFound, s)
  | Some (questionIndex, question) =>
      let now := JS.toISOString now in
      let nextReviewDate :=
        SpacedRepetitionService.calculateNextReview tz schedNow 0 (r_difficulty reviewData) in
      match nextReviewDate with
      | None => (Throw RangeError, s)
      | Some nextReviewDate =>
          let updatedQuestion :=
            {| id := id question;
               name := name question;
               category := category question;
               leetcodeUrl := leetcodeUrl question;
               leetcodeDifficulty := leetcodeDifficulty question;
               status := under_review;
               firstCompleted := Some (JS.or_else (firstCompleted question) now);
               lastReviewed := Some now;
               nextReview := Some (JS.toISOString nextReviewDate);
               reviewCount := 1;
               difficultyHistory := [r_difficulty reviewData];
               notes := JS.or_else (r_notes reviewData) (notes question) |} in
          (Ok updatedQuestion,
           saveQuestions {| questions := <[questionIndex := updatedQuestion]> (questions s);
                            nextId := nextId s;
                            csvFile := csvFile s |})
      end
  end.

(** The record is changed in place, one assignment after the other: when
    [nextReview.toISOString()] throws, [lastReviewed] is already written. *)
Definition reviewQuestion (i : Z) (reviewData : ReviewRequest) (now schedNow : Z)
    (s : Store) : Result Question * Store :=
  match findById i (questions s) with
  | None => (Throw NotFound, s)
  | Some (questionIndex, question) =>
      let nextReviewDate :=
        SpacedRepetitionService.calculateNextReview
          tz schedNow (reviewCount question) (r_difficulty reviewData) in
      match nextReviewDate with
      | None =>
          let question :=
            {| id := id question;
               name := name question;
               category := category question;
               leetcodeUrl := leetcodeUrl question;
               leetcodeDifficulty := leetcodeDifficulty question;
               status := status question;
               firstCompleted := firstCompleted question;
               lastReviewed := Some (JS.toISOString now);
               nextReview := nextReview question;
               reviewCount := reviewCount question;
               difficultyHistory := difficultyHistory question;
               notes := notes question |} in
          (Throw RangeError,
           {| questions := <[questionIndex := question]> (questions s);
              nextId := nextId s;
              csvFile := csvFile s |})
      | Some nextReviewDate =>
          let question :=
            {| id := id question;
               name := name question;
               category := category question;
               leetcodeUrl := leetcodeUrl question;
               leetcodeDifficulty := leetcodeDifficulty question;
               status := if decide (r_difficulty reviewData = hard)
                         then needs_attention else under_review;
               firstCompleted := firstCompleted question;
               lastReviewed := Some (JS.toISOString now);
               nextReview := Some (JS.toISOString nextReviewDate);
               reviewCount := reviewCount question + 1;
               difficultyHistory := difficultyHistory question ++ [r_difficulty reviewData];
               notes := JS.or_else (r_notes reviewData) (notes question) |} in
          (Ok question,
           saveQuestions {| questions := <[questionIndex := question]> (questions s);
                            nextId := nextId s;
                            csvFile := csvFile s |})
      end
  end.

End Scheduling.

(** *** [getDueQuestions] *)

Record DueQuestionsResponse := mkDue {
  due_questions : list Question;
  due_overdue : list Question
}.

Section Due.
Variable tz : Z.
Variable Date_parse : string -> JS.JSDate.

(** [new Date(q.nextReview)]; [new Date(undefined)] is invalid. *)
Definition reviewDate (q : Question) : JS.JSDate :=
  match nextReview q with
  | Some s => Date_parse s
  | None => None
  end.

Definition reviewDateOnly (q : Question) : JS.JSDate :=
  JS.setHours0 tz (reviewDate q).

(** The three filter callbacks, [today] being local midnight of now. *)
Definition dueFilter (today : Z) (q : Question) : bool :=
  if negb (JS.truthy (nextReview q)) || bool_decide (nextReview q = Some "0"%string)
  then false
  else match reviewDate q with
       | None => false
       | Some _ => JS.date_le (reviewDateOnly q) (Some today)
       end.

Definition overdueFilter (today : Z) (q : Question) : bool :=
  JS.date_lt (reviewDateOnly q) (Some today).

Definition dueTodayFilter (today : Z) (q : Question) : bool :=
  JS.date_eq (reviewDateOnly q) (Some today).

Definition getDueQuestions (now : Z) (s : Store) : DueQuestionsResponse :=
  let today := JS.startOfDay tz now in
  let dueQuestions := List.filter (dueFilter today) (questions s) in
  let overdue := List.filter (overdueFilter today) dueQuestions in
  let dueToday := List.filter (dueTodayFilter today) dueQuestions in
  {| due_questions := dueToday; due_overdue := overdue |}.

End Due.

(** *** Sequences of operations *)

Inductive Op :=
| OpCreate (data : CreateQuestionRequest)
| OpUpdate (i : Z) (data : UpdateQuestionRequest)
| OpDelete (i : Z)
| OpComplete (i : Z) (reviewData : ReviewRequest) (now schedNow : Z)
| OpReview (i : Z) (reviewData : ReviewRequest) (now schedNow : Z)
| OpReset (i : Z).

Definition step (tz : Z) (s : Store) (op : Op) : Store :=
  match op with
  | OpCreate data => snd (createQuestion data s)
  | OpUpdate i data => snd (updateQuestion i data s)
  | OpDelete i => snd (deleteQuestion i s)
  | OpComplete i reviewData now schedNow =>
      snd (completeQuestion tz i reviewData now schedNow s)
  | OpReview i reviewData now schedNow =>
      snd (reviewQuestion tz i reviewData now schedNow s)
  | OpReset i => snd (resetQuestion i s)
  end.

Definition run (tz : Z) (ops : list Op) (s : Store) : Store :=
  foldl (step tz) s ops.

Definition is_delete (op : Op) : bool :=
  match op with
  | OpDelete _ => true
  | _ => false
  end.

End QuestionService.

(** ** Record invariants and record-level transitions *)

Module Invariants.

(** [reviewCount == length(difficultyHistory)] *)
Definition history_matches (q : Question) : Prop :=
  reviewCount q = Z.of_nat (length (difficultyHistory q)).

Definition in_review (q : Question) : Prop :=
  status q = under_review \/ status q = needs_attention.

(** How a record of the store can look after one operation on it, as far
    as id and review state go: untouched review state (an update, or a
    review that threw), a completion, a review, a reset. *)
Inductive record_after (q q' : Question) : Prop :=
| after_same :
    id q' = id q -> status q' = status q -> nextReview q' = nextReview q ->
    reviewCount q' = reviewCount q ->
    difficultyHistory q' = difficultyHistory q ->
    record_after q q'
| after_complete (d : Difficulty) (t : Z) :
    id q' = id q -> status q' = under_review ->
    nextReview q' = Some (JS.toISOString t) ->
    reviewCount q' = 1 -> difficultyHistory q' = [d] ->
    record_after q q'
| after_review (d : Difficulty) (t : Z) :
    id q' = id q -> in_review q' ->
    nextReview q' = Some (JS.toISOString t) ->
    reviewCount q' = reviewCount q + 1 ->
    difficultyHistory q' = difficultyHistory q ++ [d] ->
    record_after q q'
| after_reset :
    id q' = id q -> status q' = not_started -> nextReview q' = None ->
    reviewCount q' = 0 -> difficultyHistory q' = [] ->
    record_after q q'.

(** A record as [createQuestion] builds it. *)
Definition fresh_record (n : Z) (q : Question) : Prop :=
  id q = n /\ status q = not_started /\ nextReview q = None
  /\ firstCompleted q = None /\ lastReviewed q = None
  /\ reviewCount q = 0 /\ difficultyHistory q = [].

(** The counter stays above every id in the store. *)
Definition counter_above_ids (s : QuestionService.Store) : Prop :=
  0 < QuestionService.nextId s
  /\ forall i, i ∈ (id <$> QuestionService.questions s) -> i < QuestionService.nextId s.

End Invariants.

(** ** The vocabulary of the due classification *)

Module DueSpec.

Section DueSpec.
Variable tz : Z.
Variable Date_parse : string -> JS.JSDate.

(** The instant a [nextReview] value denotes: none when it is absent, the
    empty string, or a string the parser rejects. *)
Definition instant_of (o : option string) : option Z :=
  match o with
  | Some s => if String.eqb s EmptyString then None else Date_parse s
  | None => None
  end.

Definition review_instant (q : Question) : option Z :=
  instant_of (nextReview q).




(** Selecting records by a test on the review instant. *)
Definition by_instant (test : Z -> bool) (q : Question) : bool :=
  match review_instant q with
  | Some t => test t
  | None => false
  end.

(** The records the backend classifies: those whose review instant passes
    the test, the string ["0"] set aside. *)
Definition backend_select (test : Z -> bool) (q : Question) : bool :=
  negb (bool_decide (nextReview q = Some "0"%string)) && by_instant test q.


End DueSpec.

End DueSpec.

(** ** Sample data *)

Module Samples.
Import QuestionService.

(** 2025-01-02T10:00:00.000Z *)
Definition jan2_10h : Z := 1735812000000.

Definition create_a : CreateQuestionRequest :=
  {| c_name := "Two Sum"; c_category := "Arrays & Hashing";
     c_leetcodeUrl := "https://leetcode.com/problems/two-sum/";
     c_leetcodeDifficulty := Some Easy; c_notes := None |}.

Definition create_b : CreateQuestionRequest :=
  {| c_name := "Valid Anagram"; c_category := "Arrays & Hashing";
     c_leetcodeUrl := "https://leetcode.com/problems/valid-anagram/";
     c_leetcodeDifficulty := Some Easy; c_notes := Some "sort or count"%string |}.

Definition create_c : CreateQuestionRequest :=
  {| c_name := "3Sum"; c_category := "Two Pointers";
     c_leetcodeUrl := "https://leetcode.com/problems/3sum/";
     c_leetcodeDifficulty := Some Medium; c_notes := None |}.

Definition question_a : Question :=
  {| id := 1; name := "Two Sum"; category := "Arrays & Hashing";
     leetcodeUrl := "https://leetcode.com/problems/two-sum/";
     leetcodeDifficulty := Some Easy; status := not_started;
     firstCompleted := None; lastReviewed := None; nextReview := None;
     reviewCount := 0; difficultyHistory := []; notes := EmptyString |}.

Definition question_b : Question :=
  {| id := 2; name := "Valid Anagram"; category := "Arrays & Hashing";
     leetcodeUrl := "https://leetcode.com/problems/valid-anagram/";
     leetcodeDifficulty := Some Easy; status := not_started;
     firstCompleted := None; lastReviewed := None; nextReview := None;
     reviewCount := 0; difficultyHistory := []; notes := "sort or count" |}.

(** [question_a] after [complete] with [easy] at [jan2_10h], in UTC. *)
Definition completed_a : Question :=
  {| id := 1; name := "Two Sum"; category := "Arrays & Hashing";
     leetcodeUrl := "https://leetcode.com/problems/two-sum/";
     leetcodeDifficulty := Some Easy; status := under_review;
     firstCompleted := Some "2025-01-02T10:00:00.000Z"%string;
     lastReviewed := Some "2025-01-02T10:00:00.000Z"%string;
     nextReview := Some "2025-01-03T00:00:00.000Z"%string;
     reviewCount := 1; difficultyHistory := [easy]; notes := EmptyString |}.

Definition rate (d : Difficulty) : ReviewRequest :=
  {| r_difficulty := d; r_notes := None |}.

(** The store after creating [create_a] and [create_b] on an empty file, and
    after then completing the first with [easy]. *)
Definition store_ab : Store :=
  run 0 [OpCreate create_a; OpCreate create_b] (initialize []).

Definition store_completed : Store :=
  run 0 [OpComplete 1 (rate easy) jan2_10h jan2_10h] store_ab.

(** Records for the due queries: one day overdue, five days overdue, due
    later today (23:00), all relative to [jan2_10h] in UTC. *)
Definition due_yesterday : Question :=
  {| id := 1; name := "Two Sum"; category := "Arrays & Hashing";
     leetcodeUrl := "https://leetcode.com/problems/two-sum/";
     leetcodeDifficulty := None; status := under_review;
     firstCompleted := Some "2024-12-31T09:00:00.000Z"%string;
     lastReviewed := Some "2024-12-31T09:00:00.000Z"%string;
     nextReview := Some "2025-01-01T00:00:00.000Z"%string;
     reviewCount := 1; difficultyHistory := [easy]; notes := EmptyString |}.

Definition due_last_week : Question :=
  {| id := 2; name := "Valid Anagram"; category := "Arrays & Hashing";
     leetcodeUrl := "https://leetcode.com/problems/valid-anagram/";
     leetcodeDifficulty := None; status := under_review;
     firstCompleted := Some "2024-12-27T09:00:00.000Z"%string;
     lastReviewed := Some "2024-12-27T09:00:00.000Z"%string;
     nextReview := Some "2024-12-28T00:00:00.000Z"%string;
     reviewCount := 1; difficultyHistory := [medium]; notes := EmptyString |}.


(** A row of the CSV file whose [leetcode_url] cell is empty, as
    [parseCSVRow] reads it. *)
Definition no_url : Question :=
  {| id := 2; name := "Scratch"; category := "Misc";
     leetcodeUrl := EmptyString; leetcodeDifficulty := None; status := not_started;
     firstCompleted := None; lastReviewed := None; nextReview := None;
     reviewCount := 0; difficultyHistory := []; notes := EmptyString |}.

(** The record [createQuestion] builds for [create_c] when the counter is
    [n]. *)
Definition scheduled_c (n : Z) : Question :=
  {| id := n; name := "3Sum"; category := "Two Pointers";
     leetcodeUrl := "https://leetcode.com/problems/3sum/";
     leetcodeDifficulty := Some Medium; status := not_started;
     firstCompleted := None; lastReviewed := None; nextReview := None;
     reviewCount := 0; difficultyHistory := []; notes := EmptyString |}.


(** [toLowerCase] on strings of ASCII characters. *)
Definition ascii_toLowerCase (s : string) : string :=
  string_of_list_ascii
    (map (fun c =>
            let n := nat_of_ascii c in
            if (65 <=? n)%nat && (n <=? 90)%nat then ascii_of_nat (n + 32) else c)
         (list_ascii_of_string s)).

Definition set_url (u : string) : UpdateQuestionRequest :=
  {| u_name := None; u_category := None; u_leetcodeUrl := Some u; u_notes := None |}.

End Samples.

(** ** Vocabulary for statements about operations *)

Module OpVocabulary.
Import QuestionService.

(** The id an operation works on; a create works on the counter's value. *)
Definition target (s : Store) (op : Op) : Z :=
  match op with
  | OpCreate _ => nextId s
  | OpUpdate i _ => i
  | OpDelete i => i
  | OpComplete i _ _ _ => i
  | OpReview i _ _ _ => i
  | OpReset i => i
  end.

(** Operations that may take a completion date away: reset and delete. *)
Definition clears (op : Op) : bool :=
  match op with
  | OpReset _ => true
  | OpDelete _ => true
  | _ => false
  end.

(** An update that hands over the empty string as url. *)
Definition sets_empty_url (op : Op) : bool :=
  match op with
  | OpUpdate _ data => bool_decide (u_leetcodeUrl data = Some EmptyString)
  | _ => false
  end.


(** A completion followed by reviews of the same record. *)
Definition review_cycle (i : Z) (first : ReviewRequest * Z * Z)
    (rest : list (ReviewRequest * Z * Z)) : list Op :=
  OpComplete i first.1.1 first.1.2 first.2
  :: map (fun r => OpReview i r.1.1 r.1.2 r.2) rest.

End OpVocabulary.

(** ** The read-only methods of the store: [getAllQuestions], [getStats] *)

Module QuestionQueries.
Import QuestionService.

(** [arr.slice(start, end)] for integer arguments: a negative index counts
    from the end, and both ends are clamped to the array. *)
Definition slice {A} (arr : list A) (start end_ : Z) : list A :=
  let len := Z.of_nat (length arr) in
  let k := if start <? 0 then Z.max (len + start) 0 else Z.min start len in
  let final := if end_ <? 0 then Z.max (len + end_) 0 else Z.min end_ len in
  take (Z.to_nat (final - k)) (drop (Z.to_nat k) arr).

(** [s.includes(sub)] *)
Fixpoint includes (s sub : string) : bool :=
  String.prefix sub s
  || match s with
     | EmptyString => false
     | String _ s' => includes s' sub
     end.

(** [n || dflt] on an optional integer: [undefined] and 0 are falsy. *)
Definition num_or (o : option Z) (dflt : Z) : Z :=
  match o with
  | Some n => if n =? 0 then dflt else n
  | None => dflt
  end.

Record QuestionFilters := mkFilters {
  f_category : option string;
  f_status : option Status;
  f_page : option Z;
  f_limit : option Z
}.

Record QuestionsResponse := mkQuestions {
  resp_questions : list Question;
  resp_total : Z;
  resp_page : Z
}.

Record StatsResponse := mkStats {
  totalQuestions : Z;
  completed_count : Z;
  inReview : Z;
  dueToday : Z;
  overdue : Z;
  completedThisWeek : Z;
  reviewedThisWeek : Z
}.

Section Queries.
(** [String.prototype.toLowerCase] is the engine's. *)
Variable toLowerCase : string -> string.

(** The records left after the two optional filters. *)
Definition filtered (filters : option QuestionFilters) (s : Store) : list Question :=
  let filtered := questions s in
  let filtered :=
    match filters with
    | Some f =>
        if JS.truthy (f_category f) then
          List.filter
            (fun q => includes (toLowerCase (category q))
                        (toLowerCase (default EmptyString (f_category f))))
            filtered
        else filtered
    | None => filtered
    end in
  match filters with
  | Some f =>
      match f_status f with
      | Some st => List.filter (fun q => bool_decide (status q = st)) filtered
      | None => filtered
      end
  | None => filtered
  end.

Definition getAllQuestions (filters : option QuestionFilters) (s : Store)
  : QuestionsResponse :=
  let filtered := filtered filters s in
  let page := num_or (filters ≫= f_page) 1 in
  let limit := num_or (filters ≫= f_limit) 50 in
  let startIndex := (page - 1) * limit in
  let endIndex := startIndex + limit in
  {| resp_questions := slice filtered startIndex endIndex;
     resp_total := Z.of_nat (length filtered);
     resp_page := page |}.

End Queries.

Section Stats.
Variable tz : Z.
Variable Date_parse : string -> JS.JSDate.

(** [a >= b] on dates: false as soon as one side is NaN. *)
Definition date_ge (a b : JS.JSDate) : bool :=
  match a, b with
  | Some x, Some y => y <=? x
  | _, _ => false
  end.

Definition parse_opt (o : option string) : JS.JSDate :=
  match o with
  | Some str => Date_parse str
  | None => None
  end.

Definition count (f : Question -> bool) (qs : list Question) : Z :=
  Z.of_nat (length (List.filter f qs)).

Definition getStats (now : Z) (s : Store) : StatsResponse :=
  let weekAgo := now - 7 * 24 * 60 * 60 * 1000 in
  let today := JS.startOfDay tz now in
  let dueQuestions := List.filter (dueFilter tz Date_parse today) (questions s) in
  {| totalQuestions := Z.of_nat (length (questions s));
     completed_count :=
       count (fun q => bool_decide (status q = completed)
                       || bool_decide (status q = under_review)) (questions s);
     inReview := count (fun q => bool_decide (status q = under_review)) (questions s);
     dueToday := count (dueTodayFilter tz Date_parse today) dueQuestions;
     overdue := count (overdueFilter tz Date_parse today) dueQuestions;
     completedThisWeek :=
       count (fun q => JS.truthy (firstCompleted q)
                       && date_ge (parse_opt (firstCompleted q)) (Some weekAgo))
             (questions s);
     reviewedThisWeek :=
       count (fun q =>
                if negb (JS.truthy (lastReviewed q))
                   || JS.date_lt (parse_opt (lastReviewed q)) (Some weekAgo)
                then false
                else (1 <? reviewCount q)
                     && negb (bool_decide (lastReviewed q = firstCompleted q)))
             (questions s) |}.

End Stats.

(** *** The client's [getAllQuestions] ([src/services/api.ts])

    The client asks for pages of 1000 records.  The transport is left out:
    a request is the call of the store's [getAllQuestions] with the page and
    limit the request carries, the page defaulting to 1 as the query schema
    has it, and the store does not change between the requests. *)
Section Client.
Variable toLowerCase : string -> string.

Definition getQuestions (page : option Z) (limit : Z) (s : Store) : QuestionsResponse :=
  getAllQuestions toLowerCase
    (Some {| f_category := None; f_status := None;
             f_page := Some (default 1 page); f_limit := Some limit |}) s.

(** [Math.ceil(total / 1000)] *)
Definition totalPages (total : Z) : Z := - ((- total) / 1000).

Definition client_getAllQuestions (s : Store) : list Question :=
  let response := getQuestions None 1000 s in
  let allQuestions := resp_questions response in
  let totalPages := totalPages (resp_total response) in
  foldl (fun allQuestions page =>
           allQuestions ++ resp_questions (getQuestions (Some page) 1000 s))
        allQuestions
        (map (fun k => Z.of_nat k) (seq 2 (Z.to_nat totalPages - 1))).

End Client.

End QuestionQueries.

(** ** Numbers and strings of the runtime

    A string is the sequence of its code units, for code units below 256;
    the functions below that classify characters do so within that range. *)

Module Text.

(** [Number.isSafeInteger(n)]: the integers every one of which is a
    number of its own, [|n| <= 2^53 - 1]. *)
Definition isSafeInteger (n : Z) : bool := Z.abs n <=? 2 ^ 53 - 1.

(** [String(n)] and [n.toString()] for a safe integer: the decimal digits,
    with a minus sign for a negative one. *)
Definition Number_toString (n : Z) : string :=
  match n with
  | Z0 => "0"
  | Zpos p => NilEmpty.string_of_uint (Pos.to_uint p)
  | Zneg p => String "-" (NilEmpty.string_of_uint (Pos.to_uint p))
  end.

(** The white space and line terminator code units below 256: TAB, LF, VT,
    FF, CR, SP and NBSP. *)
Definition StrWhiteSpaceChar (c : ascii) : bool :=
  let n := nat_of_ascii c in
  ((9 <=? n) && (n <=? 13) || (n =? 32) || (n =? 160))%nat.

(** The value of a digit of a radix up to 36. *)
Definition digit_of (c : ascii) : option Z :=
  let n := Z.of_nat (nat_of_ascii c) in
  if (48 <=? n) && (n <=? 57) then Some (n - 48)
  else if (97 <=? n) && (n <=? 122) then Some (n - 87)
  else if (65 <=? n) && (n <=? 90) then Some (n - 55)
  else None.

Fixpoint trimStart (s : string) : string :=
  match s with
  | String c s' => if StrWhiteSpaceChar c then trimStart s' else s
  | EmptyString => EmptyString
  end.

(** The longest prefix of digits of radix [R], read as a number; [None]
    (NaN) when there is no digit. *)
Fixpoint parse_digits (R : Z) (s : string) (acc : Z) (seen : bool) : option Z :=
  match s with
  | String c s' =>
      match digit_of c with
      | Some v =>
          if v <? R then parse_digits R s' (acc * R + v) true
          else if seen then Some acc else None
      | None => if seen then Some acc else None
      end
  | EmptyString => if seen then Some acc else None
  end.

(** [parseInt(string, radix)], [radix] being an integer or missing.  The
    result is the exact integer, which is the number [parseInt] gives
    whenever that integer is a safe one; [-0] is [0]. *)
Definition parseInt (input : string) (radix : option Z) : option Z :=
  let str := trimStart input in
  let sign := match str with String "-" _ => -1 | _ => 1 end in
  let str := match str with
             | String "+" rest => rest
             | String "-" rest => rest
             | _ => str
             end in
  let R := default 0 radix in
  if negb (R =? 0) && ((R <? 2) || (36 <? R)) then None
  else
    let stripPrefix := (R =? 0) || (R =? 16) in
    let R := if R =? 0 then 10 else R in
    let stripped :=
      if stripPrefix then
        match str with
        | String "0" (String "x" rest) => (rest, 16)
        | String "0" (String "X" rest) => (rest, 16)
        | _ => (str, R)
        end
      else (str, R) in
    option_map (fun mathInt => sign * mathInt)
      (parse_digits stripped.2 stripped.1 0 false).

(** [n || dflt] on a number that may be NaN: NaN and 0 are falsy. *)
Definition nan_or (o : option Z) (dflt : Z) : Z :=
  match o with
  | Some n => if n =? 0 then dflt else n
  | None => dflt
  end.

(** [s.split(sep)] for a separator of one character. *)
Fixpoint split (sep : ascii) (s : string) : list string :=
  match s with
  | EmptyString => [EmptyString]
  | String c s' =>
      if Ascii.eqb c sep then EmptyString :: split sep s'
      else match split sep s' with
           | h :: t => String c h :: t
           | [] => [String c EmptyString]
           end
  end.

(** [arr.join(sep)] *)
Definition join (sep : string) (arr : list string) : string :=
  String.concat sep arr.

(** [s.includes(c)] for one character. *)
Fixpoint has_char (c : ascii) (s : string) : bool :=
  match s with
  | EmptyString => false
  | String a s' => Ascii.eqb a c || has_char c s'
  end.

(** The number a sequence of decimal digits denotes after the digits read
    so far. *)
Fixpoint uint_val (d : Decimal.uint) (acc : Z) : Z :=
  match d with
  | Decimal.Nil => acc
  | Decimal.D0 d => uint_val d (acc * 10 + 0)
  | Decimal.D1 d => uint_val d (acc * 10 + 1)
  | Decimal.D2 d => uint_val d (acc * 10 + 2)
  | Decimal.D3 d => uint_val d (acc * 10 + 3)
  | Decimal.D4 d => uint_val d (acc * 10 + 4)
  | Decimal.D5 d => uint_val d (acc * 10 + 5)
  | Decimal.D6 d => uint_val d (acc * 10 + 6)
  | Decimal.D7 d => uint_val d (acc * 10 + 7)
  | Decimal.D8 d => uint_val d (acc * 10 + 8)
  | Decimal.D9 d => uint_val d (acc * 10 + 9)
  end.

(** What may follow a number without being read as part of it: nothing,
    or a character that is no decimal digit. *)
Definition stops (rest : string) : Prop :=
  match rest with
  | EmptyString => True
  | String c _ =>
      match digit_of c with
      | Some v => 10 <= v
      | None => True
      end
  end.

End Text.

(** ** The CSV helpers of the frontend ([src/utils/csvHandler.ts]) *)

Module CsvHandler.
Import Text.

(** The double quote, the comma and the line feed. *)
Definition dquote : ascii := Ascii false true false false false true false false.
Definition comma : ascii := ","%char.
Definition newline : ascii := "010"%char.

(** The loop of [parseCSVLine]: [line] is what is left of the line from
    index [i] on, so [line[i + 1]] is the second character of it. *)
Fixpoint parseCSVLine_loop (line : string) (current : string) (inQuotes : bool)
    (result : list string) : list string :=
  match line with
  | EmptyString => result ++ [current]
  | String char rest =>
      if Ascii.eqb char dquote then
        match inQuotes, rest with
        | true, String next rest' =>
            if Ascii.eqb next dquote
            then parseCSVLine_loop rest' (current +:+ String dquote EmptyString)
                   inQuotes result
            else parseCSVLine_loop rest current (negb inQuotes) result
        | _, _ => parseCSVLine_loop rest current (negb inQuotes) result
        end
      else if Ascii.eqb char comma && negb inQuotes then
        parseCSVLine_loop rest EmptyString inQuotes (result ++ [current])
      else
        parseCSVLine_loop rest (current +:+ String char EmptyString) inQuotes result
  end.

Definition parseCSVLine (line : string) : list string :=
  parseCSVLine_loop line EmptyString false [].

(** The replacement of every double quote by two of them. *)
Fixpoint double_quotes (value : string) : string :=
  match value with
  | EmptyString => EmptyString
  | String c rest =>
      if Ascii.eqb c dquote then String dquote (String dquote (double_quotes rest))
      else String c (double_quotes rest)
  end.

Definition escapeCSVValue (value : string) : string :=
  if has_char comma value || has_char dquote value || has_char newline value
  then String dquote (double_quotes value +:+ String dquote EmptyString)
  else value.

(** [validateStatus] *)
Definition validateStatus (status : string) : Status :=
  if String.eqb status "not_started" then not_started
  else if String.eqb status "completed" then completed
  else if String.eqb status "under_review" then under_review
  else if String.eqb status "needs_attention" then needs_attention
  else not_started.

End CsvHandler.

(** ** The CSV service of the backend ([backend/src/services/csvService.ts]) *)

Module CsvService.
Import Text.

Record QuestionCSVRow := mkRow {
  row_id : string;
  row_name : string;
  row_category : string;
  row_leetcode_url : string;
  row_status : string;
  row_first_completed : string;
  row_last_reviewed : string;
  row_next_review : string;
  row_review_count : string;
  row_difficulty_history : string;
  row_notes : string
}.

(** The values of the two string unions as strings. *)
Definition status_string (st : Status) : string :=
  match st with
  | not_started => "not_started"
  | completed => "completed"
  | under_review => "under_review"
  | needs_attention => "needs_attention"
  end.

Definition difficulty_string (d : Difficulty) : string :=
  match d with
  | easy => "easy"
  | medium => "medium"
  | hard => "hard"
  end.

(** [questionToCSVRow]; the two numeric cells are given as the strings the
    CSV writer prints for them. *)
Definition questionToCSVRow (question : Question) : QuestionCSVRow :=
  {| row_id := Number_toString (id question);
     row_name := name question;
     row_category := category question;
     row_leetcode_url := leetcodeUrl question;
     row_status := status_string (status question);
     row_first_completed := JS.or_else (firstCompleted question) EmptyString;
     row_last_reviewed := JS.or_else (lastReviewed question) EmptyString;
     row_next_review := JS.or_else (nextReview question) EmptyString;
     row_review_count := Number_toString (reviewCount question);
     row_difficulty_history :=
       join "," (map difficulty_string (difficultyHistory question));
     row_notes := notes question |}.

(** The strings of the two unions, read back. *)
Definition status_of_string (str : string) : option Status :=
  if String.eqb str "not_started" then Some not_started
  else if String.eqb str "completed" then Some completed
  else if String.eqb str "under_review" then Some under_review
  else if String.eqb str "needs_attention" then Some needs_attention
  else None.

Definition difficulty_of_string (str : string) : option Difficulty :=
  if String.eqb str "easy" then Some easy
  else if String.eqb str "medium" then Some medium
  else if String.eqb str "hard" then Some hard
  else None.

(** [cell || undefined] *)
Definition cell_or_undefined (cell : string) : option string :=
  if String.eqb cell EmptyString then None else Some cell.

(** The object [parseCSVRow] returns, as it is at run time.  Nothing checks
    the id, and the casts [as Question['status']] and
    [as ('easy' | 'medium' | 'hard')[]] check nothing either: the id may be
    NaN ([None]), and the status and the ratings any strings. *)
Record LoadedQuestion := mkLoaded {
  l_id : option Z;
  l_name : string;
  l_category : string;
  l_leetcodeUrl : string;
  l_status : string;
  l_firstCompleted : option string;
  l_lastReviewed : option string;
  l_nextReview : option string;
  l_reviewCount : Z;
  l_difficultyHistory : list string;
  l_notes : string
}.

(** [parseCSVRow]; it never throws, so [readQuestions] keeps every row.  A
    cell the parser leaves out ([undefined]) is the empty string in
    [QuestionCSVRow]: the function only uses a cell under [||], as a
    condition or in [parseInt], which treat the two alike. *)
Definition parseCSVRow (row : QuestionCSVRow) : LoadedQuestion :=
  {| l_id := parseInt (row_id row) (Some 10);
     l_name := JS.or_else (Some (row_name row)) EmptyString;
     l_category := JS.or_else (Some (row_category row)) EmptyString;
     l_leetcodeUrl := JS.or_else (Some (row_leetcode_url row)) EmptyString;
     l_status := JS.or_else (Some (row_status row)) "not_started";
     l_firstCompleted := cell_or_undefined (row_first_completed row);
     l_lastReviewed := cell_or_undefined (row_last_reviewed row);
     l_nextReview := cell_or_undefined (row_next_review row);
     l_reviewCount := nan_or (parseInt (row_review_count row) (Some 10)) 0;
     l_difficultyHistory :=
       if String.eqb (row_difficulty_history row) EmptyString then []
       else List.filter (fun cell => negb (String.eqb cell EmptyString))
              (split "," (row_difficulty_history row));
     l_notes := JS.or_else (Some (row_notes row)) EmptyString |}.

(** [readQuestions] on the rows the CSV parser hands over. *)
Definition readQuestions (rows : list QuestionCSVRow) : list LoadedQuestion :=
  map parseCSVRow rows.

(** The loaded object as a record of the [Question] type, when it is one:
    its id is a number, and its status and ratings are in their unions. *)
Definition as_question (l : LoadedQuestion) : option Question :=
  match l_id l, status_of_string (l_status l),
        mapM difficulty_of_string (l_difficultyHistory l) with
  | Some n, Some st, Some history =>
      Some {| id := n;
              name := l_name l;
              category := l_category l;
              leetcodeUrl := l_leetcodeUrl l;
              leetcodeDifficulty := None;
              status := st;
              firstCompleted := l_firstCompleted l;
              lastReviewed := l_lastReviewed l;
              nextReview := l_nextReview l;
              reviewCount := l_reviewCount l;
              difficultyHistory := history;
              notes := l_notes l |}
  | _, _, _ => None
  end.

(** The records of the file, when every row gives a record of the
    [Question] type; these are the files the model of the store covers. *)
Definition load (rows : list QuestionCSVRow) : option (list Question) :=
  mapM as_question (readQuestions rows).

(** [Math.max(...this.questions.map(q => q.id), 0) + 1] in [initialize] and
    [reloadFromFile], on what [readQuestions] returned: NaN as soon as one
    id is NaN. *)
Definition loaded_counter (loaded : list LoadedQuestion) : option Z :=
  option_map (fun m => m + 1) (JS.Math_max (map l_id loaded) 0).

(** The row without values: what the CSV parser makes of an empty line. *)
Definition blank_row : QuestionCSVRow :=
  {| row_id := EmptyString; row_name := EmptyString; row_category := EmptyString;
     row_leetcode_url := EmptyString; row_status := EmptyString;
     row_first_completed := EmptyString; row_last_reviewed := EmptyString;
     row_next_review := EmptyString; row_review_count := EmptyString;
     row_difficulty_history := EmptyString; row_notes := EmptyString |}.

(** The rows the CSV parser reads from the file [writeQuestions] leaves:
    the writer and the parser hand every cell of a record back as the
    string it was given; for an empty list the writer still prints the
    line end that closes the records, after the header line, and the
    parser reads that empty line as a row without values. *)
Definition rows_written (questions : list Question) : list QuestionCSVRow :=
  match questions with
  | [] => [blank_row]
  | _ => map questionToCSVRow questions
  end.

(** [writeQuestions] followed by [readQuestions]. *)
Definition written_then_read (questions : list Question) : list LoadedQuestion :=
  readQuestions (rows_written questions).

(** What a record looks like after being written and read: the difficulty
    tag has no column, and a date that is the empty string is absent. *)
Definition as_saved (q : Question) : Question :=
  {| id := id q; name := name q; category := category q;
     leetcodeUrl := leetcodeUrl q; leetcodeDifficulty := None;
     status := status q;
     firstCompleted := if JS.truthy (firstCompleted q) then firstCompleted q else None;
     lastReviewed := if JS.truthy (lastReviewed q) then lastReviewed q else None;
     nextReview := if JS.truthy (nextReview q) then nextReview q else None;
     reviewCount := reviewCount q;
     difficultyHistory := difficultyHistory q;
     notes := notes q |}.

(** The records that writing and reading leave as they are: no difficulty
    tag, and no date that is the empty string. *)
Definition saved_form (q : Question) : Prop :=
  leetcodeDifficulty q = None
  /\ firstCompleted q <> Some EmptyString
  /\ lastReviewed q <> Some EmptyString
  /\ nextReview q <> Some EmptyString.

(** The numbers of a record that the file keeps are safe integers. *)
Definition safe_numbers (q : Question) : bool :=
  isSafeInteger (id q) && isSafeInteger (reviewCount q).

(** A restart of the server, or [reloadFromFile] once the flag is down:
    the service starts from what was last handed to the CSV service.
    [None] when a loaded object is no record of the [Question] type; the
    counter is then [loaded_counter]. *)
Definition restart (s : QuestionService.Store) : option QuestionService.Store :=
  QuestionService.initialize
    <$> mapM as_question (written_then_read (QuestionService.csvFile s)).

End CsvService.

(** ** The CSV text of the frontend ([src/utils/csvHandler.ts]) *)

Module CsvText.
Import Text CsvHandler CsvService.

Fixpoint trimEnd (s : string) : string :=
  match s with
  | EmptyString => EmptyString
  | String c s' =>
      let r := trimEnd s' in
      if String.eqb r EmptyString && StrWhiteSpaceChar c then EmptyString
      else String c r
  end.

(** [s.trim()] *)
Definition trim (s : string) : string := trimEnd (trimStart s).

Definition headers : list string :=
  ["id"; "name"; "category"; "leetcode_url"; "status"; "first_completed";
   "last_reviewed"; "next_review"; "review_count"; "difficulty_history"; "notes"].

(** [csvRowToQuestion]; the filter of the ratings keeps the three strings
    of the union, which [difficulty_of_string] reads. *)
Definition csvRowToQuestion (row : QuestionCSVRow) : Question :=
  {| id := nan_or (parseInt (row_id row) None) 0;
     name := row_name row;
     category := row_category row;
     leetcodeUrl := row_leetcode_url row;
     leetcodeDifficulty := None;
     status := validateStatus (row_status row);
     firstCompleted := cell_or_undefined (row_first_completed row);
     lastReviewed := cell_or_undefined (row_last_reviewed row);
     nextReview := cell_or_undefined (row_next_review row);
     reviewCount := nan_or (parseInt (row_review_count row) None) 0;
     difficultyHistory :=
       if String.eqb (row_difficulty_history row) EmptyString then []
       else omap difficulty_of_string (split comma (row_difficulty_history row));
     notes := JS.or_else (Some (row_notes row)) EmptyString |}.

(** [values[k] || dflt] *)
Definition value_or (values : list string) (k : nat) (dflt : string) : string :=
  JS.or_else (values !! k) dflt.

(** The body of the loop of [parseCSV] for one line: [None] when the line
    is skipped. *)
Definition line_question (line : string) : option Question :=
  let values := parseCSVLine line in
  if (length values <? 11)%nat then None
  else
    let row :=
      {| row_id := value_or values 0 EmptyString;
         row_name := value_or values 1 EmptyString;
         row_category := value_or values 2 EmptyString;
         row_leetcode_url := value_or values 3 EmptyString;
         row_status := value_or values 4 "not_started";
         row_first_completed := value_or values 5 EmptyString;
         row_last_reviewed := value_or values 6 EmptyString;
         row_next_review := value_or values 7 EmptyString;
         row_review_count := value_or values 8 "0";
         row_difficulty_history := value_or values 9 EmptyString;
         row_notes := value_or values 10 EmptyString |} in
    let question := csvRowToQuestion row in
    if 0 <? id question then Some question else None.

Definition parseCSV (csvContent : string) : list Question :=
  let lines :=
    List.filter (fun line => negb (String.eqb (trim line) EmptyString))
      (split newline csvContent) in
  if (length lines <=? 1)%nat then [] else omap line_question (tail lines).

Section Exporting.
Variable Date_parse : string -> JS.JSDate.

(** [date ? new Date(date).toISOString().split('T')[0] : ''], [None] for
    the range error of [toISOString] on an invalid date; [join] prints an
    element that is [undefined] as the empty string. *)
Definition date_cell (date : option string) : option string :=
  if JS.truthy date then
    match date ≫= Date_parse with
    | Some t => Some (default EmptyString (head (split "T" (JS.toISOString t))))
    | None => None
    end
  else Some EmptyString.

(** The callback of [questions.map] in [questionsToCSV]. *)
Definition question_line (question : Question) : option string :=
  first_completed ← date_cell (firstCompleted question);
  last_reviewed ← date_cell (lastReviewed question);
  next_review ← date_cell (nextReview question);
  Some (join ","
          [Number_toString (id question);
           escapeCSVValue (name question);
           escapeCSVValue (category question);
           leetcodeUrl question;
           status_string (status question);
           first_completed;
           last_reviewed;
           next_review;
           Number_toString (reviewCount question);
           join "," (map difficulty_string (difficultyHistory question));
           escapeCSVValue (JS.or_else (Some (notes question)) EmptyString)]).

Definition questionsToCSV (questions : list Question) : option string :=
  rows ← mapM question_line questions;
  Some (join (String newline EmptyString) (join "," headers :: rows)).

(** What an exported record comes back as: the dates cut to their day, and
    no difficulty tag. *)
Definition as_exported (q : Question) : option Question :=
  first_completed ← date_cell (firstCompleted q);
  last_reviewed ← date_cell (lastReviewed q);
  next_review ← date_cell (nextReview q);
  Some {| id := id q; name := name q; category := category q;
          leetcodeUrl := leetcodeUrl q; leetcodeDifficulty := None;
          status := status q;
          firstCompleted := cell_or_undefined first_completed;
          lastReviewed := cell_or_undefined last_reviewed;
          nextReview := cell_or_undefined next_review;
          reviewCount := reviewCount q;
          difficultyHistory := difficultyHistory q;
          notes := notes q |}.

End Exporting.

(** The characters of a printed number and of a printed date. *)
Definition decimal_digits : list ascii :=
  ["0"; "1"; "2"; "3"; "4"; "5"; "6"; "7"; "8"; "9"]%char.

(** [c] is none of the characters of [l]. *)
Definition none_of (l : list ascii) (c : ascii) : Prop :=
  forallb (fun a => negb (Ascii.eqb a c)) l = true.

Definition iso_chars : list ascii :=
  ["T"; ":"; "."; "Z"; "+"; "-"]%char ++ decimal_digits.

(** A string without comma, double quote and line feed. *)
Definition plain (s : string) : bool :=
  negb (has_char comma s || has_char dquote s || has_char newline s).

(** The eleven values of a record before they are escaped and joined, the
    ratings being one value each. *)
Definition raw_cells (q : Question) (first_completed last_reviewed next_review : string)
  : list string :=
  [Number_toString (id q); name q; category q; leetcodeUrl q;
   status_string (status q); first_completed; last_reviewed; next_review;
   Number_toString (reviewCount q)]
  ++ match difficultyHistory q with
     | [] => [EmptyString]
     | ds => map difficulty_string ds
     end
  ++ [notes q].

(** The records the export keeps apart: a positive id, safe numbers, no
    line feed in the three escaped texts, a plain url, and at most one
    rating. *)
Definition exportable (q : Question) : bool :=
  (0 <? id q) && safe_numbers q
  && negb (has_char newline (name q)) && negb (has_char newline (category q))
  && negb (has_char newline (notes q))
  && plain (leetcodeUrl q)
  && (length (difficultyHistory q) <=? 1)%nat.

End CsvText.

(** ** The form helpers of the frontend ([src/utils/validation.ts]) *)

Module Validation.
Import Text.

(** [[a-z0-9-]] *)
Definition slug_char (c : ascii) : bool :=
  let n := nat_of_ascii c in
  ((97 <=? n) && (n <=? 122) || (48 <=? n) && (n <=? 57) || (n =? 45))%nat.

(** [s] without the prefix [p], when it has it. *)
Fixpoint strip_prefix (p s : string) : option string :=
  match p, s with
  | EmptyString, _ => Some s
  | String a p', String b s' => if Ascii.eqb a b then strip_prefix p' s' else None
  | String _ _, EmptyString => None
  end.

(** The longest run of slug characters at the head of a string, and what
    follows it. *)
Fixpoint slug_run (s : string) : string * string :=
  match s with
  | String c s' =>
      if slug_char c then let r := slug_run s' in (String c r.1, r.2)
      else (EmptyString, s)
  | EmptyString => (EmptyString, EmptyString)
  end.

(** A match of [[a-z0-9-]+\/?$] at the head of [s], giving the group: the
    run of slug characters must be the longest one, since what follows it
    has to be the end or one slash and the end. *)
Definition match_slug_tail (s : string) : option string :=
  let r := slug_run s in
  if String.eqb r.1 EmptyString then None
  else if String.eqb r.2 EmptyString || String.eqb r.2 "/" then Some r.1
  else None.

(** [/^https:\/\/leetcode\.com\/problems\/[a-z0-9-]+\/?$/.test(url)] *)
Definition validateLeetCodeURL (url : string) : bool :=
  match strip_prefix "https://leetcode.com/problems/" url with
  | Some rest => bool_decide (is_Some (match_slug_tail rest))
  | None => false
  end.

(** [url.match(/\/problems\/([a-z0-9-]+)\/?$/)]: the leftmost position at
    which the pattern matches, and the group there. *)
Fixpoint extractProblemSlug (url : string) : option string :=
  match strip_prefix "/problems/" url ≫= match_slug_tail with
  | Some slug => Some slug
  | None =>
      match url with
      | String _ url' => extractProblemSlug url'
      | EmptyString => None
      end
  end.

(** [existingQuestions.some(q => q.leetcodeUrl === url)] *)
Definition isDuplicateURL (url : string) (existingQuestions : list Question) : bool :=
  existsb (fun q => String.eqb (leetcodeUrl q) url) existingQuestions.

End Validation.

(** ** The routes that take no request body ([backend/src/routes/questions.ts]) *)

Module Routes.
Import Text QuestionService.

(** The reply of a route: the status code, with the question sent where
    there is one. *)
Inductive Reply :=
| BadRequest            (* 400, Invalid question ID *)
| NotFoundReply         (* 404, Question not found *)
| Success               (* 200, success: true *)
| Found (q : Question)   (* 200, the question *)
| ServerError.          (* the error is thrown again *)

(** [GET /questions/:id] *)
Definition get_question (param : string) (s : Store) : Reply :=
  match parseInt param (Some 10) with
  | None => BadRequest
  | Some questionId =>
      match getQuestionById questionId s with
      | None => NotFoundReply
      | Some question => Found question
      end
  end.

(** [DELETE /questions/:id] *)
Definition delete_question (param : string) (s : Store) : Reply * Store :=
  match parseInt param (Some 10) with
  | None => (BadRequest, s)
  | Some questionId =>
      let r := deleteQuestion questionId s in
      if negb r.1 then (NotFoundReply, r.2) else (Success, r.2)
  end.

(** [POST /questions/:id/reset] *)
Definition reset_question (param : string) (s : Store) : Reply * Store :=
  match parseInt param (Some 10) with
  | None => (BadRequest, s)
  | Some questionId =>
      let r := resetQuestion questionId s in
      match r.1 with
      | Ok question => (Found question, r.2)
      | Throw NotFound => (NotFoundReply, r.2)
      | Throw _ => (ServerError, r.2)
      end
  end.

End Routes.

(** ** More sample data *)

Module MoreSamples.
Import QuestionService.

(** A create request as the create schema of the routes hands it over:
    without a difficulty tag. *)
Definition create_plain : CreateQuestionRequest :=
  {| c_name := "Group Anagrams"; c_category := "Arrays & Hashing";
     c_leetcodeUrl := "https://leetcode.com/problems/group-anagrams/";
     c_leetcodeDifficulty := None; c_notes := Some "sort the letters"%string |}.

(** The request [Samples.create_a] with the url spelled without its closing
    slash. *)
Definition create_a_bare : CreateQuestionRequest :=
  {| c_name := "Two Sum"; c_category := "Arrays & Hashing";
     c_leetcodeUrl := "https://leetcode.com/problems/two-sum";
     c_leetcodeDifficulty := None; c_notes := None |}.

(** Two creates, a completion and a review of the first, and the removal of
    the second. *)
Definition session : list Op :=
  [OpCreate create_plain;
   OpCreate {| c_name := "3Sum"; c_category := "Two Pointers";
               c_leetcodeUrl := "https://leetcode.com/problems/3sum/";
               c_leetcodeDifficulty := None; c_notes := None |};
   OpComplete 1 (Samples.rate medium) Samples.jan2_10h Samples.jan2_10h;
   OpReview 1 (Samples.rate hard) Samples.jan2_10h Samples.jan2_10h;
   OpDelete 2].

(** A row of the CSV file, and the record it is read as. *)
Definition row_seven : CsvService.QuestionCSVRow :=
  {| CsvService.row_id := "7"; CsvService.row_name := "Contains Duplicate";
     CsvService.row_category := "Arrays & Hashing";
     CsvService.row_leetcode_url := "https://leetcode.com/problems/contains-duplicate/";
     CsvService.row_status := "under_review";
     CsvService.row_first_completed := "2025-01-01T09:00:00.000Z";
     CsvService.row_last_reviewed := "2025-01-01T09:00:00.000Z";
     CsvService.row_next_review := "2025-01-02T00:00:00.000Z";
     CsvService.row_review_count := "1";
     CsvService.row_difficulty_history := "easy";
     CsvService.row_notes := EmptyString |}.

Definition question_seven : Question :=
  {| id := 7; name := "Contains Duplicate"; category := "Arrays & Hashing";
     leetcodeUrl := "https://leetcode.com/problems/contains-duplicate/";
     leetcodeDifficulty := None; status := under_review;
     firstCompleted := Some "2025-01-01T09:00:00.000Z"%string;
     lastReviewed := Some "2025-01-01T09:00:00.000Z"%string;
     nextReview := Some "2025-01-02T00:00:00.000Z"%string;
     reviewCount := 1; difficultyHistory := [easy]; notes := EmptyString |}.

(** Local midnight in a zone like Europe/London around 30 March 2025: the
    offset is 0 until the clocks go forward at 01:00 UTC on that day, and
    one hour from then on, so that day has 23 hours. *)
Definition clocks_forward : Z := 1743296400000.

Definition london_midnight (t : Z) : Z :=
  let offset := if t <? clocks_forward then 0 else 3600000 in
  let local := t + offset in
  let m := local - local mod JS.msPerDay in
  if m <? clocks_forward then m else m - 3600000.

(** A record under review that was due on 30 March 2025, and noon of the
    next day in that zone (11:00 UTC). *)
Definition due_march_30 : Question :=
  {| id := 1; name := "Two Sum"; category := "Arrays & Hashing";
     leetcodeUrl := "https://leetcode.com/problems/two-sum/";
     leetcodeDifficulty := None; status := under_review;
     firstCompleted := Some "2025-03-29T10:00:00.000Z"%string;
     lastReviewed := Some "2025-03-29T10:00:00.000Z"%string;
     nextReview := Some "2025-03-30T00:00:00.000Z"%string;
     reviewCount := 1; difficultyHistory := [easy]; notes := EmptyString |}.

Definition march_31_noon : Z := 1743418800000.

(** A record that was completed and then reviewed once. *)
Definition twice_rated : Question :=
  {| id := 1; name := "Group Anagrams"; category := "Arrays & Hashing";
     leetcodeUrl := "https://leetcode.com/problems/group-anagrams/";
     leetcodeDifficulty := None; status := needs_attention;
     firstCompleted := Some "2025-01-02T10:00:00.000Z"%string;
     lastReviewed := Some "2025-01-05T09:30:00.000Z"%string;
     nextReview := Some "2025-01-06T00:00:00.000Z"%string;
     reviewCount := 2; difficultyHistory := [medium; hard];
     notes := "sort the letters" |}.

(** The line the export of the frontend prints for it. *)
Definition twice_rated_line : string :=
  "1,Group Anagrams,Arrays & Hashing,https://leetcode.com/problems/group-anagrams/,needs_attention,2025-01-02,2025-01-05,2025-01-06,2,medium,hard,sort the letters".

End MoreSamples.

(** * Properties *)

(** ** Facts about the runtime model *)

Module JSFacts.
Import JS.

Section LocalTime.
Variable tz : Z.

Lemma msPerDay_pos : 0 < msPerDay.
Proof. reflexivity. Qed.

Lemma localDay_startOfDay t : localDay tz (startOfDay tz t) = localDay tz t.
Proof.
  unfold localDay, startOfDay, timeOfDay.
  pose proof (Z.div_mod (t + tz) msPerDay) as E.
  replace (t - (t + tz) mod msPerDay + tz)
    with (((t + tz) / msPerDay) * msPerDay) by (unfold msPerDay in *; lia).
  apply Z.div_mul. discriminate.
Qed.

Lemma timeOfDay_startOfDay t : timeOfDay tz (startOfDay tz t) = 0.
Proof.
  unfold startOfDay, timeOfDay.
  pose proof (Z.div_mod (t + tz) msPerDay) as E.
  replace (t - (t + tz) mod msPerDay + tz)
    with (((t + tz) / msPerDay) * msPerDay) by (unfold msPerDay in *; lia).
  apply Z.mod_mul. discriminate.
Qed.

Lemma localDay_addDays t n : localDay tz (addDays t n) = localDay tz t + n.
Proof.
  unfold localDay, addDays.
  replace (t + n * msPerDay + tz) with (t + tz + n * msPerDay) by lia.
  apply Z.div_add. discriminate.
Qed.

Lemma timeOfDay_addDays t n : timeOfDay tz (addDays t n) = timeOfDay tz t.
Proof.
  unfold timeOfDay, addDays.
  replace (t + n * msPerDay + tz) with (t + tz + n * msPerDay) by lia.
  apply Z.mod_add. discriminate.
Qed.

Lemma startOfDay_split t :
  startOfDay tz t = localDay tz t * msPerDay - tz.
Proof.
  unfold startOfDay, timeOfDay, localDay.
  pose proof (Z.div_mod (t + tz) msPerDay). unfold msPerDay in *. lia.
Qed.

(** Local midnights compare as their days do. *)
Lemma startOfDay_lt a b : startOfDay tz a < startOfDay tz b <-> localDay tz a < localDay tz b.
Proof. rewrite !startOfDay_split. unfold msPerDay. lia. Qed.

Lemma startOfDay_le a b : startOfDay tz a <= startOfDay tz b <-> localDay tz a <= localDay tz b.
Proof. rewrite !startOfDay_split. unfold msPerDay. lia. Qed.

Lemma startOfDay_eq a b : startOfDay tz a = startOfDay tz b <-> localDay tz a = localDay tz b.
Proof. rewrite !startOfDay_split. unfold msPerDay. lia. Qed.

Lemma startOfDay_bounds t : startOfDay tz t <= t < startOfDay tz t + msPerDay.
Proof.
  unfold startOfDay, timeOfDay.
  pose proof (Z.mod_pos_bound (t + tz) msPerDay msPerDay_pos). lia.
Qed.

End LocalTime.

Lemma pad_succ_nonempty w n : pad (S w) n <> EmptyString.
Proof. simpl. destruct (pad w (n / 10)); discriminate. Qed.

Lemma year_string_nonempty y : year_string y <> EmptyString.
Proof.
  unfold year_string.
  destruct ((0 <=? y) && (y <=? 9999)); [apply pad_succ_nonempty|].
  destruct (y <? 0); discriminate.
Qed.

Lemma toISOString_nonempty t : toISOString t <> EmptyString.
Proof.
  unfold toISOString. destruct (civil_from_days (t / msPerDay)) as [[y m] d].
  pose proof (year_string_nonempty y) as Hy.
  destruct (year_string y); [congruence | discriminate].
Qed.

Lemma truthy_toISOString t : truthy (Some (toISOString t)) = true.
Proof.
  unfold truthy. destruct (String.eqb_spec (toISOString t) EmptyString); [|reflexivity].
  exfalso. eapply toISOString_nonempty; eauto.
Qed.


Example toISOString_sample :
  toISOString 1735812000000 = "2025-01-02T10:00:00.000Z"%string
  /\ toISOString (-1) = "1969-12-31T23:59:59.999Z"%string.
Proof. split; vm_compute; reflexivity. Qed.

Example iso_parse_sample :
  iso_parse "2025-01-02T10:00:00.000Z" = Some 1735812000000
  /\ iso_parse "2025-02-30T10:00:00.000Z" = None
  /\ iso_parse "0" = None
  /\ iso_parse EmptyString = None.
Proof. repeat split; vm_compute; reflexivity. Qed.

End JSFacts.

(** ** The review scheduler *)

Module SchedulerProps.
Import JS JSFacts.

(** The clamped index always hits the table. *)
Lemma array_get_clamped (reviewCount : Z) :
  0 <= reviewCount ->
  array_get [1; 3; 7; 14; 30; 90] (Z.min reviewCount 5)
  = Some (nth (Z.to_nat (Z.min reviewCount 5)) spec_table 0).
Proof.
  intros Hrc.
  assert (Hcases : Z.min reviewCount 5 = 0 \/ Z.min reviewCount 5 = 1
                   \/ Z.min reviewCount 5 = 2 \/ Z.min reviewCount 5 = 3
                   \/ Z.min reviewCount 5 = 4 \/ Z.min reviewCount 5 = 5) by lia.
  destruct Hcases as [E|[E|[E|[E|[E|E]]]]]; rewrite E; reflexivity.
Qed.

Lemma backend_interval (tz now reviewCount : Z) (difficulty : Difficulty) :
  0 <= reviewCount \/ difficulty = hard ->
  SpacedRepetitionService.calculateNextReview tz now reviewCount difficulty
  = Some (startOfDay tz (addDays now (spec_interval reviewCount difficulty))).
Proof.
  intros Hrc. unfold SpacedRepetitionService.calculateNextReview.
  change (Z.of_nat (length SpacedRepetitionService.intervals) - 1) with 5.
  unfold SpacedRepetitionService.intervals.
  destruct (decide (difficulty = hard)) as [-> | NE]; [reflexivity|].
  destruct Hrc as [Hrc | ->]; [|contradiction].
  rewrite (array_get_clamped _ Hrc).
  destruct difficulty; [reflexivity | reflexivity | contradiction].
Qed.

Lemma frontend_interval (now reviewCount : Z) (difficulty : Difficulty) :
  0 <= reviewCount \/ difficulty = hard ->
  Frontend.calculateNextReview now reviewCount difficulty
  = Some (addDays now (spec_interval reviewCount difficulty)).
Proof.
  intros Hrc. unfold Frontend.calculateNextReview.
  change (Z.of_nat (length [1; 3; 7; 14; 30; 90]) - 1) with 5. cbv zeta.
  destruct (decide (difficulty = hard)) as [-> | NE]; [reflexivity|].
  destruct Hrc as [Hrc | ->]; [|contradiction].
  rewrite (array_get_clamped _ Hrc).
  destruct difficulty; [reflexivity | reflexivity | contradiction].
Qed.

(** A negative count leaves the table, and the date is invalid. *)
Lemma backend_negative_count (tz now reviewCount : Z) (difficulty : Difficulty) :
  reviewCount < 0 -> difficulty <> hard ->
  SpacedRepetitionService.calculateNextReview tz now reviewCount difficulty = None.
Proof.
  intros Hrc Hd. unfold SpacedRepetitionService.calculateNextReview.
  destruct (decide (difficulty = hard)); [contradiction|].
  unfold array_get.
  destruct (Z.ltb_spec (Z.min reviewCount
              (Z.of_nat (length SpacedRepetitionService.intervals) - 1)) 0);
    [reflexivity | lia].
Qed.

(** C1, as the sources have it: for every non-negative [reviewCount] both
    versions of [calculateNextReview] move the current date by
    [table[min reviewCount 5]] days for [easy] and [medium]; for [hard] both
    move it by one day whatever [reviewCount] is; the backend's result is
    local midnight of that day, the frontend's keeps the time of day of the
    current instant. *)
Theorem calculateNextReview_interval (tz now reviewCount : Z) (difficulty : Difficulty) :
  0 <= reviewCount \/ difficulty = hard ->
  (exists t,
      SpacedRepetitionService.calculateNextReview tz now reviewCount difficulty = Some t
      /\ localDay tz t = localDay tz now + spec_interval reviewCount difficulty
      /\ timeOfDay tz t = 0)
  /\ (exists t,
      Frontend.calculateNextReview now reviewCount difficulty = Some t
      /\ localDay tz t = localDay tz now + spec_interval reviewCount difficulty
      /\ timeOfDay tz t = timeOfDay tz now)
  /\ spec_interval reviewCount hard = 1.
Proof.
  intros Hrc. split; [|split; [|reflexivity]].
  - eexists. split; [apply backend_interval; exact Hrc|]. split.
    + rewrite localDay_startOfDay. apply localDay_addDays.
    + apply timeOfDay_startOfDay.
  - eexists. split; [apply frontend_interval; exact Hrc|]. split.
    + apply localDay_addDays.
    + apply timeOfDay_addDays.
Qed.

(** The instant 2025-01-02T10:00:00.000Z, read in a zone one hour ahead of
    UTC, after seven reviews rated [medium]. *)
Lemma calculateNextReview_interval_witness :
  (exists t,
      SpacedRepetitionService.calculateNextReview 3600000 1735812000000 7 medium = Some t
      /\ localDay 3600000 t = localDay 3600000 1735812000000 + spec_interval 7 medium
      /\ timeOfDay 3600000 t = 0)
  /\ (exists t,
      Frontend.calculateNextReview 1735812000000 7 medium = Some t
      /\ localDay 3600000 t = localDay 3600000 1735812000000 + spec_interval 7 medium
      /\ timeOfDay 3600000 t = timeOfDay 3600000 1735812000000)
  /\ spec_interval 7 hard = 1.
Proof.
  apply (calculateNextReview_interval 3600000 1735812000000 7 medium).
  left. lia.
Defined.

Example spec_interval_values :
  map (fun n => spec_interval n easy) [0; 1; 2; 3; 4; 5; 6; 100]
  = [1; 3; 7; 14; 30; 90; 90; 90].
Proof. reflexivity. Qed.

(** C1 as stated fails on the frontend's [calculateNextReview]: called at
    10:00 it returns 10:00 of the next day, not midnight. *)
Lemma frontend_calculateNextReview_keeps_time :
  exists t,
    Frontend.calculateNextReview 1735812000000 0 easy = Some t
    /\ toISOString t = "2025-01-03T10:00:00.000Z"%string
    /\ timeOfDay 0 t <> 0.
Proof.
  exists 1735898400000. split; [reflexivity|]. split; [vm_compute; reflexivity|].
  vm_compute. discriminate.
Qed.

End SchedulerProps.

(** ** The question store *)

Module StoreProps.
Import JS JSFacts QuestionService.

Lemma findById_Some (i : Z) (qs : list Question) (idx : nat) (q : Question) :
  findById i qs = Some (idx, q) ->
  qs !! idx = Some q /\ id q = i.
Proof.
  unfold findById. intros H. apply list_find_Some in H as (Hl & Hid & _). auto.
Qed.

Lemma findById_elem_of (i : Z) (qs : list Question) (idx : nat) (q : Question) :
  findById i qs = Some (idx, q) -> q ∈ qs.
Proof.
  intros H. apply findById_Some in H as [Hl _].
  apply list_elem_of_lookup. eauto.
Qed.

Lemma findById_None (i : Z) (qs : list Question) :
  findById i qs = None <-> forall q, q ∈ qs -> id q <> i.
Proof.
  unfold findById. rewrite list_find_None, Forall_forall. reflexivity.
Qed.

(** Writing a record with the same id at the index where the id was found
    leaves it the record found for that id. *)
Lemma findById_insert (i : Z) (qs : list Question) (idx : nat) (q q' : Question) :
  findById i qs = Some (idx, q) -> id q' = i ->
  findById i (<[idx := q']> qs) = Some (idx, q').
Proof.
  unfold findById. intros H Hid.
  apply list_find_Some in H as (Hl & _ & Hleast).
  apply list_find_Some. split; [|split; [exact Hid|]].
  - apply list_lookup_insert_eq. eapply lookup_lt_Some; eauto.
  - intros j y Hj Hlt. rewrite list_lookup_insert_ne in Hj by lia. eauto.
Qed.

Lemma ids_insert (qs : list Question) (idx : nat) (q q' : Question) :
  qs !! idx = Some q -> id q' = id q ->
  id <$> <[idx := q']> qs = id <$> qs.
Proof.
  intros Hl Hid. rewrite list_fmap_insert, Hid.
  apply list_insert_id. rewrite list_lookup_fmap, Hl. reflexivity.
Qed.

(** C2: on a record that is in the store (with its review count in the
    declared range, non-negative) [reviewQuestion] with rating [d] succeeds;
    the stored and returned record has status [needs_attention] for [hard]
    and [under_review] otherwise, [lastReviewed] the current instant,
    [reviewCount] one more, [d] appended to [difficultyHistory], and
    [nextReview] the date [calculateNextReview] gives for the count before
    the increment. *)
Theorem reviewQuestion_transition (tz i : Z) (reviewData : ReviewRequest)
    (now schedNow : Z) (s : Store) (idx : nat) (q : Question) :
  findById i (questions s) = Some (idx, q) ->
  0 <= reviewCount q ->
  exists q' s' t,
    reviewQuestion tz i reviewData now schedNow s = (Ok q', s')
    /\ getQuestionById i s' = Some q'
    /\ questions s' = <[idx := q']> (questions s)
    /\ status q' = (if decide (r_difficulty reviewData = hard)
                    then needs_attention else under_review)
    /\ lastReviewed q' = Some (toISOString now)
    /\ reviewCount q' = reviewCount q + 1
    /\ difficultyHistory q' = difficultyHistory q ++ [r_difficulty reviewData]
    /\ SpacedRepetitionService.calculateNextReview
         tz schedNow (reviewCount q) (r_difficulty reviewData) = Some t
    /\ nextReview q' = Some (toISOString t).
Proof.
  intros Hfind Hrc. unfold reviewQuestion. rewrite Hfind.
  rewrite (SchedulerProps.backend_interval _ _ _ _ (or_introl Hrc)).
  eexists _, _, _. split; [reflexivity|].
  split.
  { unfold getQuestionById. cbn [questions saveQuestions].
    erewrite findById_insert; [reflexivity | exact Hfind |].
    cbn [id]. apply findById_Some in Hfind. tauto. }
  repeat split; reflexivity.
Qed.

(** Outside the declared range of [reviewCount] the date is invalid and
    [toISOString] throws, after [lastReviewed] has been assigned. *)
Lemma reviewQuestion_negative_count (tz i : Z) (reviewData : ReviewRequest)
    (now schedNow : Z) (s : Store) (idx : nat) (q : Question) :
  findById i (questions s) = Some (idx, q) ->
  reviewCount q < 0 -> r_difficulty reviewData <> hard ->
  exists s', reviewQuestion tz i reviewData now schedNow s = (Throw RangeError, s')
             /\ csvFile s' = csvFile s.
Proof.
  intros Hfind Hrc Hd. unfold reviewQuestion. rewrite Hfind.
  rewrite (SchedulerProps.backend_negative_count _ _ _ _ Hrc Hd).
  eexists. split; reflexivity.
Qed.

(** C9: on a record that is in the store, a second [resetQuestion] returns
    the same record and leaves the same store as the first; that record has
    status [not_started], no dates, count 0 and an empty history, and keeps
    id, name, category, url, difficulty tag and notes. *)
Theorem resetQuestion_idempotent (i : Z) (s : Store) (idx : nat) (q : Question) :
  findById i (questions s) = Some (idx, q) ->
  exists q' s',
    resetQuestion i s = (Ok q', s')
    /\ resetQuestion i s' = (Ok q', s')
    /\ getQuestionById i s' = Some q'
    /\ q' = {| id := id q; name := name q; category := category q;
               leetcodeUrl := leetcodeUrl q;
               leetcodeDifficulty := leetcodeDifficulty q;
               status := not_started;
               firstCompleted := None; lastReviewed := None; nextReview := None;
               reviewCount := 0; difficultyHistory := [];
               notes := notes q |}.
Proof.
  intros Hfind.
  pose proof (findById_Some _ _ _ _ Hfind) as [_ Hid].
  unfold resetQuestion at 1. rewrite Hfind.
  eexists _, _. split; [reflexivity|].
  match goal with
  | |- context [<[idx := ?r]> (questions s)] =>
      assert (Hfind' : findById i (<[idx := r]> (questions s)) = Some (idx, r))
        by (eapply findById_insert; [exact Hfind | exact Hid])
  end.
  split; [|split; [|reflexivity]].
  - unfold resetQuestion. cbn [questions saveQuestions nextId csvFile].
    rewrite Hfind'. cbn. rewrite list_insert_insert_eq. reflexivity.
  - unfold getQuestionById. cbn [questions saveQuestions]. rewrite Hfind'.
    reflexivity.
Qed.

(** C10: on a record that is in the store, whatever its status and
    history, [completeQuestion] succeeds; the stored and returned record
    has [reviewCount] 1 and the single given rating as its history, and a
    [firstCompleted] that was set (a non-empty string) is kept. *)
Theorem completeQuestion_overwrites (tz i : Z) (reviewData : ReviewRequest)
    (now schedNow : Z) (s : Store) (idx : nat) (q : Question) :
  findById i (questions s) = Some (idx, q) ->
  exists q' s',
    completeQuestion tz i reviewData now schedNow s = (Ok q', s')
    /\ getQuestionById i s' = Some q'
    /\ questions s' = <[idx := q']> (questions s)
    /\ status q' = under_review
    /\ reviewCount q' = 1
    /\ difficultyHistory q' = [r_difficulty reviewData]
    /\ (forall fc, firstCompleted q = Some fc -> fc <> EmptyString ->
                   firstCompleted q' = Some fc)
    /\ (truthy (firstCompleted q) = false ->
        firstCompleted q' = Some (toISOString now)).
Proof.
  intros Hfind.
  pose proof (findById_Some _ _ _ _ Hfind) as [_ Hid].
  unfold completeQuestion. rewrite Hfind.
  rewrite (SchedulerProps.backend_interval tz schedNow 0 _ (or_introl (Z.le_refl 0))).
  eexists _, _. split; [reflexivity|].
  split.
  { unfold getQuestionById. cbn [questions saveQuestions].
    erewrite findById_insert; [reflexivity | exact Hfind | exact Hid]. }
  repeat split; cbn [firstCompleted].
  - intros fc Hfc Hne. rewrite Hfc. cbn [or_else].
    destruct (String.eqb_spec fc EmptyString); [contradiction | reflexivity].
  - unfold truthy, or_else. destruct (firstCompleted q) as [fc|]; [|reflexivity].
    destruct (String.eqb fc EmptyString); [reflexivity | discriminate].
Qed.

Example store_ab_value :
  Samples.store_ab
  = {| questions := [Samples.question_a; Samples.question_b];
       nextId := 3;
       csvFile := [Samples.question_a; Samples.question_b] |}.
Proof. vm_compute. reflexivity. Qed.

Example store_completed_value :
  questions Samples.store_completed = [Samples.completed_a; Samples.question_b].
Proof. vm_compute. reflexivity. Qed.

(** The scenario of the specification: after [complete] with [easy], a
    review rated [hard] one day later. *)
Lemma reviewQuestion_transition_witness :
  exists q' s' t,
    reviewQuestion 0 1 (Samples.rate hard) (Samples.jan2_10h + msPerDay)
      (Samples.jan2_10h + msPerDay) Samples.store_completed = (Ok q', s')
    /\ getQuestionById 1 s' = Some q'
    /\ questions s' = <[0%nat := q']> (questions Samples.store_completed)
    /\ status q' = (if decide (r_difficulty (Samples.rate hard) = hard)
                    then needs_attention else under_review)
    /\ lastReviewed q' = Some (toISOString (Samples.jan2_10h + msPerDay))
    /\ reviewCount q' = reviewCount Samples.completed_a + 1
    /\ difficultyHistory q'
       = difficultyHistory Samples.completed_a ++ [r_difficulty (Samples.rate hard)]
    /\ SpacedRepetitionService.calculateNextReview
         0 (Samples.jan2_10h + msPerDay) (reviewCount Samples.completed_a)
         (r_difficulty (Samples.rate hard)) = Some t
    /\ nextReview q' = Some (toISOString t).
Proof.
  apply (reviewQuestion_transition 0 1 (Samples.rate hard)
           (Samples.jan2_10h + msPerDay) (Samples.jan2_10h + msPerDay)
           Samples.store_completed 0%nat Samples.completed_a).
  - vm_compute. reflexivity.
  - vm_compute. discriminate.
Defined.

Lemma resetQuestion_idempotent_witness :
  exists q' s',
    resetQuestion 1 Samples.store_completed = (Ok q', s')
    /\ resetQuestion 1 s' = (Ok q', s')
    /\ getQuestionById 1 s' = Some q'
    /\ q' = {| id := id Samples.completed_a; name := name Samples.completed_a;
               category := category Samples.completed_a;
               leetcodeUrl := leetcodeUrl Samples.completed_a;
               leetcodeDifficulty := leetcodeDifficulty Samples.completed_a;
               status := not_started;
               firstCompleted := None; lastReviewed := None; nextReview := None;
               reviewCount := 0; difficultyHistory := [];
               notes := notes Samples.completed_a |}.
Proof.
  apply (resetQuestion_idempotent 1 Samples.store_completed 0%nat Samples.completed_a).
  vm_compute. reflexivity.
Defined.

(** Completing again, a day later and rated [hard], a record that is
    already under review. *)
Lemma completeQuestion_overwrites_witness :
  exists q' s',
    completeQuestion 0 1 (Samples.rate hard) (Samples.jan2_10h + msPerDay)
      (Samples.jan2_10h + msPerDay) Samples.store_completed = (Ok q', s')
    /\ getQuestionById 1 s' = Some q'
    /\ questions s' = <[0%nat := q']> (questions Samples.store_completed)
    /\ status q' = under_review
    /\ reviewCount q' = 1
    /\ difficultyHistory q' = [r_difficulty (Samples.rate hard)]
    /\ (forall fc, firstCompleted Samples.completed_a = Some fc -> fc <> EmptyString ->
                   firstCompleted q' = Some fc)
    /\ (truthy (firstCompleted Samples.completed_a) = false ->
        firstCompleted q' = Some (toISOString (Samples.jan2_10h + msPerDay))).
Proof.
  apply (completeQuestion_overwrites 0 1 (Samples.rate hard)
           (Samples.jan2_10h + msPerDay) (Samples.jan2_10h + msPerDay)
           Samples.store_completed 0%nat Samples.completed_a).
  vm_compute. reflexivity.
Defined.

(** *** What one operation does to the records and to the ids *)

Import Invariants.

Lemma elem_of_insert_inv {A} (l : list A) (idx : nat) (x y : A) :
  y ∈ <[idx := x]> l -> y = x \/ y ∈ l.
Proof.
  intros H. apply list_elem_of_lookup in H as [j Hj].
  apply list_lookup_insert_Some in Hj as [(_ & -> & _) | [_ Hj]]; [left; reflexivity|].
  right. apply list_elem_of_lookup. eauto.
Qed.

Create HintDb store discriminated.
#[local] Hint Resolve findById_elem_of : store.
#[local] Hint Constructors record_after : store.

(** Case analysis on the record found for an id. *)
Ltac find_cases i s :=
  let idx := fresh "idx" in
  let old := fresh "old" in
  let Hfind := fresh "Hfind" in
  let Hlook := fresh "Hlook" in
  let Hid := fresh "Hid" in
  destruct (findById i (questions s)) as [[idx old]|] eqn:Hfind;
  [pose proof (findById_Some _ _ _ _ Hfind) as [Hlook Hid] | ].

Lemma step_records (tz : Z) (s : Store) (op : Op) (q' : Question) :
  q' ∈ questions (step tz s op) ->
  q' ∈ questions s
  \/ (exists q, q ∈ questions s /\ record_after q q')
  \/ fresh_record (nextId s) q'.
Proof.
  destruct op as [data | i data | i | i rd now sn | i rd now sn | i]; cbn [step].
  - unfold createQuestion.
    destruct (list_find _ (questions s)); [auto|].
    cbn [snd questions saveQuestions]. rewrite elem_of_app, list_elem_of_singleton.
    intros [H | ->]; [auto|]. right; right. repeat split.
  - unfold updateQuestion. find_cases i s; [|auto].
    destruct (if truthy (u_leetcodeUrl data) then _ else None); [auto|].
    cbn [snd questions saveQuestions]. intros [-> | H]%elem_of_insert_inv; [|auto].
    right; left. exists old. split; [eauto with store|].
    apply after_same; reflexivity.
  - unfold deleteQuestion. find_cases i s; [|auto].
    cbn [snd questions saveQuestions]. intros H%list_elem_of_delete_inv. auto.
  - unfold completeQuestion. find_cases i s; [|auto].
    destruct (SpacedRepetitionService.calculateNextReview _ _ _ _) as [t|]; [|auto].
    cbn [snd questions saveQuestions]. intros [-> | H]%elem_of_insert_inv; [|auto].
    right; left. exists old. split; [eauto with store|].
    eapply after_complete; reflexivity.
  - unfold reviewQuestion. find_cases i s; [|auto].
    destruct (SpacedRepetitionService.calculateNextReview _ _ _ _) as [t|];
      cbn [snd questions saveQuestions]; (intros [-> | H]%elem_of_insert_inv; [|auto]);
      right; left; exists old; (split; [eauto with store|]).
    + eapply after_review; try reflexivity.
      unfold in_review. cbn [status]. destruct (decide _); auto.
    + apply after_same; reflexivity.
  - unfold resetQuestion. find_cases i s; [|auto].
    cbn [snd questions saveQuestions]. intros [-> | H]%elem_of_insert_inv; [|auto].
    right; left. exists old. split; [eauto with store|].
    apply after_reset; reflexivity.
Qed.

(** A property of records that creation establishes and every transition
    keeps holds throughout a run. *)
Section RecordInvariant.
Variable P : Question -> Prop.
Hypothesis P_fresh : forall n q, fresh_record n q -> P q.
Hypothesis P_after : forall q q', record_after q q' -> P q -> P q'.

Lemma step_record_invariant (tz : Z) (s : Store) (op : Op) :
  (forall q, q ∈ questions s -> P q) ->
  forall q, q ∈ questions (step tz s op) -> P q.
Proof.
  intros Hs q' Hq'.
  destruct (step_records _ _ _ _ Hq') as [H | [(q & Hq & Hafter) | H]]; eauto.
Qed.

Lemma run_record_invariant (tz : Z) (ops : list Op) (s : Store) :
  (forall q, q ∈ questions s -> P q) ->
  forall q, q ∈ questions (run tz ops s) -> P q.
Proof.
  revert s. induction ops as [|op ops IH]; intros s Hs; [exact Hs|].
  cbn [run foldl]. apply IH. apply step_record_invariant. exact Hs.
Qed.

End RecordInvariant.

(** C5: in a store brought up from the CSV file and taken through any
    sequence of operations, every record the store created itself (its id
    is not one of the file's) has [reviewCount] equal to the length of its
    [difficultyHistory]. *)
Theorem reviewCount_matches_history (tz : Z) (file : list Question) (ops : list Op)
    (q : Question) :
  q ∈ questions (run tz ops (initialize file)) ->
  id q ∉ (id <$> file) ->
  reviewCount q = Z.of_nat (length (difficultyHistory q)).
Proof.
  intros Hq Hnew.
  enough (H : id q ∈ (id <$> file) \/ history_matches q) by (destruct H; tauto).
  clear Hnew. revert q Hq.
  apply run_record_invariant.
  - intros n q (_ & _ & _ & _ & _ & Hrc & Hh). right.
    unfold history_matches. rewrite Hrc, Hh. reflexivity.
  - intros q q' Hafter [Hfile | Hm].
    + left. destruct Hafter as [Hid | ? ? Hid | ? ? Hid | Hid]; rewrite Hid; exact Hfile.
    + right. unfold history_matches in *.
      destruct Hafter as [_ _ _ Hrc Hh | d t _ _ _ Hrc Hh | d t _ _ _ Hrc Hh | _ _ _ Hrc Hh];
        rewrite Hrc, Hh; [exact Hm | reflexivity | | reflexivity].
      rewrite length_app. cbn [length]. lia.
  - intros q Hq. left. apply list_elem_of_fmap_2. exact Hq.
Qed.

Lemma reviewCount_matches_history_witness :
  reviewCount Samples.completed_a
  = Z.of_nat (length (difficultyHistory Samples.completed_a)).
Proof.
  apply (reviewCount_matches_history 0 []
           [OpCreate Samples.create_a; OpCreate Samples.create_b;
            OpComplete 1 (Samples.rate easy) Samples.jan2_10h Samples.jan2_10h]
           Samples.completed_a).
  - vm_compute. apply list_elem_of_here.
  - cbn. apply not_elem_of_nil.
Defined.

(** C6: in a store brought up from the CSV file and taken through any
    sequence of operations, every record the store created itself has
    [nextReview] set (present, and a non-empty string) exactly when its
    status is [under_review] or [needs_attention]. *)
Theorem nextReview_set_iff_in_review (tz : Z) (file : list Question) (ops : list Op)
    (q : Question) :
  q ∈ questions (run tz ops (initialize file)) ->
  id q ∉ (id <$> file) ->
  (truthy (nextReview q) = true <-> in_review q)
  /\ (nextReview q <> None <-> in_review q).
Proof.
  intros Hq Hnew.
  enough (H : id q ∈ (id <$> file)
              \/ (in_review q /\ truthy (nextReview q) = true)
              \/ (~ in_review q /\ nextReview q = None)).
  { destruct H as [H | [[Hin Ht] | [Hout Hn]]]; [tauto | |].
    - split; split; auto. intros _ E. rewrite E in Ht. discriminate.
    - rewrite Hn. cbn [truthy]. split; split; try tauto; discriminate. }
  clear Hnew. revert q Hq.
  apply run_record_invariant.
  - intros n q (_ & Hst & Hn & _). right; right. split; [|exact Hn].
    unfold in_review. rewrite Hst. intros [E|E]; discriminate.
  - intros q q' Hafter [Hfile | Hinv].
    + left. destruct Hafter as [Hid | ? ? Hid | ? ? Hid | Hid]; rewrite Hid; exact Hfile.
    + right.
      destruct Hafter as [_ Hst Hn _ _ | d t _ Hst Hn _ _ | d t _ Hst Hn _ _ | _ Hst Hn _ _].
      * unfold in_review in *. rewrite Hst, Hn. exact Hinv.
      * left. rewrite Hn. split; [left; exact Hst | apply truthy_toISOString].
      * left. rewrite Hn. split; [exact Hst | apply truthy_toISOString].
      * right. split; [|exact Hn]. unfold in_review. rewrite Hst.
        intros [E|E]; discriminate.
  - intros q Hq. left. apply list_elem_of_fmap_2. exact Hq.
Qed.

Lemma nextReview_set_iff_in_review_witness :
  (truthy (nextReview Samples.completed_a) = true <-> in_review Samples.completed_a)
  /\ (nextReview Samples.completed_a <> None <-> in_review Samples.completed_a).
Proof.
  apply (nextReview_set_iff_in_review 0 []
           [OpCreate Samples.create_a; OpCreate Samples.create_b;
            OpComplete 1 (Samples.rate easy) Samples.jan2_10h Samples.jan2_10h]
           Samples.completed_a).
  - vm_compute. apply list_elem_of_here.
  - cbn. apply not_elem_of_nil.
Defined.

(** *** Ids and the counter *)

Lemma step_ids (tz : Z) (s : Store) (op : Op) :
  (id <$> questions (step tz s op) = id <$> questions s
   /\ nextId (step tz s op) = nextId s)
  \/ (id <$> questions (step tz s op) = (id <$> questions s) ++ [nextId s]
      /\ nextId (step tz s op) = nextId s + 1)
  \/ (is_delete op = true
      /\ nextId (step tz s op) = nextId s
      /\ exists idx, id <$> questions (step tz s op) = delete idx (id <$> questions s)).
Proof.
  destruct op as [data | i data | i | i rd now sn | i rd now sn | i]; cbn [step].
  - unfold createQuestion.
    destruct (list_find _ (questions s)); [auto|].
    right; left. cbn [snd questions saveQuestions nextId].
    rewrite fmap_app. auto.
  - unfold updateQuestion. find_cases i s; [|auto].
    destruct (if truthy (u_leetcodeUrl data) then _ else None); [auto|].
    left. cbn [snd questions saveQuestions nextId].
    erewrite ids_insert; eauto.
  - unfold deleteQuestion. find_cases i s; [|auto].
    right; right. cbn [snd questions saveQuestions nextId is_delete].
    rewrite list_fmap_delete. eauto.
  - unfold completeQuestion. find_cases i s; [|auto].
    destruct (SpacedRepetitionService.calculateNextReview _ _ _ _) as [t|]; [|auto].
    left. cbn [snd questions saveQuestions nextId].
    erewrite ids_insert; eauto.
  - unfold reviewQuestion. find_cases i s; [|auto].
    destruct (SpacedRepetitionService.calculateNextReview _ _ _ _) as [t|];
      left; cbn [snd questions saveQuestions nextId];
      (erewrite ids_insert; eauto).
  - unfold resetQuestion. find_cases i s; [|auto].
    left. cbn [snd questions saveQuestions nextId].
    erewrite ids_insert; eauto.
Qed.

Lemma maxId_bound (qs : list Question) (n : Z) :
  maxId qs < n <-> 0 < n /\ forall q, q ∈ qs -> id q < n.
Proof.
  unfold maxId. induction qs as [|q qs IH]; cbn [fmap list_fmap foldr].
  - split; [intros H; split; [exact H | intros q Hq; inversion Hq] | tauto].
  - rewrite Z.max_lub_lt_iff, IH. split.
    + intros (Hq & Hn & Hqs). split; [exact Hn|].
      intros q0 [-> | H]%elem_of_cons; auto.
    + intros (Hn & Hqs). split; [|split; [exact Hn|]].
      * apply Hqs, list_elem_of_here.
      * intros q0 Hq0. apply Hqs, list_elem_of_further, Hq0.
Qed.

Lemma foldr_max_snoc (l : list Z) (n : Z) :
  foldr Z.max 0 (l ++ [n]) = Z.max (foldr Z.max 0 l) (Z.max n 0).
Proof. induction l as [|x l IH]; cbn [app foldr]; [|rewrite IH]; lia. Qed.

Lemma foldr_max_nonneg (l : list Z) : 0 <= foldr Z.max 0 l.
Proof. induction l as [|x l IH]; cbn [foldr]; lia. Qed.

Lemma initialize_counter (file : list Question) :
  counter_above_ids (initialize file).
Proof.
  assert (H : maxId file < maxId file + 1) by lia.
  apply maxId_bound in H as [Hpos Hall].
  split; [exact Hpos|]. cbn [initialize questions nextId].
  intros i (q & -> & Hq)%list_elem_of_fmap. auto.
Qed.

Lemma step_counter (tz : Z) (s : Store) (op : Op) :
  counter_above_ids s -> counter_above_ids (step tz s op).
Proof.
  intros [Hpos Hall]. unfold counter_above_ids.
  destruct (step_ids tz s op) as [[Hids Hn] | [[Hids Hn] | (_ & Hn & idx & Hids)]];
    rewrite Hids, Hn.
  - auto.
  - split; [lia|]. intros i [H | ->%list_elem_of_singleton]%elem_of_app; [|lia].
    specialize (Hall i H). lia.
  - split; [exact Hpos|]. intros i H%list_elem_of_delete_inv. auto.
Qed.

Lemma step_counter_mono (tz : Z) (s : Store) (op : Op) :
  nextId s <= nextId (step tz s op).
Proof.
  destruct (step_ids tz s op) as [[_ Hn] | [[_ Hn] | (_ & Hn & _)]]; lia.
Qed.

Lemma step_NoDup (tz : Z) (s : Store) (op : Op) :
  counter_above_ids s ->
  NoDup (id <$> questions s) -> NoDup (id <$> questions (step tz s op)).
Proof.
  intros [Hpos Hall] Hnd.
  destruct (step_ids tz s op) as [[Hids _] | [[Hids _] | (_ & _ & idx & Hids)]];
    rewrite Hids.
  - exact Hnd.
  - apply NoDup_app. split; [exact Hnd|]. split; [|apply NoDup_singleton].
    intros i Hi ->%list_elem_of_singleton. specialize (Hall _ Hi). lia.
  - eapply sublist_NoDup; [exact Hnd | apply sublist_delete].
Qed.

Lemma step_counter_exact (tz : Z) (s : Store) (op : Op) :
  is_delete op = false ->
  nextId s = maxId (questions s) + 1 ->
  nextId (step tz s op) = maxId (questions (step tz s op)) + 1.
Proof.
  intros Hop Hs. unfold maxId in *.
  destruct (step_ids tz s op) as [[Hids Hn] | [[Hids Hn] | (Hdel & _)]];
    [rewrite Hids, Hn; exact Hs | | congruence].
  rewrite Hids, Hn, foldr_max_snoc.
  pose proof (foldr_max_nonneg (id <$> questions s)). lia.
Qed.

Lemma run_app_step (tz : Z) (ops : list Op) (op : Op) (s : Store) :
  run tz (ops ++ [op]) s = step tz (run tz ops s) op.
Proof. unfold run. rewrite foldl_app. reflexivity. Qed.

Lemma run_counter (tz : Z) (ops : list Op) (file : list Question) :
  counter_above_ids (run tz ops (initialize file))
  /\ maxId file + 1 <= nextId (run tz ops (initialize file))
  /\ (NoDup (id <$> file) -> NoDup (id <$> questions (run tz ops (initialize file))))
  /\ (forallb (fun op => negb (is_delete op)) ops = true ->
      nextId (run tz ops (initialize file))
      = maxId (questions (run tz ops (initialize file))) + 1).
Proof.
  induction ops as [|op ops IH] using rev_ind.
  - cbn [run foldl]. split; [apply initialize_counter|].
    cbn [initialize nextId questions]. split; [lia|]. split; auto.
  - rewrite run_app_step. destruct IH as (Hc & Hlow & Hnd & Hex).
    split; [apply step_counter, Hc|].
    split; [pose proof (step_counter_mono tz (run tz ops (initialize file)) op); lia|].
    split; [intros H; apply step_NoDup; auto|].
    rewrite forallb_app. cbn [forallb]. intros [Hops [Hop _]%andb_prop]%andb_prop.
    apply step_counter_exact; [|auto].
    destruct (is_delete op); [discriminate | reflexivity].
Qed.

(** The counter of the source is the one of the model on a file of records
    of the [Question] type, and NaN as soon as one loaded id is NaN. *)
Lemma loaded_counter_typed (loaded : list CsvService.LoadedQuestion) (file : list Question) :
  mapM CsvService.as_question loaded = Some file ->
  CsvService.loaded_counter loaded = Some (nextId (initialize file)).
Proof.
  intros H%mapM_Some_1. unfold CsvService.loaded_counter. cbn [initialize nextId].
  enough (E : Math_max (map CsvService.l_id loaded) 0 = Some (maxId file)) by (rewrite E; reflexivity).
  unfold maxId. induction H as [|l q loaded file Hq _ IH]; [reflexivity|].
  cbn [map Math_max foldr fmap list_fmap]. fold (Math_max (map CsvService.l_id loaded) 0).
  rewrite IH. unfold CsvService.as_question in Hq.
  destruct (CsvService.l_id l) as [n|]; [|discriminate].
  destruct (CsvService.status_of_string _); [|discriminate].
  destruct (mapM CsvService.difficulty_of_string _); [|discriminate].
  injection Hq as <-. reflexivity.
Qed.

Lemma loaded_counter_NaN (loaded : list CsvService.LoadedQuestion) :
  None ∈ map CsvService.l_id loaded -> CsvService.loaded_counter loaded = None.
Proof.
  unfold CsvService.loaded_counter. intros H.
  enough (E : Math_max (map CsvService.l_id loaded) 0 = None) by (rewrite E; reflexivity).
  induction loaded as [|l loaded IH]; [inversion H|].
  cbn [map Math_max foldr] in *. fold (Math_max (map CsvService.l_id loaded) 0).
  apply elem_of_cons in H as [<- | H]; [reflexivity|].
  rewrite (IH H). destruct (CsvService.l_id l); reflexivity.
Qed.

Lemma run_counter_mono (tz : Z) (ops : list Op) (s : Store) :
  nextId s <= nextId (run tz ops s).
Proof.
  revert s. induction ops as [|op ops IH]; intros s; [reflexivity|].
  cbn [run foldl]. etransitivity; [apply (step_counter_mono tz s op) | apply IH].
Qed.

Lemma run_app (tz : Z) (ops1 ops2 : list Op) (s : Store) :
  run tz (ops1 ++ ops2) s = run tz ops2 (run tz ops1 s).
Proof. unfold run. apply foldl_app. Qed.

Lemma deleteQuestion_counter (i : Z) (s : Store) :
  nextId (snd (deleteQuestion i s)) = nextId s.
Proof. unfold deleteQuestion. destruct (findById i (questions s)) as [[? ?]|]; reflexivity. Qed.

(** C8, as the source has it.  Take a file whose rows all give records of
    the [Question] type, so that every id read is a number, and any
    sequence of operations after [initialize], with no reload in between.
    The counter starts at [Math.max(...ids, 0) + 1], a number; no operation
    lowers it and a delete leaves it as it is.  A successful create gives
    the new record the value of the counter and advances the counter by
    one, so the new id is positive, larger than every id in the store (so
    unique in it), and larger than every id that was in the file or in the
    store at any earlier point of the run: no id is used twice.  It is
    [max(existing ids) + 1], or 1 in an empty store, as long as no delete
    was among the operations. *)
Theorem createQuestion_assigns_counter (tz : Z) (rows : list CsvService.QuestionCSVRow)
    (file : list Question) (ops : list Op) (data : CreateQuestionRequest)
    (q : Question) (s' : Store) :
  CsvService.load rows = Some file ->
  createQuestion data (run tz ops (initialize file)) = (Ok q, s') ->
  CsvService.loaded_counter (CsvService.readQuestions rows)
  = Some (nextId (initialize file))
  /\ nextId (initialize file) = maxId file + 1
  /\ id q = nextId (run tz ops (initialize file))
  /\ nextId s' = id q + 1
  /\ questions s' = questions (run tz ops (initialize file)) ++ [q]
  /\ 1 <= id q
  /\ (forall q0, q0 ∈ questions (run tz ops (initialize file)) -> id q0 < id q)
  /\ (id q ∉ (id <$> file))
  /\ (forall ops1 ops2 q0,
        ops = ops1 ++ ops2 ->
        q0 ∈ questions (run tz ops1 (initialize file)) -> id q0 < id q)
  /\ (forall ops1 ops2,
        ops = ops1 ++ ops2 ->
        nextId (run tz ops1 (initialize file)) <= nextId (run tz ops (initialize file)))
  /\ (forall i s, nextId (snd (deleteQuestion i s)) = nextId s)
  /\ (NoDup (id <$> file) -> NoDup (id <$> questions s'))
  /\ (forallb (fun op => negb (is_delete op)) ops = true ->
      id q = maxId (questions (run tz ops (initialize file))) + 1).
Proof.
  intros Hload Hcreate.
  split; [apply loaded_counter_typed, Hload|]. split; [reflexivity|].
  assert (Hearlier : forall ops1 ops2 q0,
             ops = ops1 ++ ops2 ->
             q0 ∈ questions (run tz ops1 (initialize file)) ->
             id q0 < nextId (run tz ops (initialize file))).
  { intros ops1 ops2 q0 -> Hq0.
    destruct (run_counter tz ops1 file) as ([_ Hall] & _).
    specialize (Hall (id q0) (list_elem_of_fmap_2 id _ _ Hq0)).
    pose proof (run_counter_mono tz ops2 (run tz ops1 (initialize file))) as Hmono.
    rewrite run_app. lia. }
  assert (Hmono : forall ops1 ops2,
             ops = ops1 ++ ops2 ->
             nextId (run tz ops1 (initialize file))
             <= nextId (run tz ops (initialize file))).
  { intros ops1 ops2 ->. rewrite run_app. apply run_counter_mono. }
  revert Hcreate.
  pose proof (run_counter tz ops file) as ([Hpos Hall] & Hlow & Hnd & Hex).
  set (s := run tz ops (initialize file)) in *. clearbody s.
  unfold createQuestion.
  destruct (list_find _ (questions s)); [discriminate|].
  intros [= <- <-]. cbn [id nextId questions saveQuestions].
  split; [reflexivity|]. split; [reflexivity|]. split; [reflexivity|].
  split; [lia|].
  split; [intros q0 Hq0; apply Hall, list_elem_of_fmap_2, Hq0|].
  split.
  { intros (q0 & Hid & Hq0)%list_elem_of_fmap.
    assert (H : maxId file < maxId file + 1) by lia.
    apply maxId_bound in H as [_ H]. specialize (H _ Hq0).
    clear - Hid H Hlow. lia. }
  split; [exact Hearlier|]. split; [exact Hmono|].
  split; [apply deleteQuestion_counter|].
  split; [|exact Hex].
  intros H. rewrite fmap_app. apply NoDup_app.
  split; [auto|]. split; [|apply NoDup_singleton].
  intros i Hi ->%list_elem_of_singleton. specialize (Hall _ Hi).
  cbn in Hall. clear - Hall. lia.
Qed.

Example createQuestion_third :
  createQuestion Samples.create_c Samples.store_ab
  = (Ok {| id := 3; name := "3Sum"; category := "Two Pointers";
           leetcodeUrl := "https://leetcode.com/problems/3sum/";
           leetcodeDifficulty := Some Medium; status := not_started;
           firstCompleted := None; lastReviewed := None; nextReview := None;
           reviewCount := 0; difficultyHistory := []; notes := EmptyString |},
     snd (createQuestion Samples.create_c Samples.store_ab)).
Proof. vm_compute. reflexivity. Qed.

Lemma createQuestion_assigns_counter_witness :
  let rows := [MoreSamples.row_seven] in
  let file := [MoreSamples.question_seven] in
  let ops := [OpCreate Samples.create_a; OpDelete 8] in
  let q := Samples.scheduled_c 9 in
  let s' := snd (createQuestion Samples.create_c (run 0 ops (initialize file))) in
  CsvService.loaded_counter (CsvService.readQuestions rows)
  = Some (nextId (initialize file))
  /\ nextId (initialize file) = maxId file + 1
  /\ id q = nextId (run 0 ops (initialize file))
  /\ nextId s' = id q + 1
  /\ questions s' = questions (run 0 ops (initialize file)) ++ [q]
  /\ 1 <= id q
  /\ (forall q0, q0 ∈ questions (run 0 ops (initialize file)) -> id q0 < id q)
  /\ (id q ∉ (id <$> file))
  /\ (forall ops1 ops2 q0,
        ops = ops1 ++ ops2 ->
        q0 ∈ questions (run 0 ops1 (initialize file)) -> id q0 < id q)
  /\ (forall ops1 ops2,
        ops = ops1 ++ ops2 ->
        nextId (run 0 ops1 (initialize file)) <= nextId (run 0 ops (initialize file)))
  /\ (forall i s, nextId (snd (deleteQuestion i s)) = nextId s)
  /\ (NoDup (id <$> file) -> NoDup (id <$> questions s'))
  /\ (forallb (fun op => negb (is_delete op)) ops = true ->
      id q = maxId (questions (run 0 ops (initialize file))) + 1).
Proof.
  intros rows file ops q s'.
  apply (createQuestion_assigns_counter 0 rows file ops Samples.create_c q s').
  - reflexivity.
  - vm_compute. reflexivity.
Defined.

(** C8 as stated fails once the record with the largest id is deleted:
    after creating two records and deleting the second, the store holds id
    1 only, and the next create assigns 3, not [max(existing ids) + 1 = 2]. *)
Lemma createQuestion_after_delete_skips :
  exists q s',
    createQuestion Samples.create_c
      (run 0 [OpCreate Samples.create_a; OpCreate Samples.create_b; OpDelete 2]
           (initialize [])) = (Ok q, s')
    /\ id <$> questions
         (run 0 [OpCreate Samples.create_a; OpCreate Samples.create_b; OpDelete 2]
              (initialize [])) = [1]
    /\ maxId (questions
         (run 0 [OpCreate Samples.create_a; OpCreate Samples.create_b; OpDelete 2]
              (initialize []))) + 1 = 2
    /\ id q = 3.
Proof. eexists _, _. vm_compute. repeat split. Qed.

(** *** Duplicate urls *)

(** C7: a create whose url is that of a record in the store throws the
    duplicate-url error and returns the store as it was (records, counter
    and CSV file, so the counter is not consumed and nothing is written);
    so does an update of a record in the store whose new url, a url of the
    data model and so not empty, is the url of a record with another id.
    The search comes before the first write.  An update of an id that is
    not in the store throws not-found, and also leaves the store as it
    was. *)
Theorem duplicate_url_rejected :
  (forall (data : CreateQuestionRequest) (s : Store) (q : Question),
      q ∈ questions s -> leetcodeUrl q = c_leetcodeUrl data ->
      createQuestion data s = (Throw DuplicateUrl, s))
  /\ (forall (i : Z) (data : UpdateQuestionRequest) (s : Store) (u : string)
             (q : Question),
      u_leetcodeUrl data = Some u -> u <> EmptyString ->
      q ∈ questions s -> leetcodeUrl q = u -> id q <> i ->
      updateQuestion i data s
      = (Throw (match findById i (questions s) with
                | Some _ => DuplicateUrl
                | None => NotFound
                end), s)).
Proof.
  split.
  - intros data s q Hq Hurl. unfold createQuestion.
    destruct (list_find_elem_of (fun q => leetcodeUrl q = c_leetcodeUrl data)
                (questions s) q Hq Hurl) as [[j x] ->].
    reflexivity.
  - intros i data s u q Hu Hne Hq Hurl Hid. unfold updateQuestion.
    destruct (findById i (questions s)) as [[idx old]|]; [|reflexivity].
    rewrite Hu. cbn [truthy].
    destruct (String.eqb_spec u EmptyString); [contradiction|]. cbn [negb].
    destruct (list_find_elem_of
                (fun q => Some (leetcodeUrl q) = Some u /\ id q <> i)
                (questions s) q Hq) as [[j x] ->]; [|reflexivity].
    split; [congruence | exact Hid].
Qed.

Lemma duplicate_url_rejected_witness :
  createQuestion Samples.create_b Samples.store_ab
  = (Throw DuplicateUrl, Samples.store_ab)
  /\ updateQuestion 1 (Samples.set_url "https://leetcode.com/problems/valid-anagram/")
       Samples.store_ab
     = (Throw DuplicateUrl, Samples.store_ab).
Proof.
  split.
  - apply (proj1 duplicate_url_rejected Samples.create_b Samples.store_ab
             Samples.question_b).
    + vm_compute. apply list_elem_of_further, list_elem_of_here.
    + reflexivity.
  - apply (proj2 duplicate_url_rejected 1
             (Samples.set_url "https://leetcode.com/problems/valid-anagram/")
             Samples.store_ab "https://leetcode.com/problems/valid-anagram/"
             Samples.question_b).
    + reflexivity.
    + discriminate.
    + vm_compute. apply list_elem_of_further, list_elem_of_here.
    + reflexivity.
    + discriminate.
Defined.

(** The guard [if (data.leetcodeUrl)] is a truthiness test: for the empty
    string, which is no url of the data model, the search is skipped. *)
Lemma updateQuestion_empty_url_not_checked :
  exists q' s',
    Samples.no_url ∈ questions (initialize [Samples.question_a; Samples.no_url])
    /\ Some (leetcodeUrl Samples.no_url) = u_leetcodeUrl (Samples.set_url EmptyString)
    /\ id Samples.no_url <> 1
    /\ updateQuestion 1 (Samples.set_url EmptyString)
         (initialize [Samples.question_a; Samples.no_url]) = (Ok q', s')
    /\ leetcodeUrl <$> questions s' = [EmptyString; EmptyString]
    /\ s' <> initialize [Samples.question_a; Samples.no_url].
Proof.
  eexists _, _.
  split; [apply list_elem_of_further, list_elem_of_here|].
  split; [reflexivity|]. split; [discriminate|].
  split; [vm_compute; reflexivity|].
  split; [reflexivity|]. discriminate.
Qed.

End StoreProps.

(** ** Sorting *)

Module SortProps.
Import JS.

Section Sort.
Context {A : Type}.
Variable cmp : A -> A -> option Z.




(** When the comparator is the difference of a key, the result is ordered
    by that key. *)
Variable key : A -> Z.



End Sort.

End SortProps.

(** ** The due classification *)

Module DueProps.
Import JS JSFacts DueSpec QuestionService.

Lemma filter_filter_andb {A} (f g : A -> bool) (l : list A) :
  List.filter f (List.filter g l) = List.filter (fun x => g x && f x) l.
Proof.
  induction l as [|x l IH]; cbn [List.filter]; [reflexivity|].
  destruct (g x); cbn [List.filter andb]; [destruct (f x)|]; rewrite IH; reflexivity.
Qed.


Lemma elem_of_filter_bool {A} (f : A -> bool) (l : list A) (x : A) :
  x ∈ List.filter f l <-> x ∈ l /\ f x = true.
Proof. rewrite !list_elem_of_In. apply filter_In. Qed.

Section Classify.
Variable tz : Z.
Variable Date_parse : string -> JSDate.
Variable now : Z.

Local Abbreviation day := (localDay tz).

Lemma startOfDay_ltb a b : (startOfDay tz a <? startOfDay tz b) = (day a <? day b).
Proof.
  pose proof (startOfDay_lt tz a b).
  destruct (Z.ltb_spec (startOfDay tz a) (startOfDay tz b)),
           (Z.ltb_spec (day a) (day b)); try reflexivity; lia.
Qed.

Lemma startOfDay_leb a b : (startOfDay tz a <=? startOfDay tz b) = (day a <=? day b).
Proof.
  pose proof (startOfDay_le tz a b).
  destruct (Z.leb_spec (startOfDay tz a) (startOfDay tz b)),
           (Z.leb_spec (day a) (day b)); try reflexivity; lia.
Qed.

Lemma startOfDay_eqb a b : (startOfDay tz a =? startOfDay tz b) = (day a =? day b).
Proof.
  pose proof (startOfDay_eq tz a b).
  destruct (Z.eqb_spec (startOfDay tz a) (startOfDay tz b)),
           (Z.eqb_spec (day a) (day b)); try reflexivity; tauto.
Qed.

(** Case analysis on a [nextReview] value: absent, empty, or a non-empty
    string that parses or not. *)
Ltac next_cases o :=
  let str := fresh "str" in
  let t := fresh "t" in
  destruct o as [str|]; cbn;
  [ destruct (String.eqb str EmptyString); cbn;
    [ | destruct (Date_parse str) as [t|]; cbn ] | ].

Ltac bool_arith :=
  rewrite ?startOfDay_ltb, ?startOfDay_leb, ?startOfDay_eqb;
  repeat match goal with
         | |- context [?a <? ?b] => destruct (Z.ltb_spec a b)
         | |- context [?a <=? ?b] => destruct (Z.leb_spec a b)
         | |- context [?a =? ?b] => destruct (Z.eqb_spec a b)
         end; cbn; try reflexivity; try lia.

(** *** The backend's filters *)

Lemma due_overdue_filter (q : Question) :
  dueFilter tz Date_parse (startOfDay tz now) q
  && overdueFilter tz Date_parse (startOfDay tz now) q
  = backend_select Date_parse (fun t => day t <? day now) q.
Proof.
  unfold dueFilter, overdueFilter, backend_select, by_instant, review_instant,
    instant_of, reviewDateOnly, reviewDate, truthy, setHours0.
  destruct (bool_decide (nextReview q = Some "0"%string));
    [rewrite orb_true_r; reflexivity|].
  next_cases (nextReview q); try reflexivity. bool_arith.
Qed.

Lemma due_today_filter (q : Question) :
  dueFilter tz Date_parse (startOfDay tz now) q
  && dueTodayFilter tz Date_parse (startOfDay tz now) q
  = backend_select Date_parse (fun t => day t =? day now) q.
Proof.
  unfold dueFilter, dueTodayFilter, backend_select, by_instant, review_instant,
    instant_of, reviewDateOnly, reviewDate, truthy, setHours0.
  destruct (bool_decide (nextReview q = Some "0"%string));
    [rewrite orb_true_r; reflexivity|].
  next_cases (nextReview q); try reflexivity. bool_arith.
Qed.

Lemma getDueQuestions_filters (s : Store) :
  due_questions (getDueQuestions tz Date_parse now s)
  = List.filter (backend_select Date_parse (fun t => day t =? day now)) (questions s)
  /\ due_overdue (getDueQuestions tz Date_parse now s)
     = List.filter (backend_select Date_parse (fun t => day t <? day now)) (questions s).
Proof.
  unfold getDueQuestions. cbn [due_questions due_overdue].
  rewrite !filter_filter_andb. split; apply filter_ext; intros q.
  - apply due_today_filter.
  - apply due_overdue_filter.
Qed.

(** *** The frontend's helpers *)

Lemma isOverdue_instant (o : option string) :
  Frontend.isOverdue tz Date_parse now o
  = match instant_of Date_parse o with
    | Some t => day t <? day now
    | None => false
    end.
Proof.
  unfold Frontend.isOverdue, Frontend.isOverdue_in, instant_of, truthy.
  next_cases o; try reflexivity. bool_arith.
Qed.

Lemma isDueForReview_instant (o : option string) :
  Frontend.isDueForReview Date_parse now o
  = match instant_of Date_parse o with
    | Some t => t <=? now
    | None => false
    end.
Proof.
  unfold Frontend.isDueForReview, instant_of, truthy.
  next_cases o; reflexivity.
Qed.


(** *** The groups of the review queue *)









End Classify.




(** *** The review queue in any time zone *)

Section AnyZone.
Variable midnight : Z -> Z.
Variable Date_parse : string -> JSDate.
Variable now : Z.






End AnyZone.

(** The days overdue of a record that was due on the 23-hour day before
    today: it is in the overdue group, with 0 days overdue. *)
Example overdue_by_zero_days :
  Frontend.overdueQuestions_in MoreSamples.london_midnight iso_parse
    MoreSamples.march_31_noon [MoreSamples.due_march_30]
  = [MoreSamples.due_march_30]
  /\ Frontend.getDaysOverdue_in MoreSamples.london_midnight iso_parse
       MoreSamples.march_31_noon (nextReview MoreSamples.due_march_30)
     = Some 0.
Proof. split; vm_compute; reflexivity. Qed.




Lemma elem_of_backend_group (Date_parse : string -> JSDate) (test : Z -> bool)
    (qs : list Question) (q : Question) :
  q ∈ List.filter (backend_select Date_parse test) qs
  <-> q ∈ qs /\ nextReview q <> Some "0"%string
      /\ exists t, review_instant Date_parse q = Some t /\ test t = true.
Proof.
  rewrite elem_of_filter_bool. unfold backend_select, by_instant.
  rewrite andb_true_iff, negb_true_iff, bool_decide_eq_false.
  destruct (review_instant Date_parse q) as [t|].
  - split; [intros (? & ? & ?); eauto 6 | intros (? & ? & t' & [= <-] & ?); auto].
  - split; [intros (_ & _ & ?); discriminate | intros (_ & _ & t & ? & _); discriminate].
Qed.

(** C4, as the sources have it.  In the backend's [getDueQuestions] a
    record is due today, or overdue, according to the calendar day of its
    review instant only; a record whose [nextReview] is absent, empty, the
    string ["0"] or rejected by the parser is in neither group.  The
    frontend's [isOverdue] also depends on the calendar day only, and is
    false for an absent, empty or rejected [nextReview]; the frontend's
    [isDueForReview] compares the review instant with the current instant,
    which comes to comparing calendar days when the review instant is a
    local midnight, and is false for an absent, empty or rejected
    [nextReview].  All of them are total. *)
Theorem due_classification (tz : Z) (Date_parse : string -> JSDate) (now : Z) :
  (forall (s : Store) (q : Question),
      (q ∈ due_questions (getDueQuestions tz Date_parse now s)
       <-> q ∈ questions s /\ nextReview q <> Some "0"%string
           /\ exists t, review_instant Date_parse q = Some t
                        /\ localDay tz t = localDay tz now)
      /\ (q ∈ due_overdue (getDueQuestions tz Date_parse now s)
          <-> q ∈ questions s /\ nextReview q <> Some "0"%string
              /\ exists t, review_instant Date_parse q = Some t
                           /\ localDay tz t < localDay tz now))
  /\ (forall o : option string,
      Frontend.isOverdue tz Date_parse now o
      = match instant_of Date_parse o with
        | Some t => localDay tz t <? localDay tz now
        | None => false
        end
      /\ Frontend.isDueForReview Date_parse now o
         = match instant_of Date_parse o with
           | Some t => t <=? now
           | None => false
           end)
  /\ (forall (o : option string) (t : Z),
      instant_of Date_parse o = Some t -> timeOfDay tz t = 0 ->
      Frontend.isDueForReview Date_parse now o = (localDay tz t <=? localDay tz now)).
Proof.
  split; [|split].
  - intros s q. destruct (getDueQuestions_filters tz Date_parse now s) as [-> ->].
    rewrite !elem_of_backend_group.
    split; (split; intros (Hq & H0 & t & Ht & Hd); (split; [exact Hq|]);
            (split; [exact H0|]); exists t; (split; [exact Ht|])).
    + apply Z.eqb_eq, Hd.
    + apply Z.eqb_eq, Hd.
    + apply Z.ltb_lt, Hd.
    + apply Z.ltb_lt, Hd.
  - intros o. split; [apply isOverdue_instant | apply isDueForReview_instant].
  - intros o t Ht Hmid. rewrite isDueForReview_instant, Ht.
    pose proof (startOfDay_bounds tz now). 
    pose proof (startOfDay_split tz t) as Hst. pose proof (startOfDay_split tz now).
    unfold startOfDay in Hst at 1. rewrite Hmid in Hst.
    unfold msPerDay in *.
    destruct (Z.leb_spec t now), (Z.leb_spec (localDay tz t) (localDay tz now));
      try reflexivity; exfalso; lia.
Qed.

(** Midnight of 2025-01-03 in UTC, seen from 2025-01-02T10:00:00.000Z. *)
Lemma due_classification_witness :
  Frontend.isDueForReview iso_parse Samples.jan2_10h
    (Some "2025-01-03T00:00:00.000Z"%string)
  = (localDay 0 1735862400000 <=? localDay 0 Samples.jan2_10h).
Proof.
  apply (proj2 (proj2 (due_classification 0 iso_parse Samples.jan2_10h))
           (Some "2025-01-03T00:00:00.000Z"%string) 1735862400000).
  - vm_compute. reflexivity.
  - vm_compute. reflexivity.
Defined.

(** C4 as stated fails on the frontend's [isDueForReview]: at 10:00, of two
    instants of the same calendar day, the one at 09:00 is due and the one
    at 23:00 is not. *)
Lemma isDueForReview_depends_on_time_of_day :
  iso_parse "2025-01-02T09:00:00.000Z" = Some 1735808400000
  /\ iso_parse "2025-01-02T23:00:00.000Z" = Some 1735858800000
  /\ localDay 0 1735808400000 = localDay 0 1735858800000
  /\ Frontend.isDueForReview iso_parse Samples.jan2_10h
       (Some "2025-01-02T09:00:00.000Z"%string) = true
  /\ Frontend.isDueForReview iso_parse Samples.jan2_10h
       (Some "2025-01-02T23:00:00.000Z"%string) = false.
Proof. repeat split; vm_compute; reflexivity. Qed.

End DueProps.

(** ** Further properties of the store operations *)

Module StoreExtras.
Import JS JSFacts QuestionService Invariants OpVocabulary StoreProps.

(** *** Looking up by id after a change at another place *)

Section Find.
Context {A : Type} (P : A -> Prop) `{!forall x, Decision (P x)}.

Lemma find_insert_other (l : list A) (idx : nat) (x y : A) :
  l !! idx = Some y -> ~ P y -> ~ P x ->
  snd <$> list_find P (<[idx := x]> l) = snd <$> list_find P l.
Proof.
  revert idx. induction l as [|a l IH]; intros [|idx] Hl Hy Hx; try discriminate.
  - cbn in Hl. injection Hl as ->. cbn.
    destruct (decide (P x)); [contradiction|].
    destruct (decide (P y)); [contradiction|]. reflexivity.
  - cbn in Hl. cbn. destruct (decide (P a)); [reflexivity|].
    specialize (IH idx Hl Hy Hx).
    destruct (list_find P (<[idx := x]> l)) as [[? ?]|],
             (list_find P l) as [[? ?]|]; cbn in *; congruence.
Qed.

Lemma find_delete_other (l : list A) (idx : nat) (y : A) :
  l !! idx = Some y -> ~ P y ->
  snd <$> list_find P (delete idx l) = snd <$> list_find P l.
Proof.
  revert idx. induction l as [|a l IH]; intros [|idx] Hl Hy; try discriminate.
  - cbn in Hl. injection Hl as ->. cbn.
    destruct (decide (P y)); [contradiction|].
    destruct (list_find P l) as [[? ?]|]; reflexivity.
  - cbn in Hl. cbn. destruct (decide (P a)); [reflexivity|].
    specialize (IH idx Hl Hy).
    destruct (list_find P (delete idx l)) as [[? ?]|],
             (list_find P l) as [[? ?]|]; cbn in *; congruence.
Qed.

Lemma find_snoc (l : list A) (x : A) :
  snd <$> list_find P (l ++ [x])
  = match list_find P l with
    | Some r => Some r.2
    | None => if decide (P x) then Some x else None
    end.
Proof.
  induction l as [|a l IH]; cbn.
  - destruct (decide (P x)); reflexivity.
  - destruct (decide (P a)); [reflexivity|].
    destruct (list_find P (l ++ [x])) as [[? ?]|],
             (list_find P l) as [[? ?]|]; cbn in *; try congruence;
      destruct (decide (P x)); congruence.
Qed.

End Find.

Lemma getQuestionById_find (i : Z) (s : Store) (idx : nat) (q : Question) :
  findById i (questions s) = Some (idx, q) -> getQuestionById i s = Some q.
Proof. unfold getQuestionById. intros ->. reflexivity. Qed.

Lemma getQuestionById_Some (i : Z) (s : Store) (q : Question) :
  getQuestionById i s = Some q -> exists idx, findById i (questions s) = Some (idx, q).
Proof.
  unfold getQuestionById.
  destruct (findById i (questions s)) as [[idx q0]|]; [|discriminate].
  intros [= <-]. eauto.
Qed.

Lemma findById_absent (i : Z) (s : Store) :
  (forall q, q ∈ questions s -> id q <> i) -> findById i (questions s) = None.
Proof. intros H. apply findById_None. exact H. Qed.

(** *** An id that is not in the store *)

(** Every operation addressed to an id that no record has fails without
    touching the store: update, complete, review and reset throw the
    not-found error, delete returns [false], the lookup returns nothing,
    and records, counter and CSV file stay as they were. *)
Theorem absent_id_no_effect (tz i : Z) (s : Store) (data : UpdateQuestionRequest)
    (reviewData : ReviewRequest) (now schedNow : Z) :
  (forall q, q ∈ questions s -> id q <> i) ->
  getQuestionById i s = None
  /\ updateQuestion i data s = (Throw NotFound, s)
  /\ deleteQuestion i s = (false, s)
  /\ completeQuestion tz i reviewData now schedNow s = (Throw NotFound, s)
  /\ reviewQuestion tz i reviewData now schedNow s = (Throw NotFound, s)
  /\ resetQuestion i s = (Throw NotFound, s).
Proof.
  intros H. apply findById_absent in H.
  unfold getQuestionById, updateQuestion, deleteQuestion, completeQuestion,
    reviewQuestion, resetQuestion.
  rewrite H. repeat split.
Qed.

Lemma absent_id_no_effect_witness :
  getQuestionById 7 Samples.store_ab = None
  /\ updateQuestion 7 (Samples.set_url "https://leetcode.com/problems/3sum/")
       Samples.store_ab = (Throw NotFound, Samples.store_ab)
  /\ deleteQuestion 7 Samples.store_ab = (false, Samples.store_ab)
  /\ completeQuestion 0 7 (Samples.rate easy) Samples.jan2_10h Samples.jan2_10h
       Samples.store_ab = (Throw NotFound, Samples.store_ab)
  /\ reviewQuestion 0 7 (Samples.rate easy) Samples.jan2_10h Samples.jan2_10h
       Samples.store_ab = (Throw NotFound, Samples.store_ab)
  /\ resetQuestion 7 Samples.store_ab = (Throw NotFound, Samples.store_ab).
Proof.
  apply (absent_id_no_effect 0 7 Samples.store_ab).
  intros q Hq. vm_compute in Hq.
  apply elem_of_cons in Hq as [-> | Hq]; [discriminate|].
  apply elem_of_cons in Hq as [-> | Hq]; [discriminate|].
  inversion Hq.
Defined.

(** *** Operations leave the records with other ids alone *)

Lemma lookup_other_insert (i j : Z) (qs : list Question) (idx : nat) (old q' : Question) :
  qs !! idx = Some old -> id old = i -> id q' = i -> j <> i ->
  snd <$> findById j (<[idx := q']> qs) = snd <$> findById j qs.
Proof.
  intros Hl Ho Hn Hne. unfold findById.
  apply (find_insert_other _ _ _ _ _ Hl); congruence.
Qed.

Lemma other_ids_untouched_frame (tz : Z) (s : Store) (op : Op) (j : Z) :
  j <> target s op ->
  getQuestionById j (step tz s op) = getQuestionById j s.
Proof.
  unfold getQuestionById.
  destruct op as [data | i data | i | i rd now sn | i rd now sn | i];
    cbn [step target]; intros Hne.
  - unfold createQuestion.
    destruct (list_find _ (questions s)); [reflexivity|].
    cbn [snd questions saveQuestions]. unfold findById. rewrite find_snoc. cbn [id].
    destruct (list_find (fun q => id q = j) (questions s)) as [[? ?]|]; [reflexivity|].
    destruct (decide (nextId s = j)); [congruence | reflexivity].
  - unfold updateQuestion. find_cases i s; [|reflexivity].
    destruct (if truthy (u_leetcodeUrl data) then _ else None); [reflexivity|].
    cbn [snd questions saveQuestions]. eapply lookup_other_insert; eauto.
  - unfold deleteQuestion. find_cases i s; [|reflexivity].
    cbn [snd questions saveQuestions]. unfold findById.
    apply (find_delete_other _ _ _ _ Hlook). congruence.
  - unfold completeQuestion. find_cases i s; [|reflexivity].
    destruct (SpacedRepetitionService.calculateNextReview _ _ _ _) as [t|]; [|reflexivity].
    cbn [snd questions saveQuestions]. eapply lookup_other_insert; eauto.
  - unfold reviewQuestion. find_cases i s; [|reflexivity].
    destruct (SpacedRepetitionService.calculateNextReview _ _ _ _) as [t|];
      cbn [snd questions saveQuestions]; eapply lookup_other_insert; eauto.
  - unfold resetQuestion. find_cases i s; [|reflexivity].
    cbn [snd questions saveQuestions]. eapply lookup_other_insert; eauto.
Qed.

(** Looking up an id other than the one an operation works on gives the
    same record after the operation as before. *)
Theorem other_ids_untouched (tz : Z) (s : Store) (op : Op) (j : Z) :
  j <> target s op ->
  getQuestionById j (step tz s op) = getQuestionById j s.
Proof. apply other_ids_untouched_frame. Qed.

Lemma other_ids_untouched_witness :
  getQuestionById 2
    (step 0 Samples.store_ab
       (OpComplete 1 (Samples.rate easy) Samples.jan2_10h Samples.jan2_10h))
  = getQuestionById 2 Samples.store_ab.
Proof.
  apply (other_ids_untouched 0 Samples.store_ab
           (OpComplete 1 (Samples.rate easy) Samples.jan2_10h Samples.jan2_10h) 2).
  cbn. discriminate.
Defined.

(** *** Delete *)

(** Deleting an id that is in the store returns [true], takes out the
    first record with that id and nothing else, leaves the counter, and
    writes the file; when ids are unique the id is then no longer found. *)
Theorem deleteQuestion_removes (i : Z) (s : Store) (idx : nat) (q : Question) :
  findById i (questions s) = Some (idx, q) ->
  deleteQuestion i s
  = (true, {| questions := delete idx (questions s);
              nextId := nextId s;
              csvFile := delete idx (questions s) |})
  /\ S (length (delete idx (questions s))) = length (questions s)
  /\ (NoDup (id <$> questions s) ->
      getQuestionById i (snd (deleteQuestion i s)) = None).
Proof.
  intros Hfind. pose proof (findById_Some _ _ _ _ Hfind) as [Hl Hid].
  unfold deleteQuestion. rewrite Hfind. split; [reflexivity|]. split.
  - rewrite length_delete by eauto.
    pose proof (lookup_lt_Some _ _ _ Hl). lia.
  - intros Hnd. unfold getQuestionById. cbn [snd questions saveQuestions].
    rewrite (proj2 (findById_None i (delete idx (questions s)))); [reflexivity|].
    intros q0 Hq0 Hid0.
    apply list_elem_of_lookup in Hq0 as [j Hj].
    rewrite list_lookup_delete in Hj.
    assert (Hq : (id <$> questions s) !! idx = Some i)
      by (rewrite list_lookup_fmap, Hl; cbn; congruence).
    destruct (decide (j < idx)%nat) as [Hlt | Hge].
    + assert (Hq' : (id <$> questions s) !! j = Some i)
        by (rewrite list_lookup_fmap, Hj; cbn; congruence).
      pose proof (NoDup_lookup _ _ _ _ Hnd Hq Hq'). lia.
    + assert (Hq' : (id <$> questions s) !! S j = Some i)
        by (rewrite list_lookup_fmap, Hj; cbn; congruence).
      pose proof (NoDup_lookup _ _ _ _ Hnd Hq Hq'). lia.
Qed.

Lemma deleteQuestion_removes_witness :
  deleteQuestion 1 Samples.store_ab
  = (true, {| questions := delete 0%nat (questions Samples.store_ab);
              nextId := nextId Samples.store_ab;
              csvFile := delete 0%nat (questions Samples.store_ab) |})
  /\ S (length (delete 0%nat (questions Samples.store_ab)))
     = length (questions Samples.store_ab)
  /\ (NoDup (id <$> questions Samples.store_ab) ->
      getQuestionById 1 (snd (deleteQuestion 1 Samples.store_ab)) = None).
Proof.
  apply (deleteQuestion_removes 1 Samples.store_ab 0%nat Samples.question_a).
  vm_compute. reflexivity.
Defined.

(** *** Create, then look up *)

(** In a store brought up from a CSV file whose rows all give records of
    the [Question] type, so that every id read is a number, and taken
    through any sequence of operations with no reload in between, the
    counter read at start-up is a number, and the record a successful
    create returns is the one the lookup by its id finds afterwards: it carries the request's name, category, url and
    difficulty tag, notes defaulting to the empty string, status
    [not_started], no dates, count 0 and an empty history; and the store
    holds one record more. *)
Theorem createQuestion_then_getById (tz : Z) (rows : list CsvService.QuestionCSVRow)
    (file : list Question) (ops : list Op)
    (data : CreateQuestionRequest) (q : Question) (s' : Store) :
  CsvService.load rows = Some file ->
  createQuestion data (run tz ops (initialize file)) = (Ok q, s') ->
  CsvService.loaded_counter (CsvService.readQuestions rows)
  = Some (nextId (initialize file))
  /\ getQuestionById (id q) s' = Some q
  /\ q = {| id := nextId (run tz ops (initialize file));
            name := c_name data; category := c_category data;
            leetcodeUrl := c_leetcodeUrl data;
            leetcodeDifficulty := c_leetcodeDifficulty data;
            status := not_started;
            firstCompleted := None; lastReviewed := None; nextReview := None;
            reviewCount := 0; difficultyHistory := [];
            notes := or_else (c_notes data) EmptyString |}
  /\ length (questions s') = S (length (questions (run tz ops (initialize file))))
  /\ csvFile s' = questions s'.
Proof.
  intros Hload Hcreate. split; [apply loaded_counter_typed, Hload|].
  revert Hcreate.
  pose proof (run_counter tz ops file) as ([_ Hall] & _).
  set (s := run tz ops (initialize file)) in *. clearbody s.
  unfold createQuestion.
  destruct (list_find _ (questions s)); [discriminate|].
  intros [= <- <-]. cbn [id questions saveQuestions csvFile].
  split; [|split; [reflexivity|split; [|reflexivity]]].
  - unfold getQuestionById. cbn [questions saveQuestions]. unfold findById.
    rewrite find_snoc.
    rewrite (proj2 (list_find_None (fun q => id q = nextId s) (questions s))).
    + cbn [id]. destruct (decide (nextId s = nextId s)); [reflexivity | contradiction].
    + apply Forall_forall. intros q0 Hq0 Hid.
      specialize (Hall (id q0) (list_elem_of_fmap_2 id _ _ Hq0)). lia.
  - rewrite length_app. cbn [length]. lia.
Qed.

Lemma createQuestion_then_getById_witness :
  let s := run 0 [OpCreate Samples.create_a; OpDelete 8]
             (initialize [MoreSamples.question_seven]) in
  CsvService.loaded_counter (CsvService.readQuestions [MoreSamples.row_seven])
  = Some (nextId (initialize [MoreSamples.question_seven]))
  /\ getQuestionById (id (Samples.scheduled_c 9))
    (snd (createQuestion Samples.create_c s))
  = Some (Samples.scheduled_c 9)
  /\ Samples.scheduled_c 9
     = {| id := nextId s;
          name := c_name Samples.create_c; category := c_category Samples.create_c;
          leetcodeUrl := c_leetcodeUrl Samples.create_c;
          leetcodeDifficulty := c_leetcodeDifficulty Samples.create_c;
          status := not_started;
          firstCompleted := None; lastReviewed := None; nextReview := None;
          reviewCount := 0; difficultyHistory := [];
          notes := or_else (c_notes Samples.create_c) EmptyString |}
  /\ length (questions (snd (createQuestion Samples.create_c s)))
     = S (length (questions s))
  /\ csvFile (snd (createQuestion Samples.create_c s))
     = questions (snd (createQuestion Samples.create_c s)).
Proof.
  intros s.
  apply (createQuestion_then_getById 0 [MoreSamples.row_seven]
           [MoreSamples.question_seven]
           [OpCreate Samples.create_a; OpDelete 8]
           Samples.create_c (Samples.scheduled_c 9)
           (snd (createQuestion Samples.create_c s))).
  - reflexivity.
  - vm_compute. reflexivity.
Defined.

(** *** Update *)

(** An update of a record in the store whose new url, if one is given and
    not empty, is the url of no record with another id succeeds: the given
    fields replace the old ones, the fields not given stay, and id, status,
    dates, count and history are those of the old record; the record is
    written at its old place and is what the lookup then finds. *)
Theorem updateQuestion_merges (i : Z) (data : UpdateQuestionRequest) (s : Store)
    (idx : nat) (old : Question) :
  findById i (questions s) = Some (idx, old) ->
  (forall q, q ∈ questions s -> Some (leetcodeUrl q) = u_leetcodeUrl data ->
             leetcodeUrl q <> EmptyString -> id q = i) ->
  exists q',
    updateQuestion i data s
    = (Ok q', {| questions := <[idx := q']> (questions s);
                 nextId := nextId s;
                 csvFile := <[idx := q']> (questions s) |})
    /\ getQuestionById i (snd (updateQuestion i data s)) = Some q'
    /\ name q' = default (name old) (u_name data)
    /\ category q' = default (category old) (u_category data)
    /\ leetcodeUrl q' = default (leetcodeUrl old) (u_leetcodeUrl data)
    /\ notes q' = default (notes old) (u_notes data)
    /\ id q' = id old /\ leetcodeDifficulty q' = leetcodeDifficulty old
    /\ status q' = status old /\ firstCompleted q' = firstCompleted old
    /\ lastReviewed q' = lastReviewed old /\ nextReview q' = nextReview old
    /\ reviewCount q' = reviewCount old
    /\ difficultyHistory q' = difficultyHistory old.
Proof.
  intros Hfind Hfree. pose proof (findById_Some _ _ _ _ Hfind) as [Hl Hid].
  unfold updateQuestion. rewrite Hfind.
  assert (Hnone : (if truthy (u_leetcodeUrl data)
                   then list_find
                          (fun q => Some (leetcodeUrl q) = u_leetcodeUrl data /\ id q <> i)
                          (questions s)
                   else None) = None).
  { destruct (truthy (u_leetcodeUrl data)) eqn:Ht; [|reflexivity].
    apply list_find_None, Forall_forall. intros q Hq [Hu Hne].
    apply Hne, Hfree; [exact Hq | exact Hu |].
    intros He. rewrite <- Hu, He in Ht. discriminate. }
  rewrite Hnone. eexists. split; [reflexivity|].
  split; [|repeat split].
  unfold getQuestionById. cbn [snd questions saveQuestions].
  erewrite findById_insert; [reflexivity | exact Hfind | exact Hid].
Qed.

Lemma updateQuestion_merges_witness :
  exists q',
    updateQuestion 1 (Samples.set_url "https://leetcode.com/problems/3sum/")
      Samples.store_ab
    = (Ok q', {| questions := <[0%nat := q']> (questions Samples.store_ab);
                 nextId := nextId Samples.store_ab;
                 csvFile := <[0%nat := q']> (questions Samples.store_ab) |})
    /\ getQuestionById 1
         (snd (updateQuestion 1 (Samples.set_url "https://leetcode.com/problems/3sum/")
                 Samples.store_ab)) = Some q'
    /\ name q' = default (name Samples.question_a)
                   (u_name (Samples.set_url "https://leetcode.com/problems/3sum/"))
    /\ category q' = default (category Samples.question_a)
                       (u_category (Samples.set_url "https://leetcode.com/problems/3sum/"))
    /\ leetcodeUrl q'
       = default (leetcodeUrl Samples.question_a)
           (u_leetcodeUrl (Samples.set_url "https://leetcode.com/problems/3sum/"))
    /\ notes q' = default (notes Samples.question_a)
                    (u_notes (Samples.set_url "https://leetcode.com/problems/3sum/"))
    /\ id q' = id Samples.question_a
    /\ leetcodeDifficulty q' = leetcodeDifficulty Samples.question_a
    /\ status q' = status Samples.question_a
    /\ firstCompleted q' = firstCompleted Samples.question_a
    /\ lastReviewed q' = lastReviewed Samples.question_a
    /\ nextReview q' = nextReview Samples.question_a
    /\ reviewCount q' = reviewCount Samples.question_a
    /\ difficultyHistory q' = difficultyHistory Samples.question_a.
Proof.
  apply (updateQuestion_merges 1
           (Samples.set_url "https://leetcode.com/problems/3sum/")
           Samples.store_ab 0%nat Samples.question_a).
  - vm_compute. reflexivity.
  - intros q Hq Hu _. vm_compute in Hq.
    apply elem_of_cons in Hq as [-> | Hq]; [reflexivity|].
    apply elem_of_cons in Hq as [-> | Hq]; [discriminate Hu|].
    inversion Hq.
Defined.

(** *** Memory and file *)

Lemma counts_nonneg_step (tz : Z) (s : Store) (op : Op) :
  (forall q, q ∈ questions s -> 0 <= reviewCount q) ->
  forall q, q ∈ questions (step tz s op) -> 0 <= reviewCount q.
Proof.
  apply (step_record_invariant (fun q => 0 <= reviewCount q)).
  - intros n q (_ & _ & _ & _ & _ & Hrc & _). lia.
  - intros q q' Hafter Hq.
    destruct Hafter as [_ _ _ Hrc _ | d t _ _ _ Hrc _ | d t _ _ _ Hrc _ | _ _ _ Hrc _];
      lia.
Qed.

Lemma saved_step (tz : Z) (s : Store) (op : Op) :
  (forall q, q ∈ questions s -> 0 <= reviewCount q) ->
  csvFile s = questions s ->
  csvFile (step tz s op) = questions (step tz s op).
Proof.
  intros Hnn Hs.
  destruct op as [data | i data | i | i rd now sn | i rd now sn | i]; cbn [step].
  - unfold createQuestion. destruct (list_find _ (questions s)); [exact Hs | reflexivity].
  - unfold updateQuestion. find_cases i s; [|exact Hs].
    destruct (if truthy (u_leetcodeUrl data) then _ else None); [exact Hs | reflexivity].
  - unfold deleteQuestion. find_cases i s; [reflexivity | exact Hs].
  - unfold completeQuestion. find_cases i s; [|exact Hs].
    destruct (SpacedRepetitionService.calculateNextReview _ _ _ _); [reflexivity | exact Hs].
  - unfold reviewQuestion. find_cases i s; [|exact Hs].
    rewrite (SchedulerProps.backend_interval tz sn (reviewCount old) (r_difficulty rd));
      [reflexivity|].
    left. apply Hnn. eapply findById_elem_of; eauto.
  - unfold resetQuestion. find_cases i s; [reflexivity | exact Hs].
Qed.

(** When no record of the CSV file has a negative review count, then after
    any sequence of operations the records last handed to the CSV service
    are exactly the records in memory: every change is written, and a
    failed operation changes nothing. *)
Theorem memory_matches_file (tz : Z) (file : list Question) (ops : list Op) :
  (forall q, q ∈ file -> 0 <= reviewCount q) ->
  csvFile (run tz ops (initialize file)) = questions (run tz ops (initialize file)).
Proof.
  intros Hfile.
  enough (H : forall s, (forall q, q ∈ questions s -> 0 <= reviewCount q) ->
                        csvFile s = questions s ->
                        csvFile (run tz ops s) = questions (run tz ops s))
    by (apply H; [exact Hfile | reflexivity]).
  induction ops as [|op ops IH]; intros s Hnn Hs; [exact Hs|].
  cbn [run foldl]. apply IH; [apply counts_nonneg_step, Hnn | apply saved_step; assumption].
Qed.

Lemma memory_matches_file_witness :
  csvFile (run 0 [OpCreate Samples.create_c; OpReset 2; OpDelete 1]
             (initialize [Samples.due_yesterday; Samples.due_last_week]))
  = questions (run 0 [OpCreate Samples.create_c; OpReset 2; OpDelete 1]
                 (initialize [Samples.due_yesterday; Samples.due_last_week])).
Proof.
  apply (memory_matches_file 0 [Samples.due_yesterday; Samples.due_last_week]
           [OpCreate Samples.create_c; OpReset 2; OpDelete 1]).
  intros q Hq.
  apply elem_of_cons in Hq as [-> | Hq]; [cbn; lia|].
  apply elem_of_cons in Hq as [-> | Hq]; [cbn; lia|].
  inversion Hq.
Defined.



(** *** The completion date *)

(** Under any operation other than a reset or a delete, a record that has a
    completion date keeps it: the lookup by its id still finds a record,
    with the same [firstCompleted]. *)
Theorem firstCompleted_kept (tz : Z) (s : Store) (op : Op) (i : Z) (q : Question)
    (fc : string) :
  getQuestionById i s = Some q ->
  firstCompleted q = Some fc -> fc <> EmptyString ->
  clears op = false ->
  exists q', getQuestionById i (step tz s op) = Some q'
             /\ firstCompleted q' = Some fc.
Proof.
  intros Hget Hfc Hne Hop.
  apply getQuestionById_Some in Hget as [idx Hfind].
  pose proof (findById_Some _ _ _ _ Hfind) as [Hl Hid].
  assert (Hsame : getQuestionById i s = Some q) by (eapply getQuestionById_find; eauto).
  assert (Hins : forall q', id q' = i -> firstCompleted q' = Some fc ->
             exists q'', snd <$> findById i (<[idx := q']> (questions s)) = Some q''
                         /\ firstCompleted q'' = Some fc).
  { intros q' Hid' Hfc'. exists q'. split; [|exact Hfc'].
    erewrite findById_insert; [reflexivity | exact Hfind | exact Hid']. }
  destruct op as [data | j data | j | j rd now sn | j rd now sn | j];
    try discriminate Hop.
  - (* create: the record is found before the end of the array *)
    exists q. split; [|exact Hfc]. cbn [step]. unfold createQuestion.
    destruct (list_find _ (questions s)); [exact Hsame|].
    unfold getQuestionById. cbn [snd questions saveQuestions]. unfold findById.
    rewrite find_snoc. unfold findById in Hfind. rewrite Hfind. reflexivity.
  - destruct (decide (i = j)) as [<- | Hij];
      [| exists q; split; [|exact Hfc];
         rewrite other_ids_untouched_frame by (cbn; exact Hij); exact Hsame].
    cbn [step]. unfold updateQuestion, getQuestionById. rewrite Hfind.
    destruct (if truthy (u_leetcodeUrl data) then _ else None);
      cbn [snd questions saveQuestions]; [exists q; rewrite Hfind; auto|].
    apply Hins; [exact Hid | exact Hfc].
  - destruct (decide (i = j)) as [<- | Hij];
      [| exists q; split; [|exact Hfc];
         rewrite other_ids_untouched_frame by (cbn; exact Hij); exact Hsame].
    cbn [step]. unfold completeQuestion, getQuestionById. rewrite Hfind.
    destruct (SpacedRepetitionService.calculateNextReview _ _ _ _);
      cbn [snd questions saveQuestions]; [|exists q; rewrite Hfind; auto].
    apply Hins; [exact Hid|]. cbn [firstCompleted]. rewrite Hfc. cbn [or_else].
    destruct (String.eqb_spec fc EmptyString); [contradiction | reflexivity].
  - destruct (decide (i = j)) as [<- | Hij];
      [| exists q; split; [|exact Hfc];
         rewrite other_ids_untouched_frame by (cbn; exact Hij); exact Hsame].
    cbn [step]. unfold reviewQuestion, getQuestionById. rewrite Hfind.
    destruct (SpacedRepetitionService.calculateNextReview _ _ _ _);
      cbn [snd questions saveQuestions]; (apply Hins; [exact Hid | exact Hfc]).
Qed.

Lemma firstCompleted_kept_witness :
  exists q',
    getQuestionById 1
      (step 0 Samples.store_completed
         (OpComplete 1 (Samples.rate hard) (Samples.jan2_10h + msPerDay)
            (Samples.jan2_10h + msPerDay))) = Some q'
    /\ firstCompleted q' = Some "2025-01-02T10:00:00.000Z"%string.
Proof.
  apply (firstCompleted_kept 0 Samples.store_completed
           (OpComplete 1 (Samples.rate hard) (Samples.jan2_10h + msPerDay)
              (Samples.jan2_10h + msPerDay))
           1 Samples.completed_a "2025-01-02T10:00:00.000Z").
  - vm_compute. reflexivity.
  - reflexivity.
  - discriminate.
  - reflexivity.
Defined.

(** *** Urls stay unique *)

Lemma NoDup_insert_fresh {A} (l : list A) (i : nat) (x : A) :
  NoDup l ->
  (forall j y, l !! j = Some y -> j <> i -> y <> x) ->
  NoDup (<[i := x]> l).
Proof.
  intros Hnd Hfresh. apply NoDup_alt. intros a b y Ha Hb.
  apply list_lookup_insert_Some in Ha as [(-> & -> & Hlen) | [Hai Ha]];
    apply list_lookup_insert_Some in Hb as [(-> & Hy & _) | [Hbi Hb]];
    try reflexivity.
  - exfalso. eapply Hfresh; eauto.
  - exfalso. subst y. eapply Hfresh; eauto.
  - eapply NoDup_lookup; eauto.
Qed.

Lemma urls_insert (qs : list Question) (idx : nat) (q q' : Question) :
  qs !! idx = Some q -> leetcodeUrl q' = leetcodeUrl q ->
  leetcodeUrl <$> <[idx := q']> qs = leetcodeUrl <$> qs.
Proof.
  intros Hl Hu. rewrite list_fmap_insert, Hu.
  apply list_insert_id. rewrite list_lookup_fmap, Hl. reflexivity.
Qed.

Lemma urls_step (tz : Z) (s : Store) (op : Op) :
  sets_empty_url op = false ->
  NoDup (id <$> questions s) ->
  NoDup (leetcodeUrl <$> questions s) ->
  NoDup (leetcodeUrl <$> questions (step tz s op)).
Proof.
  intros Hop Hids Hurls.
  destruct op as [data | i data | i | i rd now sn | i rd now sn | i]; cbn [step].
  - unfold createQuestion.
    destruct (list_find _ (questions s)) eqn:Hfind; [exact Hurls|].
    cbn [snd questions saveQuestions]. rewrite fmap_app. apply NoDup_app.
    split; [exact Hurls|]. split; [|apply NoDup_singleton].
    intros u (q & -> & Hq)%list_elem_of_fmap Hu%list_elem_of_singleton.
    apply list_find_None in Hfind. rewrite Forall_forall in Hfind.
    apply (Hfind q Hq). exact Hu.
  - unfold updateQuestion. find_cases i s; [|exact Hurls].
    destruct (if truthy (u_leetcodeUrl data) then _ else None) eqn:Hfree; [exact Hurls|].
    cbn [snd questions saveQuestions]. rewrite list_fmap_insert.
    destruct (u_leetcodeUrl data) as [u|] eqn:Hu; cbn [spread leetcodeUrl default].
    + cbn in Hop. apply bool_decide_eq_false in Hop.
      assert (Hne : u <> EmptyString) by congruence.
      unfold truthy in Hfree. destruct (String.eqb_spec u EmptyString); [contradiction|].
      cbn [negb] in Hfree. apply list_find_None in Hfree. rewrite Forall_forall in Hfree.
      apply NoDup_insert_fresh; [exact Hurls|].
      intros j y Hj Hji ->.
      rewrite list_lookup_fmap in Hj.
      destruct (questions s !! j) as [qj|] eqn:Hqj; [|discriminate].
      cbn in Hj. injection Hj as Hj.
      apply (Hfree qj); [apply list_elem_of_lookup; eauto|].
      cbn [spread leetcodeUrl] in Hj. rewrite Hu in Hj. cbn in Hj.
      split; [congruence|]. intros Hidj. apply Hji.
      apply (NoDup_lookup (id <$> questions s) j idx i Hids);
        rewrite list_lookup_fmap; [rewrite Hqj | rewrite Hlook]; cbn; congruence.
    + rewrite list_insert_id; [exact Hurls|].
      rewrite list_lookup_fmap, Hlook. cbn [spread leetcodeUrl]. rewrite Hu. reflexivity.
  - unfold deleteQuestion. find_cases i s; [|exact Hurls].
    cbn [snd questions saveQuestions]. rewrite list_fmap_delete.
    eapply sublist_NoDup; [exact Hurls | apply sublist_delete].
  - unfold completeQuestion. find_cases i s; [|exact Hurls].
    destruct (SpacedRepetitionService.calculateNextReview _ _ _ _); [|exact Hurls].
    cbn [snd questions saveQuestions]. erewrite urls_insert; eauto.
  - unfold reviewQuestion. find_cases i s; [|exact Hurls].
    destruct (SpacedRepetitionService.calculateNextReview _ _ _ _);
      cbn [snd questions saveQuestions]; (erewrite urls_insert; eauto).
  - unfold resetQuestion. find_cases i s; [|exact Hurls].
    cbn [snd questions saveQuestions]. erewrite urls_insert; eauto.
Qed.

(** When the records of the CSV file have pairwise different ids and
    pairwise different urls, then after any sequence of operations in which
    no update hands over the empty string as url, the records of the store
    still have pairwise different urls. *)
Theorem urls_stay_unique (tz : Z) (file : list Question) (ops : list Op) :
  NoDup (id <$> file) ->
  NoDup (leetcodeUrl <$> file) ->
  forallb (fun op => negb (sets_empty_url op)) ops = true ->
  NoDup (leetcodeUrl <$> questions (run tz ops (initialize file))).
Proof.
  intros Hids Hurls. induction ops as [|op ops IH] using rev_ind; intros Hops.
  - exact Hurls.
  - rewrite forallb_app in Hops. cbn [forallb] in Hops.
    apply andb_prop in Hops as [Hops [Hop _]%andb_prop].
    rewrite run_app_step. apply urls_step.
    + destruct (sets_empty_url op); [discriminate | reflexivity].
    + apply (run_counter tz ops file). exact Hids.
    + apply IH. exact Hops.
Qed.

Lemma urls_stay_unique_witness :
  NoDup (leetcodeUrl <$>
           questions (run 0 [OpCreate Samples.create_c;
                             OpUpdate 1 (Samples.set_url
                                           "https://leetcode.com/problems/3sum/");
                             OpDelete 2]
                        (initialize [Samples.question_a; Samples.question_b]))).
Proof.
  apply (urls_stay_unique 0 [Samples.question_a; Samples.question_b]
           [OpCreate Samples.create_c;
            OpUpdate 1 (Samples.set_url "https://leetcode.com/problems/3sum/");
            OpDelete 2]).
  - cbn. apply NoDup_cons. split; [|apply NoDup_singleton].
    intros H%list_elem_of_singleton. discriminate H.
  - cbn. apply NoDup_cons. split; [|apply NoDup_singleton].
    intros H%list_elem_of_singleton. discriminate H.
  - reflexivity.
Defined.

(** *** The status [completed] *)

(** No operation assigns the status [completed]: after any sequence of
    operations, a record the store created itself is [not_started],
    [under_review] or [needs_attention]. *)
Theorem completed_never_assigned (tz : Z) (file : list Question) (ops : list Op)
    (q : Question) :
  q ∈ questions (run tz ops (initialize file)) ->
  id q ∉ (id <$> file) ->
  status q = not_started \/ status q = under_review \/ status q = needs_attention.
Proof.
  intros Hq Hnew.
  enough (H : id q ∈ (id <$> file) \/ status q <> completed).
  { destruct H as [H | H]; [contradiction|]. destruct (status q); tauto. }
  clear Hnew. revert q Hq. apply run_record_invariant.
  - intros n q (_ & Hst & _). right. rewrite Hst. discriminate.
  - intros q q' Hafter [Hfile | Hst].
    + left. destruct Hafter as [Hid | ? ? Hid | ? ? Hid | Hid]; rewrite Hid; exact Hfile.
    + right.
      destruct Hafter as [_ Hs _ _ _ | d t _ Hs _ _ _ | d t _ Hs _ _ _ | _ Hs _ _ _].
      * congruence.
      * rewrite Hs. discriminate.
      * destruct Hs as [Hs | Hs]; rewrite Hs; discriminate.
      * rewrite Hs. discriminate.
  - intros q Hq. left. apply list_elem_of_fmap_2. exact Hq.
Qed.

Lemma completed_never_assigned_witness :
  status Samples.completed_a = not_started
  \/ status Samples.completed_a = under_review
  \/ status Samples.completed_a = needs_attention.
Proof.
  apply (completed_never_assigned 0 []
           [OpCreate Samples.create_a; OpCreate Samples.create_b;
            OpComplete 1 (Samples.rate easy) Samples.jan2_10h Samples.jan2_10h]
           Samples.completed_a).
  - vm_compute. apply list_elem_of_here.
  - cbn. apply not_elem_of_nil.
Defined.

(** *** A completion followed by reviews *)

Lemma review_cycle_snoc (i : Z) (first : ReviewRequest * Z * Z)
    (rest : list (ReviewRequest * Z * Z)) (r : ReviewRequest * Z * Z) :
  review_cycle i first (rest ++ [r])
  = review_cycle i first rest ++ [OpReview i r.1.1 r.1.2 r.2].
Proof. unfold review_cycle. rewrite map_app. reflexivity. Qed.

(** Completing a record and then reviewing it [n] times leaves it with
    count [n + 1] and the ratings in order as its history; its next review
    is local midnight [table[min n 5]] days (one day after a [hard] rating)
    after the day of the last step; it needs attention exactly when there
    was a review and the last one was rated [hard]. *)
Theorem review_cycle_progress (tz i : Z) (first : ReviewRequest * Z * Z)
    (rest : list (ReviewRequest * Z * Z)) (s : Store) (idx : nat) (q : Question) :
  findById i (questions s) = Some (idx, q) ->
  exists q',
    getQuestionById i (run tz (review_cycle i first rest) s) = Some q'
    /\ reviewCount q' = 1 + Z.of_nat (length rest)
    /\ difficultyHistory q'
       = r_difficulty first.1.1 :: map (fun r => r_difficulty r.1.1) rest
    /\ lastReviewed q' = Some (toISOString (List.last rest first).1.2)
    /\ nextReview q'
       = Some (toISOString
                 (startOfDay tz
                    (addDays (List.last rest first).2
                       (spec_interval (Z.of_nat (length rest))
                          (r_difficulty (List.last rest first).1.1)))))
    /\ status q'
       = match rest with
         | [] => under_review
         | _ => if decide (r_difficulty (List.last rest first).1.1 = hard)
                then needs_attention else under_review
         end.
Proof.
  intros Hfind. pose proof (findById_Some _ _ _ _ Hfind) as [_ Hid].
  enough (H : exists q',
             findById i (questions (run tz (review_cycle i first rest) s)) = Some (idx, q')
             /\ reviewCount q' = 1 + Z.of_nat (length rest)
             /\ difficultyHistory q'
                = r_difficulty first.1.1 :: map (fun r => r_difficulty r.1.1) rest
             /\ lastReviewed q' = Some (toISOString (List.last rest first).1.2)
             /\ nextReview q'
                = Some (toISOString
                          (startOfDay tz
                             (addDays (List.last rest first).2
                                (spec_interval (Z.of_nat (length rest))
                                   (r_difficulty (List.last rest first).1.1)))))
             /\ status q'
                = match rest with
                  | [] => under_review
                  | _ => if decide (r_difficulty (List.last rest first).1.1 = hard)
                         then needs_attention else under_review
                  end).
  { destruct H as (q' & Hf & H). exists q'. split; [|exact H].
    eapply getQuestionById_find; eauto. }
  induction rest as [|r rest IH] using rev_ind.
  - cbn [review_cycle map run foldl step List.last length].
    unfold completeQuestion. rewrite Hfind.
    rewrite (SchedulerProps.backend_interval tz _ 0 _ (or_introl (Z.le_refl 0))).
    cbn [snd questions saveQuestions]. eexists. split.
    + eapply findById_insert; [exact Hfind | exact Hid].
    + repeat split.
  - destruct IH as (q1 & Hf1 & Hrc & Hh & _ & _ & _).
    pose proof (findById_Some _ _ _ _ Hf1) as [_ Hid1].
    rewrite review_cycle_snoc, run_app_step, last_last, length_app, map_app.
    cbn [step length map].
    set (s1 := run tz (review_cycle i first rest) s) in *. clearbody s1.
    unfold reviewQuestion. rewrite Hf1.
    rewrite (SchedulerProps.backend_interval tz r.2 (reviewCount q1) (r_difficulty r.1.1))
      by (left; lia).
    cbn [snd questions saveQuestions]. eexists. split.
    + eapply findById_insert; [exact Hf1 | exact Hid1].
    + cbn [reviewCount difficultyHistory lastReviewed nextReview status].
      rewrite Hrc, Hh.
      replace (1 + Z.of_nat (length rest)) with (Z.of_nat (length rest + 1)) by lia.
      split; [lia|]. split; [reflexivity|]. split; [reflexivity|].
      split; [reflexivity|].
      destruct rest; reflexivity.
Qed.

Lemma review_cycle_progress_witness :
  exists q',
    getQuestionById 1
      (run 0 (review_cycle 1 (Samples.rate easy, Samples.jan2_10h, Samples.jan2_10h)
                [(Samples.rate medium, Samples.jan2_10h + msPerDay,
                  Samples.jan2_10h + msPerDay)])
         Samples.store_ab) = Some q'
    /\ reviewCount q' = 1 + Z.of_nat 1
    /\ difficultyHistory q' = [easy; medium]
    /\ lastReviewed q' = Some (toISOString (Samples.jan2_10h + msPerDay))
    /\ nextReview q'
       = Some (toISOString
                 (startOfDay 0
                    (addDays (Samples.jan2_10h + msPerDay)
                       (spec_interval (Z.of_nat 1) medium))))
    /\ status q' = under_review.
Proof.
  apply (review_cycle_progress 0 1
           (Samples.rate easy, Samples.jan2_10h, Samples.jan2_10h)
           [(Samples.rate medium, Samples.jan2_10h + msPerDay,
             Samples.jan2_10h + msPerDay)]
           Samples.store_ab 0%nat Samples.question_a).
  vm_compute. reflexivity.
Defined.

End StoreExtras.

(** ** The read-only methods of the store *)

Module QueryExtras.
Import JS JSFacts QuestionService QuestionQueries Invariants StoreProps.

(** *** Slices and pages *)

Lemma slice_page {A} (l : list A) (page limit : Z) :
  1 <= page -> 1 <= limit ->
  slice l ((page - 1) * limit) ((page - 1) * limit + limit)
  = take (Z.to_nat limit) (drop (Z.to_nat ((page - 1) * limit)) l).
Proof.
  intros Hp Hl. unfold slice.
  set (start := (page - 1) * limit).
  assert (Hs : 0 <= start) by (unfold start; nia).
  destruct (Z.ltb_spec start 0); [lia|].
  destruct (Z.ltb_spec (start + limit) 0); [lia|].
  destruct (Z_le_gt_dec (Z.of_nat (length l)) start) as [Hout | Hin].
  - rewrite Z.min_r by lia. rewrite (drop_ge l (Z.to_nat start)) by lia.
    rewrite drop_ge by lia. rewrite !take_nil. reflexivity.
  - rewrite (Z.min_l start) by lia.
    destruct (Z_le_gt_dec (start + limit) (Z.of_nat (length l))).
    + rewrite Z.min_l by lia. f_equal. lia.
    + rewrite Z.min_r by lia.
      rewrite !take_ge; [reflexivity | |]; rewrite length_drop; lia.
Qed.

Lemma chunks_take {A} (l : list A) (limit n : nat) :
  concat (map (fun k => take limit (drop (k * limit) l)) (seq 0 n))
  = take (n * limit) l.
Proof.
  induction n as [|n IH]; [reflexivity|].
  rewrite seq_S, map_app, concat_app, IH. cbn [map concat plus].
  rewrite app_nil_r, take_take_drop. f_equal. lia.
Qed.

Lemma foldl_append {A B} (f : B -> list A) (acc : list A) (l : list B) :
  foldl (fun acc x => acc ++ f x) acc l = acc ++ concat (map f l).
Proof.
  revert acc. induction l as [|x l IH]; intros acc; cbn [foldl map concat].
  - rewrite app_nil_r. reflexivity.
  - rewrite IH, app_assoc. reflexivity.
Qed.

Section Pages.
Variable toLowerCase : string -> string.

Lemma elem_of_filtered (filters : option QuestionFilters) (s : Store) (q : Question) :
  q ∈ filtered toLowerCase filters s ->
  q ∈ questions s
  /\ (forall f st, filters = Some f -> f_status f = Some st -> status q = st)
  /\ (forall f c, filters = Some f -> f_category f = Some c -> c <> EmptyString ->
        includes (toLowerCase (category q)) (toLowerCase c) = true).
Proof.
  unfold filtered. destruct filters as [f|]; [|intros H; repeat split; [exact H | discriminate..]].
  intros Hq.
  assert (Hq1 : q ∈ (if truthy (f_category f)
                     then List.filter
                            (fun q => includes (toLowerCase (category q))
                                        (toLowerCase (default EmptyString (f_category f))))
                            (questions s)
                     else questions s)
                /\ forall st, f_status f = Some st -> status q = st).
  { destruct (f_status f) as [st|].
    - apply DueProps.elem_of_filter_bool in Hq as [Hq Hst].
      split; [exact Hq|]. intros st' [= <-]. apply bool_decide_eq_true in Hst. exact Hst.
    - split; [exact Hq | discriminate]. }
  destruct Hq1 as [Hq1 Hst].
  assert (Hq2 : q ∈ questions s
                /\ forall c, f_category f = Some c -> c <> EmptyString ->
                     includes (toLowerCase (category q)) (toLowerCase c) = true).
  { destruct (f_category f) as [c|]; cbn [truthy] in Hq1.
    - destruct (String.eqb_spec c EmptyString); cbn [negb] in Hq1.
      + split; [exact Hq1|]. intros c' [= <-] Hc. contradiction.
      + apply DueProps.elem_of_filter_bool in Hq1 as [Hq1 Hc].
        split; [exact Hq1|]. intros c' [= <-] _. exact Hc.
    - split; [exact Hq1 | discriminate]. }
  destruct Hq2 as [Hq2 Hcat].
  split; [exact Hq2|]. split.
  - intros f' st [= <-]. apply Hst.
  - intros f' c [= <-]. apply Hcat.
Qed.

Lemma page_slice (cat : option string) (st : option Status)
    (page limit : Z) (s : Store) :
  1 <= page -> 1 <= limit ->
  let filters := Some (mkFilters cat st (Some page) (Some limit)) in
  resp_questions (getAllQuestions toLowerCase filters s)
  = take (Z.to_nat limit)
      (drop (Z.to_nat ((page - 1) * limit)) (filtered toLowerCase filters s)).
Proof.
  intros Hp Hl filters.
  unfold getAllQuestions. cbn [resp_questions mbind option_bind filters f_page f_limit num_or].
  destruct (Z.eqb_spec page 0); [lia|]. destruct (Z.eqb_spec limit 0); [lia|].
  apply slice_page; assumption.
Qed.

(** For a page number and a limit of at least 1, [getAllQuestions] returns
    the records that pass the filters from position [(page - 1) * limit]
    on, at most [limit] of them and in store order, together with the
    number of all records that pass the filters and the page number; a page
    past the end is empty; every record returned is a record of the store
    with the status asked for and a category that contains the one asked
    for, both in lower case. *)
Theorem getAllQuestions_page (cat : option string) (st : option Status)
    (page limit : Z) (s : Store) :
  1 <= page -> 1 <= limit ->
  let filters := Some (mkFilters cat st (Some page) (Some limit)) in
  let r := getAllQuestions toLowerCase filters s in
  resp_questions r
  = take (Z.to_nat limit)
      (drop (Z.to_nat ((page - 1) * limit)) (filtered toLowerCase filters s))
  /\ Z.of_nat (length (resp_questions r)) <= limit
  /\ resp_total r = Z.of_nat (length (filtered toLowerCase filters s))
  /\ resp_page r = page
  /\ (resp_total r <= (page - 1) * limit -> resp_questions r = [])
  /\ (forall q, q ∈ resp_questions r ->
        q ∈ questions s
        /\ (forall st', st = Some st' -> status q = st')
        /\ (forall c, cat = Some c -> c <> EmptyString ->
              includes (toLowerCase (category q)) (toLowerCase c) = true)).
Proof.
  intros Hp Hl filters r.
  pose proof (page_slice cat st page limit s Hp Hl) as Hpage.
  change (resp_questions r
          = take (Z.to_nat limit)
              (drop (Z.to_nat ((page - 1) * limit))
                 (filtered toLowerCase filters s))) in Hpage.
  split; [exact Hpage|]. split; [rewrite Hpage, length_take; lia|].
  split; [reflexivity|]. split.
  { unfold r, getAllQuestions. cbn [resp_page mbind option_bind filters f_page num_or].
    destruct (Z.eqb_spec page 0); [lia | reflexivity]. }
  split.
  { intros Hout. rewrite Hpage. cbn [r getAllQuestions resp_total] in Hout.
    rewrite drop_ge by lia. apply take_nil. }
  intros q Hq. rewrite Hpage in Hq.
  apply subseteq_take, subseteq_drop in Hq.
  apply elem_of_filtered in Hq as (Hq & Hst & Hcat).
  split; [exact Hq|]. split.
  - intros st' ->. eapply Hst; reflexivity.
  - intros c ->. eapply Hcat; reflexivity.
Qed.

(** Read one after the other with the same filters and limit, the pages
    1 to [n] are the first [n * limit] records that pass the filters; so
    they are all of them, in store order and without repetition, as soon as
    [n * limit] reaches the total. *)
Theorem pages_cover (cat : option string) (st : option Status) (limit : Z)
    (n : nat) (s : Store) :
  1 <= limit ->
  let all := filtered toLowerCase (Some (mkFilters cat st None None)) s in
  let page k :=
    resp_questions
      (getAllQuestions toLowerCase
         (Some (mkFilters cat st (Some (Z.of_nat k)) (Some limit))) s) in
  concat (map page (seq 1 n)) = take (n * Z.to_nat limit) all
  /\ (Z.of_nat (length all) <= Z.of_nat n * limit ->
      concat (map page (seq 1 n)) = all).
Proof.
  intros Hl all page.
  assert (Hcat : concat (map page (seq 1 n)) = take (n * Z.to_nat limit) all).
  { rewrite <- (chunks_take all (Z.to_nat limit) n).
    rewrite <- seq_shift, map_map. f_equal. apply map_ext. intros k.
    unfold page.
    rewrite (page_slice cat st (Z.of_nat (S k)) limit s) by (lia || exact Hl).
    f_equal. f_equal.
    apply Nat2Z.inj. rewrite Z2Nat.id by nia.
    rewrite Nat2Z.inj_mul, Z2Nat.id by lia. nia. }
  split; [exact Hcat|].
  intros Hall. rewrite Hcat. apply take_ge. nia.
Qed.

(** Without filters, page or limit, and also with page 0 and limit 0,
    [getAllQuestions] returns the first 50 records of the store as page 1,
    with the number of all records as total. *)
Theorem getAllQuestions_defaults (s : Store) :
  getAllQuestions toLowerCase None s
  = {| resp_questions := take 50 (questions s);
       resp_total := Z.of_nat (length (questions s));
       resp_page := 1 |}
  /\ getAllQuestions toLowerCase (Some (mkFilters None None (Some 0) (Some 0))) s
     = getAllQuestions toLowerCase None s.
Proof.
  assert (H : slice (questions s) ((1 - 1) * 50) ((1 - 1) * 50 + 50)
              = take 50 (questions s)).
  { rewrite slice_page by lia. reflexivity. }
  split; unfold getAllQuestions, filtered;
    cbn [mbind option_bind num_or f_page f_limit f_category f_status truthy Z.eqb];
    rewrite H; reflexivity.
Qed.

(** *** The client's loop over the pages *)

(** The client's [getAllQuestions] returns all records of the store, in
    store order and each once, however many there are. *)
Theorem client_getAllQuestions_all (s : Store) :
  client_getAllQuestions toLowerCase s = questions s.
Proof.
  unfold client_getAllQuestions. rewrite foldl_append.
  set (l := questions s).
  assert (Hpage : forall k : nat,
             resp_questions (getQuestions toLowerCase (Some (Z.of_nat (S k))) 1000 s)
             = take 1000 (drop (k * 1000) l)).
  { intros k. unfold getQuestions.
    change (default 1 (Some (Z.of_nat (S k)))) with (Z.of_nat (S k)).
    rewrite (page_slice None None (Z.of_nat (S k)) 1000 s) by lia.
    unfold filtered. cbn [f_category f_status truthy].
    change (Z.to_nat 1000) with 1000%nat. f_equal. f_equal. lia. }
  assert (Hfirst : resp_questions (getQuestions toLowerCase None 1000 s) = take 1000 l).
  { change (getQuestions toLowerCase None 1000 s)
      with (getQuestions toLowerCase (Some (Z.of_nat 1)) 1000 s).
    rewrite (Hpage 0%nat). reflexivity. }
  assert (Htotal : resp_total (getQuestions toLowerCase None 1000 s)
                   = Z.of_nat (length l)) by reflexivity.
  rewrite Hfirst, Htotal. unfold totalPages.
  set (tp := Z.to_nat (- (- Z.of_nat (length l) / 1000))).
  assert (Htp : (length l <= tp * 1000)%nat).
  { unfold tp. pose proof (Z.div_mod (- Z.of_nat (length l)) 1000).
    pose proof (Z.mod_pos_bound (- Z.of_nat (length l)) 1000). lia. }
  destruct tp as [|tp].
  - cbn [Nat.sub seq map concat]. rewrite app_nil_r. apply take_ge. lia.
  - replace (S tp - 1)%nat with tp by lia.
    transitivity (take (S tp * 1000) l); [|apply take_ge; lia].
    rewrite <- (chunks_take l 1000 (S tp)).
    cbn [seq map concat]. f_equal.
    rewrite <- !seq_shift, !map_map. f_equal. apply map_ext. intros k.
    rewrite Hpage. reflexivity.
Qed.

End Pages.

Lemma getAllQuestions_page_witness :
  let filters := Some (mkFilters None (Some not_started) (Some 2) (Some 1)) in
  let r := getAllQuestions Samples.ascii_toLowerCase filters Samples.store_ab in
  resp_questions r
  = take (Z.to_nat 1)
      (drop (Z.to_nat ((2 - 1) * 1)) (filtered Samples.ascii_toLowerCase filters Samples.store_ab))
  /\ Z.of_nat (length (resp_questions r)) <= 1
  /\ resp_total r = Z.of_nat (length (filtered Samples.ascii_toLowerCase filters Samples.store_ab))
  /\ resp_page r = 2
  /\ (resp_total r <= (2 - 1) * 1 -> resp_questions r = [])
  /\ (forall q, q ∈ resp_questions r ->
        q ∈ questions Samples.store_ab
        /\ (forall st', Some not_started = Some st' -> status q = st')
        /\ (forall c, None = Some c -> c <> EmptyString ->
              includes (Samples.ascii_toLowerCase (category q)) (Samples.ascii_toLowerCase c) = true)).
Proof.
  apply (getAllQuestions_page Samples.ascii_toLowerCase None (Some not_started) 2 1 Samples.store_ab); lia.
Defined.

Lemma pages_cover_witness :
  let all :=
    filtered Samples.ascii_toLowerCase (Some (mkFilters None None None None)) Samples.store_ab in
  let page k :=
    resp_questions
      (getAllQuestions Samples.ascii_toLowerCase
         (Some (mkFilters None None (Some (Z.of_nat k)) (Some 1))) Samples.store_ab) in
  concat (map page (seq 1 2)) = take (2 * Z.to_nat 1) all
  /\ (Z.of_nat (length all) <= Z.of_nat 2 * 1 -> concat (map page (seq 1 2)) = all).
Proof. apply (pages_cover Samples.ascii_toLowerCase None None 1 2 Samples.store_ab). lia. Defined.

(** *** The statistics *)

Lemma filter_length_mono {A} (f g : A -> bool) (l : list A) :
  (forall x, f x = true -> g x = true) ->
  (length (List.filter f l) <= length (List.filter g l))%nat.
Proof.
  intros Hfg. induction l as [|x l IH]; cbn [List.filter]; [lia|].
  destruct (f x) eqn:Hf; [rewrite (Hfg x Hf); cbn [length]; lia|].
  destruct (g x); cbn [length]; lia.
Qed.

Lemma filter_length_exclusive {A} (f g : A -> bool) (l : list A) :
  (forall x, f x = true -> g x = true -> False) ->
  (length (List.filter f l) + length (List.filter g l) <= length l)%nat.
Proof.
  intros Hfg. induction l as [|x l IH]; cbn [List.filter length]; [lia|].
  destruct (f x) eqn:Hf, (g x) eqn:Hg; cbn [length]; try lia.
  exfalso. eauto.
Qed.

Lemma filter_length_same {A} (f g : A -> bool) (l : list A) :
  (forall x, x ∈ l -> f x = g x) ->
  length (List.filter f l) = length (List.filter g l).
Proof.
  intros Hfg. induction l as [|x l IH]; cbn [List.filter]; [reflexivity|].
  rewrite (Hfg x) by apply list_elem_of_here.
  destruct (g x); cbn [length]; rewrite IH; auto;
    intros y Hy; apply Hfg, list_elem_of_further, Hy.
Qed.

(** The counts of [getStats] are consistent: none is negative or larger
    than the number of records; the records in review are among the
    completed ones; and no record is counted both as due today and as
    overdue. *)
Theorem getStats_bounds (tz : Z) (Date_parse : string -> JSDate) (now : Z) (s : Store) :
  let r := getStats tz Date_parse now s in
  totalQuestions r = Z.of_nat (length (questions s))
  /\ 0 <= inReview r <= completed_count r
  /\ completed_count r <= totalQuestions r
  /\ 0 <= dueToday r /\ 0 <= overdue r
  /\ dueToday r + overdue r <= totalQuestions r
  /\ 0 <= completedThisWeek r <= totalQuestions r
  /\ 0 <= reviewedThisWeek r <= totalQuestions r.
Proof.
  cbn zeta. unfold getStats, count.
  cbn [totalQuestions completed_count inReview dueToday overdue completedThisWeek
         reviewedThisWeek].
  pose proof (fun f => filter_length_le f (questions s)) as Hle.
  split; [reflexivity|].
  split.
  { split; [lia|]. apply inj_le, filter_length_mono.
    intros q ->. apply orb_true_r. }
  split; [apply inj_le, Hle|].
  split; [lia|]. split; [lia|].
  split.
  { pose proof (filter_length_exclusive
                  (dueTodayFilter tz Date_parse (startOfDay tz now))
                  (overdueFilter tz Date_parse (startOfDay tz now))
                  (List.filter (dueFilter tz Date_parse (startOfDay tz now)) (questions s)))
      as Hex.
    pose proof (Hle (dueFilter tz Date_parse (startOfDay tz now))).
    enough ((length (List.filter (dueTodayFilter tz Date_parse (startOfDay tz now))
                       (List.filter (dueFilter tz Date_parse (startOfDay tz now))
                          (questions s)))
             + length (List.filter (overdueFilter tz Date_parse (startOfDay tz now))
                         (List.filter (dueFilter tz Date_parse (startOfDay tz now))
                            (questions s)))
             <= length (List.filter (dueFilter tz Date_parse (startOfDay tz now))
                          (questions s)))%nat) by lia.
    apply Hex. intros q. unfold dueTodayFilter, overdueFilter, date_eq, date_lt.
    destruct (reviewDateOnly tz Date_parse q) as [t|]; [|discriminate].
    intros H1%Z.eqb_eq H2%Z.ltb_lt. lia. }
  split; (split; [lia | apply inj_le, Hle]).
Qed.

Lemma run_no_completed (tz : Z) (file : list Question) (ops : list Op) :
  (forall q, q ∈ file -> status q <> completed) ->
  forall q, q ∈ questions (run tz ops (initialize file)) -> status q <> completed.
Proof.
  intros Hfile. apply run_record_invariant.
  - intros n q (_ & Hst & _). rewrite Hst. discriminate.
  - intros q q' Hafter Hst.
    destruct Hafter as [_ Hs _ _ _ | d t _ Hs _ _ _ | d t _ Hs _ _ _ | _ Hs _ _ _].
    + congruence.
    + rewrite Hs. discriminate.
    + destruct Hs as [Hs | Hs]; rewrite Hs; discriminate.
    + rewrite Hs. discriminate.
  - exact Hfile.
Qed.

(** When no record of the CSV file has the status [completed], then after
    any sequence of operations the statistics count as completed exactly
    the records under review; records that need attention are left out of
    both counts. *)
Theorem getStats_completed_is_inReview (tz : Z) (Date_parse : string -> JSDate)
    (now : Z) (file : list Question) (ops : list Op) :
  (forall q, q ∈ file -> status q <> completed) ->
  completed_count (getStats tz Date_parse now (run tz ops (initialize file)))
  = inReview (getStats tz Date_parse now (run tz ops (initialize file))).
Proof.
  intros Hfile. pose proof (run_no_completed tz file ops Hfile) as Hno.
  unfold getStats, count. cbn [completed_count inReview]. f_equal.
  apply filter_length_same. intros q Hq. specialize (Hno q Hq).
  destruct (status q); try reflexivity. contradiction.
Qed.

Lemma getStats_completed_is_inReview_witness :
  completed_count (getStats 0 iso_parse Samples.jan2_10h
                     (run 0 [OpComplete 1 (Samples.rate easy) Samples.jan2_10h
                               Samples.jan2_10h]
                        (initialize [Samples.question_a; Samples.question_b])))
  = inReview (getStats 0 iso_parse Samples.jan2_10h
                (run 0 [OpComplete 1 (Samples.rate easy) Samples.jan2_10h
                          Samples.jan2_10h]
                   (initialize [Samples.question_a; Samples.question_b]))).
Proof.
  apply (getStats_completed_is_inReview 0 iso_parse Samples.jan2_10h
           [Samples.question_a; Samples.question_b]
           [OpComplete 1 (Samples.rate easy) Samples.jan2_10h Samples.jan2_10h]).
  intros q Hq.
  apply elem_of_cons in Hq as [-> | Hq]; [discriminate|].
  apply elem_of_cons in Hq as [-> | Hq]; [discriminate|].
  inversion Hq.
Defined.

End QueryExtras.

(** ** Numbers and strings *)

Module TextProps.
Import Text.

#[local] Arguments String.append !_ _ / : simpl nomatch.

Example Number_toString_samples :
  Number_toString 0 = "0"%string /\ Number_toString 1207 = "1207"%string
  /\ Number_toString (-35) = "-35"%string.
Proof. repeat split. Qed.

Example parseInt_samples :
  parseInt "  42px" (Some 10) = Some 42 /\ parseInt "abc" (Some 10) = None
  /\ parseInt "-7" None = Some (-7) /\ parseInt "0x1f" None = Some 31
  /\ parseInt "0x1f" (Some 10) = Some 0 /\ parseInt "" None = None
  /\ parseInt "12" (Some 1) = None.
Proof. repeat split. Qed.

Example split_samples :
  split "," "easy,hard" = ["easy"; "hard"]%string
  /\ split "," "easy" = ["easy"%string]
  /\ split "," ",a," = [EmptyString; "a"%string; EmptyString].
Proof. repeat split. Qed.

(** *** Printing a number and reading it back *)

Lemma of_uint_acc_val (d : Decimal.uint) (acc : positive) :
  Z.pos (Pos.of_uint_acc d acc) = uint_val d (Z.pos acc).
Proof.
  revert acc. induction d; intros acc; cbn [Pos.of_uint_acc uint_val];
    [reflexivity | rewrite IHd; f_equal; lia ..].
Qed.

Lemma of_uint_val (d : Decimal.uint) :
  Z.of_N (Pos.of_uint d) = uint_val d 0.
Proof.
  induction d; cbn [Pos.of_uint uint_val]; try reflexivity; try exact IHd;
    cbn [Z.of_N]; rewrite of_uint_acc_val; reflexivity.
Qed.

Lemma to_uint_val (p : positive) : uint_val (Pos.to_uint p) 0 = Z.pos p.
Proof. rewrite <- of_uint_val, DecimalPos.Unsigned.of_to. reflexivity. Qed.

Lemma to_uint_not_nil (p : positive) : Pos.to_uint p <> Decimal.Nil.
Proof.
  intros H. pose proof (DecimalPos.Unsigned.of_to p) as Hp.
  rewrite H in Hp. discriminate.
Qed.

Lemma parse_digits_stops (rest : string) (acc : Z) :
  stops rest -> parse_digits 10 rest acc true = Some acc.
Proof.
  destruct rest as [|c rest]; cbn [stops parse_digits]; [reflexivity|].
  destruct (digit_of c) as [v|]; [|reflexivity].
  intros Hv. destruct (Z.ltb_spec v 10); [lia | reflexivity].
Qed.

Lemma parse_digits_uint (d : Decimal.uint) (rest : string) (acc : Z) (seen : bool) :
  stops rest -> d <> Decimal.Nil \/ seen = true ->
  parse_digits 10 (NilEmpty.string_of_uint d +:+ rest) acc seen
  = Some (uint_val d acc).
Proof.
  intros Hrest. revert acc seen.
  induction d; intros acc seen Hd;
    cbn [NilEmpty.string_of_uint String.append uint_val];
    [ destruct Hd as [Hd | ->]; [contradiction | apply parse_digits_stops, Hrest]
    | cbn [parse_digits digit_of]; apply IHd; right; reflexivity .. ].
Qed.

Lemma append_empty_r (s : string) : s +:+ EmptyString = s.
Proof.
  induction s as [|c s IH]; [reflexivity|].
  change (String c s +:+ EmptyString) with (String c (s +:+ EmptyString)).
  rewrite IH. reflexivity.
Qed.

(** Case analysis on the first digit of a printed positive number. *)
Ltac first_digit p :=
  let d := fresh "d" in
  let Hd := fresh "Hd" in
  let Hn := fresh "Hn" in
  pose proof (to_uint_val p) as Hd; pose proof (to_uint_not_nil p) as Hn;
  destruct (Pos.to_uint p) as [|d|d|d|d|d|d|d|d|d|d]; [contradiction|..].

(** Evaluate the character tests on the characters that are known. *)
Ltac eval_chars :=
  repeat match goal with
         | |- context [StrWhiteSpaceChar (Ascii ?a ?b ?c ?d ?e ?f ?g ?h)] =>
             let v := eval vm_compute in (StrWhiteSpaceChar (Ascii a b c d e f g h)) in
             change (StrWhiteSpaceChar (Ascii a b c d e f g h)) with v
         | |- context [digit_of (Ascii ?a ?b ?c ?d ?e ?f ?g ?h)] =>
             let v := eval vm_compute in (digit_of (Ascii a b c d e f g h)) in
             change (digit_of (Ascii a b c d e f g h)) with v
         end.

Ltac run_parseInt := unfold parseInt; cbn; eval_chars; cbn; eval_chars; cbn.

Lemma parseInt_radix10 (n : Z) (rest : string) :
  stops rest -> parseInt (Number_toString n +:+ rest) (Some 10) = Some n.
Proof.
  intros Hrest. destruct n as [|p|p]; cbn [Number_toString].
  - run_parseInt. rewrite parse_digits_stops by exact Hrest. reflexivity.
  - first_digit p; run_parseInt;
      (rewrite (parse_digits_uint d rest _ true Hrest) by (right; reflexivity));
      cbn [option_map uint_val] in *; rewrite Hd; reflexivity.
  - first_digit p; run_parseInt;
      (rewrite (parse_digits_uint d rest _ true Hrest) by (right; reflexivity));
      cbn [option_map uint_val] in *; rewrite Hd; reflexivity.
Qed.

Lemma parseInt_auto (n : Z) : parseInt (Number_toString n) None = Some n.
Proof.
  assert (Hstop : stops EmptyString) by exact I.
  assert (Hd0 : forall d acc,
             parse_digits 10 (NilEmpty.string_of_uint d) acc true
             = Some (uint_val d acc)).
  { intros d acc. rewrite <- (append_empty_r (NilEmpty.string_of_uint d)).
    apply parse_digits_uint; [exact Hstop | right; reflexivity]. }
  destruct n as [|p|p]; cbn [Number_toString].
  - reflexivity.
  - first_digit p;
      [destruct d; run_parseInt; rewrite ?Hd0; cbn [option_map uint_val] in *;
       try rewrite Hd; reflexivity
      | run_parseInt; rewrite Hd0; cbn [option_map uint_val] in *; rewrite Hd;
        reflexivity ..].
  - first_digit p;
      [destruct d; run_parseInt; rewrite ?Hd0; cbn [option_map uint_val] in *;
       try rewrite Hd; reflexivity
      | run_parseInt; rewrite Hd0; cbn [option_map uint_val] in *; rewrite Hd;
        reflexivity ..].
Qed.

Lemma parseInt_printed (n : Z) : parseInt (Number_toString n) (Some 10) = Some n.
Proof.
  rewrite <- (append_empty_r (Number_toString n)). apply parseInt_radix10. exact I.
Qed.

(** Reading back a printed safe integer gives the integer, with radix 10 and
    with no radix; with radix 10 also when the digits are followed by
    anything that does not start with a decimal digit. *)
Theorem parseInt_Number_toString (n : Z) (rest : string) :
  isSafeInteger n = true ->
  stops rest ->
  parseInt (Number_toString n +:+ rest) (Some 10) = Some n
  /\ parseInt (Number_toString n) (Some 10) = Some n
  /\ parseInt (Number_toString n) None = Some n.
Proof.
  intros _ Hrest. split; [apply parseInt_radix10, Hrest|]. split.
  - rewrite <- (append_empty_r (Number_toString n)). apply parseInt_radix10. exact I.
  - apply parseInt_auto.
Qed.

Lemma parseInt_Number_toString_witness :
  parseInt (Number_toString 12 +:+ "abc") (Some 10) = Some 12
  /\ parseInt (Number_toString 12) (Some 10) = Some 12
  /\ parseInt (Number_toString 12) None = Some 12.
Proof.
  apply (parseInt_Number_toString 12 "abc"); [reflexivity|].
  unfold stops. change (digit_of "a") with (Some 10). cbv beta iota. lia.
Defined.

End TextProps.

(** ** The CSV line of the frontend *)

Module CsvHandlerProps.
Import Text CsvHandler TextProps.

#[local] Arguments String.append !_ _ / : simpl nomatch.

Lemma append_snoc (cur : string) (c : ascii) (v : string) :
  (cur +:+ String c EmptyString) +:+ v = cur +:+ String c v.
Proof.
  induction cur as [|a cur IH]; [reflexivity|].
  cbn [String.append]. rewrite IH. reflexivity.
Qed.

(** Inside quotes, the doubled content up to the closing quote gives back
    the content. *)
Lemma loop_quoted (v rest cur : string) (result : list string) :
  match rest with String c _ => c <> dquote | EmptyString => True end ->
  parseCSVLine_loop (double_quotes v +:+ String dquote rest) cur true result
  = parseCSVLine_loop rest (cur +:+ v) false result.
Proof.
  intros Hrest. revert cur. induction v as [|c v IH]; intros cur.
  - cbn [double_quotes String.append parseCSVLine_loop].
    rewrite Ascii.eqb_refl, append_empty_r.
    destruct rest as [|n rest]; [reflexivity|].
    destruct (Ascii.eqb_spec n dquote); [contradiction | reflexivity].
  - cbn [double_quotes]. destruct (Ascii.eqb_spec c dquote) as [-> | Hc].
    + cbn [String.append parseCSVLine_loop]. rewrite Ascii.eqb_refl.
      rewrite IH, append_snoc. reflexivity.
    + cbn [String.append parseCSVLine_loop].
      destruct (Ascii.eqb_spec c dquote); [contradiction|].
      rewrite andb_false_r, IH, append_snoc. reflexivity.
Qed.

(** Outside quotes, a value without comma and double quote is copied. *)
Lemma loop_plain (v rest cur : string) (result : list string) :
  has_char comma v = false -> has_char dquote v = false ->
  parseCSVLine_loop (v +:+ rest) cur false result
  = parseCSVLine_loop rest (cur +:+ v) false result.
Proof.
  revert cur. induction v as [|c v IH]; intros cur Hc Hq.
  - cbn [String.append]. rewrite append_empty_r. reflexivity.
  - cbn [has_char] in Hc, Hq.
    apply orb_false_elim in Hc as [Hc1 Hc2]. apply orb_false_elim in Hq as [Hq1 Hq2].
    cbn [String.append parseCSVLine_loop]. rewrite Hq1, Hc1. cbn [andb].
    rewrite IH, append_snoc by assumption. reflexivity.
Qed.

Lemma loop_field (v rest cur : string) (result : list string) :
  match rest with String c _ => c <> dquote | EmptyString => True end ->
  parseCSVLine_loop (escapeCSVValue v +:+ rest) cur false result
  = parseCSVLine_loop rest (cur +:+ v) false result.
Proof.
  intros Hrest. unfold escapeCSVValue.
  destruct (has_char comma v) eqn:Hc; cbn [orb];
    [| destruct (has_char dquote v) eqn:Hq; cbn [orb];
       [| destruct (has_char newline v); [| apply loop_plain; assumption]]].
  all: cbn [String.append parseCSVLine_loop]; rewrite Ascii.eqb_refl;
    change (String.append (double_quotes v +:+ String dquote EmptyString) rest)
      with ((double_quotes v +:+ String dquote EmptyString) +:+ rest);
    rewrite append_snoc; cbn [negb]; apply loop_quoted; exact Hrest.
Qed.

Lemma loop_line (v : string) (vs : list string) (result : list string) :
  parseCSVLine_loop (join "," (map escapeCSVValue (v :: vs))) EmptyString false result
  = result ++ v :: vs.
Proof.
  revert v result. induction vs as [|w vs IH]; intros v result.
  - cbn [map join String.concat].
    rewrite <- (append_empty_r (escapeCSVValue v)), loop_field by exact I.
    reflexivity.
  - change (join "," (map escapeCSVValue (v :: w :: vs)))
      with (escapeCSVValue v +:+ String comma (join "," (map escapeCSVValue (w :: vs)))).
    rewrite loop_field by (cbn; discriminate).
    cbn [parseCSVLine_loop String.append].
    change (Ascii.eqb comma dquote) with false. rewrite Ascii.eqb_refl. cbn [andb negb].
    rewrite IH, <- app_assoc. reflexivity.
Qed.

(** Any fields, also with commas, double quotes and line breaks in them,
    are what [parseCSVLine] reads from the line made of their escaped
    values joined by commas. *)
Theorem parseCSVLine_escapeCSVValue (v : string) (vs : list string) :
  parseCSVLine (join "," (map escapeCSVValue (v :: vs))) = v :: vs.
Proof. unfold parseCSVLine. apply loop_line. Qed.

(** [parseCSVLine] always gives at least one field, and the fields of a
    line without double quotes are its pieces between the commas. *)
Theorem parseCSVLine_split (line : string) :
  parseCSVLine line <> []
  /\ (has_char dquote line = false -> parseCSVLine line = split comma line).
Proof.
  assert (Hlen : forall n line, (String.length line <= n)%nat ->
             forall cur q result, parseCSVLine_loop line cur q result <> []).
  { clear line. induction n as [|n IH]; intros line Hn cur q result.
    - destruct line; [|cbn in Hn; lia]. cbn. destruct result; discriminate.
    - destruct line as [|c line]; [cbn; destruct result; discriminate|].
      cbn [String.length] in Hn. cbn [parseCSVLine_loop].
      destruct (Ascii.eqb c dquote).
      + destruct q, line as [|n' line']; try (apply IH; cbn in *; lia).
        destruct (Ascii.eqb n' dquote); apply IH; cbn in *; lia.
      + destruct (Ascii.eqb c comma && negb q); apply IH; lia. }
  assert (Hne : forall line cur q result, parseCSVLine_loop line cur q result <> [])
    by (intros l; apply (Hlen (String.length l)); lia).
  split; [apply Hne|].
  unfold parseCSVLine. intros Hq.
  assert (Hshape : forall l, exists h t, split comma l = h :: t).
  { clear. intros l. induction l as [|c l (h & t & IH)]; [cbn; eauto|].
    cbn [split]. destruct (Ascii.eqb c comma); [eauto|]. rewrite IH. eauto. }
  enough (H : forall cur result h t,
             split comma line = h :: t ->
             parseCSVLine_loop line cur false result = result ++ (cur +:+ h) :: t).
  { destruct (Hshape line) as (h & t & Hs). rewrite Hs. apply (H EmptyString [] h t Hs). }
  induction line as [|c line IH]; intros cur result h t Hs.
  - cbn in Hs. injection Hs as <- <-. cbn. rewrite append_empty_r. reflexivity.
  - cbn [has_char] in Hq. apply orb_false_elim in Hq as [Hq1 Hq2].
    destruct (Hshape line) as (h' & t' & Hs').
    cbn [parseCSVLine_loop]. cbn [split] in Hs. rewrite Hs' in Hs.
    rewrite Hq1. cbn [negb]. rewrite andb_true_r.
    destruct (Ascii.eqb c comma); injection Hs as <- <-.
    + rewrite (IH Hq2 _ _ h' t' Hs'), append_empty_r, <- app_assoc. reflexivity.
    + rewrite (IH Hq2 _ _ h' t' Hs'), append_snoc. reflexivity.
Qed.

Lemma parseCSVLine_split_witness :
  parseCSVLine "1,Two Sum,Arrays,url" <> []
  /\ (has_char dquote "1,Two Sum,Arrays,url" = false ->
      parseCSVLine "1,Two Sum,Arrays,url" = split comma "1,Two Sum,Arrays,url").
Proof. apply (parseCSVLine_split "1,Two Sum,Arrays,url"). Defined.

End CsvHandlerProps.

(** ** The CSV rows of the backend *)

Module CsvServiceProps.
Import JS JSFacts Text CsvService TextProps QuestionService Invariants OpVocabulary
  StoreProps.

#[local] Arguments String.append !_ _ / : simpl nomatch.

Lemma split_no_sep (sep : ascii) (x : string) :
  has_char sep x = false -> split sep x = [x].
Proof.
  induction x as [|c x IH]; [reflexivity|].
  cbn [has_char split]. intros [Hc Hx]%orb_false_elim.
  rewrite Hc, (IH Hx). reflexivity.
Qed.

Lemma split_sep (sep : ascii) (x rest : string) :
  has_char sep x = false ->
  split sep (x +:+ String sep rest) = x :: split sep rest.
Proof.
  induction x as [|c x IH]; intros Hx.
  - cbn [String.append split]. rewrite Ascii.eqb_refl. reflexivity.
  - cbn [has_char] in Hx. apply orb_false_elim in Hx as [Hc Hx].
    cbn [String.append split]. rewrite Hc, (IH Hx). reflexivity.
Qed.

Lemma split_join (sep : ascii) (x : string) (xs : list string) :
  Forall (fun y => has_char sep y = false) (x :: xs) ->
  split sep (join (String sep EmptyString) (x :: xs)) = x :: xs.
Proof.
  revert x. induction xs as [|y xs IH]; intros x Hall.
  - apply split_no_sep. inversion Hall; assumption.
  - inversion Hall as [|? ? Hx Hrest]; subst.
    change (join (String sep EmptyString) (x :: y :: xs))
      with (x +:+ String sep (join (String sep EmptyString) (y :: xs))).
    rewrite split_sep by exact Hx. rewrite IH by exact Hrest. reflexivity.
Qed.

Lemma difficulty_string_facts (d : Difficulty) :
  has_char "," (difficulty_string d) = false
  /\ String.eqb (difficulty_string d) EmptyString = false
  /\ difficulty_of_string (difficulty_string d) = Some d.
Proof. destruct d; repeat split. Qed.

Lemma history_cells (ds : list Difficulty) :
  (if String.eqb (join "," (map difficulty_string ds)) EmptyString then []
   else List.filter (fun cell => negb (String.eqb cell EmptyString))
          (split "," (join "," (map difficulty_string ds))))
  = map difficulty_string ds.
Proof.
  destruct ds as [|d ds]; [reflexivity|].
  assert (Hne : String.eqb (join "," (map difficulty_string (d :: ds))) EmptyString = false).
  { cbn [map join String.concat]. destruct ds; destruct d; reflexivity. }
  rewrite Hne.
  change (map difficulty_string (d :: ds))
    with (difficulty_string d :: map difficulty_string ds).
  rewrite split_join.
  - change (difficulty_string d :: map difficulty_string ds)
      with (map difficulty_string (d :: ds)).
    generalize (d :: ds). clear. intros ds.
    induction ds as [|d ds IH]; [reflexivity|].
    destruct (difficulty_string_facts d) as (_ & Hn & _).
    cbn [map List.filter]. rewrite Hn. cbn [negb]. rewrite IH. reflexivity.
  - change (Forall (fun y => has_char "," y = false) (map difficulty_string (d :: ds))).
    generalize (d :: ds). clear. intros ds.
    induction ds as [|d ds IH]; cbn [map]; constructor;
      [apply difficulty_string_facts | exact IH].
Qed.

Lemma ratings_read (ds : list Difficulty) :
  mapM difficulty_of_string (map difficulty_string ds) = Some ds.
Proof.
  apply mapM_Some_2.
  induction ds as [|d ds IH]; cbn [map]; constructor;
    [apply difficulty_string_facts | exact IH].
Qed.

Lemma cell_round (o : option string) :
  cell_or_undefined (or_else o EmptyString) = if truthy o then o else None.
Proof.
  destruct o as [c|]; [|reflexivity].
  unfold cell_or_undefined, or_else, truthy.
  destruct (String.eqb c EmptyString) eqn:E; cbn [negb]; [reflexivity|].
  rewrite E. reflexivity.
Qed.

Lemma status_round (st : Status) :
  status_of_string (or_else (Some (status_string st)) "not_started") = Some st.
Proof. destruct st; reflexivity. Qed.

Lemma or_empty (v : string) : or_else (Some v) EmptyString = v.
Proof. unfold or_else. destruct (String.eqb_spec v EmptyString); congruence. Qed.

Lemma row_round_trip (q : Question) :
  as_question (parseCSVRow (questionToCSVRow q)) = Some (as_saved q).
Proof.
  unfold as_question, parseCSVRow, questionToCSVRow.
  cbn [row_id row_name row_category row_leetcode_url row_status row_first_completed
       row_last_reviewed row_next_review row_review_count row_difficulty_history
       row_notes l_id l_name l_category l_leetcodeUrl l_status l_firstCompleted
       l_lastReviewed l_nextReview l_reviewCount l_difficultyHistory l_notes].
  rewrite !parseInt_printed, status_round, history_cells, ratings_read, !cell_round,
    !or_empty.
  unfold as_saved. do 2 f_equal.
  unfold nan_or. destruct (Z.eqb_spec (reviewCount q) 0) as [E|_]; congruence.
Qed.

Lemma saved_form_as_saved (q : Question) : saved_form q <-> as_saved q = q.
Proof.
  assert (Hcell : forall o : option string,
             o <> Some EmptyString <-> (if truthy o then o else None) = o).
  { intros [c|]; cbn [truthy]; [|split; [reflexivity | discriminate]].
    destruct (String.eqb_spec c EmptyString) as [-> | Hne]; cbn [negb].
    - split; [congruence | discriminate].
    - split; [reflexivity | congruence]. }
  unfold saved_form, as_saved. destruct q; cbn. rewrite !Hcell. split.
  - intros (-> & -> & -> & ->). reflexivity.
  - intros [= -> H1 H2 H3]. rewrite H1, H2, H3. auto.
Qed.






(** A record whose numbers are safe integers, written as a CSV row and
    parsed again, comes back as a record of the [Question] type, without
    its difficulty tag and with a date that was the empty string absent,
    and otherwise as it was; so exactly the records without tag and without
    such a date come back unchanged. *)
Theorem parseCSVRow_questionToCSVRow (q : Question) :
  safe_numbers q = true ->
  as_question (parseCSVRow (questionToCSVRow q)) = Some (as_saved q)
  /\ (as_question (parseCSVRow (questionToCSVRow q)) = Some q <-> saved_form q).
Proof.
  intros _. split; [apply row_round_trip|].
  rewrite row_round_trip, saved_form_as_saved.
  split; [intros [= E]; exact E | intros ->; reflexivity].
Qed.

Lemma parseCSVRow_questionToCSVRow_witness :
  as_question (parseCSVRow (questionToCSVRow Samples.question_a))
  = Some (as_saved Samples.question_a)
  /\ (as_question (parseCSVRow (questionToCSVRow Samples.question_a))
      = Some Samples.question_a
      <-> saved_form Samples.question_a).
Proof. apply (parseCSVRow_questionToCSVRow Samples.question_a). reflexivity. Defined.



(** After the record with the highest id is deleted, a restart hands that
    id out again, while the running service would not. *)
Example restart_reuses_id :
  nextId (run 0 MoreSamples.session (initialize [])) = 3
  /\ (nextId <$> restart (run 0 MoreSamples.session (initialize []))) = Some 2.
Proof. split; vm_compute; reflexivity. Qed.

(** After the only record is deleted, a restart loads one object, whose id
    is NaN, and the counter [Math.max(...ids, 0) + 1] is NaN. *)
Example restart_of_emptied_store :
  let s := run 0 [OpCreate MoreSamples.create_plain; OpDelete 1] (initialize []) in
  questions s = []
  /\ map l_id (written_then_read (csvFile s)) = [None]
  /\ loaded_counter (written_then_read (csvFile s)) = None
  /\ restart s = None.
Proof. vm_compute. repeat split. Qed.

End CsvServiceProps.

(** ** The form helpers *)

Module ValidationProps.
Import Text Validation QuestionService.

Local Abbreviation all_slug_chars slug :=
  (forallb slug_char (list_ascii_of_string slug) = true).

Lemma strip_prefix_Some (p s r : string) :
  strip_prefix p s = Some r <-> s = p +:+ r.
Proof.
  revert s. induction p as [|a p IH]; intros s; cbn [strip_prefix].
  - change (EmptyString +:+ r) with r. split; congruence.
  - change (String a p +:+ r) with (String a (p +:+ r)).
    destruct s as [|b s]; [split; discriminate|].
    destruct (Ascii.eqb_spec a b) as [-> | Hne].
    + rewrite IH. split; congruence.
    + split; [discriminate | congruence].
Qed.

Lemma slug_run_spec (s : string) :
  s = (slug_run s).1 +:+ (slug_run s).2
  /\ all_slug_chars (slug_run s).1.
Proof.
  induction s as [|c s [IH1 IH2]]; [split; reflexivity|].
  cbn [slug_run]. destruct (slug_char c) eqn:Hc; cbn [fst snd].
  - split.
    + change (String c (slug_run s).1 +:+ (slug_run s).2)
        with (String c ((slug_run s).1 +:+ (slug_run s).2)).
      rewrite <- IH1. reflexivity.
    + cbn [list_ascii_of_string forallb]. rewrite Hc, IH2. reflexivity.
  - split; reflexivity.
Qed.

Lemma slug_run_app (slug rest : string) :
  all_slug_chars slug ->
  match rest with String c _ => slug_char c = false | EmptyString => True end ->
  slug_run (slug +:+ rest) = (slug, rest).
Proof.
  intros Hslug Hrest. induction slug as [|c slug IH].
  - change (EmptyString +:+ rest) with rest.
    destruct rest as [|c rest]; [reflexivity|]. cbn [slug_run]. rewrite Hrest. reflexivity.
  - cbn [list_ascii_of_string forallb] in Hslug. apply andb_prop in Hslug as [Hc Hslug].
    change (String c slug +:+ rest) with (String c (slug +:+ rest)).
    cbn [slug_run]. rewrite Hc, (IH Hslug). reflexivity.
Qed.

Lemma match_slug_tail_Some (s slug : string) :
  match_slug_tail s = Some slug <->
  slug <> EmptyString /\ all_slug_chars slug /\ (s = slug \/ s = slug +:+ "/").
Proof.
  unfold match_slug_tail. split.
  - destruct (slug_run_spec s) as [Hs Hall].
    destruct (String.eqb_spec (slug_run s).1 EmptyString) as [|Hne]; [discriminate|].
    destruct (String.eqb_spec (slug_run s).2 EmptyString) as [He|_]; cbn [orb].
    + intros [= <-]. repeat split; [exact Hne | exact Hall|]. left.
      rewrite Hs at 1. rewrite He.
      clear. induction (slug_run s).1 as [|c t IH]; [reflexivity|].
      change (String c t +:+ EmptyString) with (String c (t +:+ EmptyString)).
      rewrite IH. reflexivity.
    + destruct (String.eqb_spec (slug_run s).2 "/") as [He|_]; [|discriminate].
      intros [= <-]. repeat split; [exact Hne | exact Hall|]. right.
      rewrite Hs at 1. rewrite He. reflexivity.
  - intros (Hne & Hall & [-> | ->]).
    + assert (Hrun : slug_run slug = (slug, EmptyString)).
      { rewrite <- (slug_run_app slug EmptyString Hall I). f_equal.
        clear. induction slug as [|c t IH]; [reflexivity|].
        change (String c t +:+ EmptyString) with (String c (t +:+ EmptyString)).
        rewrite <- IH. reflexivity. }
      rewrite Hrun. cbn [fst snd].
      destruct (String.eqb_spec slug EmptyString); [contradiction | reflexivity].
    + rewrite (slug_run_app slug "/" Hall eq_refl). cbn [fst snd].
      destruct (String.eqb_spec slug EmptyString); [contradiction | reflexivity].
Qed.

Lemma extract_skip (c : ascii) (url : string) :
  strip_prefix "/problems/" (String c url) = None ->
  extractProblemSlug (String c url) = extractProblemSlug url.
Proof. intros H. cbn [extractProblemSlug]. rewrite H. reflexivity. Qed.

Lemma extract_here (url rest slug : string) :
  strip_prefix "/problems/" url = Some rest ->
  match_slug_tail rest = Some slug ->
  extractProblemSlug url = Some slug.
Proof.
  intros H1 H2. destruct url; cbn [extractProblemSlug]; rewrite H1; cbn; rewrite H2;
    reflexivity.
Qed.

Lemma extract_valid (rest slug : string) :
  match_slug_tail rest = Some slug ->
  extractProblemSlug ("https://leetcode.com/problems/" +:+ rest) = Some slug.
Proof.
  intros H. cbv [String.append].
  repeat (rewrite extract_skip by reflexivity).
  apply (extract_here _ rest); [reflexivity | exact H].
Qed.

(** A url passes [validateLeetCodeURL] exactly when it is the problems
    prefix, a non-empty slug of lower-case letters, digits and hyphens, and
    at most one closing slash; [extractProblemSlug] then gives that slug. *)
Theorem validateLeetCodeURL_slug (url : string) :
  validateLeetCodeURL url = true <->
  exists slug, slug <> EmptyString /\ all_slug_chars slug
    /\ (url = "https://leetcode.com/problems/" +:+ slug
        \/ url = "https://leetcode.com/problems/" +:+ slug +:+ "/")
    /\ extractProblemSlug url = Some slug.
Proof.
  unfold validateLeetCodeURL. split.
  - destruct (strip_prefix _ url) as [rest|] eqn:Hp; [|discriminate].
    apply strip_prefix_Some in Hp. intros [slug Hm]%bool_decide_eq_true.
    pose proof Hm as (Hne & Hall & Hrest)%match_slug_tail_Some.
    exists slug. repeat split; [exact Hne | exact Hall | |].
    + destruct Hrest as [-> | ->]; [left | right]; exact Hp.
    + rewrite Hp. apply extract_valid, Hm.
  - intros (slug & Hne & Hall & Hurl & _).
    assert (Hp : exists rest, strip_prefix "https://leetcode.com/problems/" url = Some rest
                              /\ match_slug_tail rest = Some slug).
    { destruct Hurl as [-> | ->].
      - exists slug. split; [apply strip_prefix_Some; reflexivity|].
        apply match_slug_tail_Some; auto.
      - exists (slug +:+ "/"). split; [apply strip_prefix_Some; reflexivity|].
        apply match_slug_tail_Some; auto. }
    destruct Hp as (rest & -> & Hm). apply bool_decide_eq_true. rewrite Hm. eauto.
Qed.

Lemma isDuplicateURL_find (url : string) (qs : list Question) :
  isDuplicateURL url qs = true
  <-> is_Some (list_find (fun q => leetcodeUrl q = url) qs).
Proof.
  unfold isDuplicateURL. induction qs as [|q qs IH]; cbn [existsb list_find].
  - split; [discriminate | intros [x Hx]; discriminate].
  - destruct (decide (leetcodeUrl q = url)) as [E|NE].
    + rewrite (proj2 (String.eqb_eq _ _) E). cbn [orb]. split; eauto.
    + rewrite (proj2 (String.eqb_neq _ _) NE). cbn [orb]. rewrite IH.
      destruct (list_find _ qs); cbn; split; intros [x Hx]; eauto; discriminate.
Qed.

Lemma isDuplicateURL_snoc (url : string) (qs : list Question) (q : Question) :
  isDuplicateURL url (qs ++ [q])
  = isDuplicateURL url qs || String.eqb (leetcodeUrl q) url.
Proof.
  unfold isDuplicateURL. rewrite existsb_app. cbn [existsb]. rewrite orb_false_r.
  reflexivity.
Qed.

Lemma append_inj (p a b : string) : p +:+ a = p +:+ b -> a = b.
Proof.
  induction p as [|c p IH]; [intros E; exact E|].
  change (String c p +:+ a) with (String c (p +:+ a)).
  change (String c p +:+ b) with (String c (p +:+ b)).
  intros [= E]. exact (IH E).
Qed.

Lemma append_slash_ne (a : string) : a <> a +:+ "/".
Proof.
  induction a as [|c a IH]; [discriminate|].
  change (String c a +:+ "/") with (String c (a +:+ "/")). intros [= E]. exact (IH E).
Qed.

(** The duplicate check of the form and the one of the service agree: the
    form reports a duplicate exactly when [createQuestion] throws the
    duplicate error, and otherwise [createQuestion] stores the record. *)
Theorem isDuplicateURL_createQuestion (data : CreateQuestionRequest) (s : Store) :
  (isDuplicateURL (c_leetcodeUrl data) (questions s) = true
   <-> createQuestion data s = (Throw DuplicateUrl, s))
  /\ (isDuplicateURL (c_leetcodeUrl data) (questions s) = false
      <-> exists q, (createQuestion data s).1 = Ok q
                    /\ questions (createQuestion data s).2 = questions s ++ [q]).
Proof.
  pose proof (isDuplicateURL_find (c_leetcodeUrl data) (questions s)) as Hfind.
  unfold createQuestion.
  destruct (list_find _ (questions s)) as [x|].
  - assert (Hdup : isDuplicateURL (c_leetcodeUrl data) (questions s) = true)
      by (apply Hfind; eauto).
    rewrite Hdup. split; [tauto|]. split; [discriminate|].
    intros (q & Hq & _). discriminate Hq.
  - assert (Hdup : isDuplicateURL (c_leetcodeUrl data) (questions s) = false).
    { destruct (isDuplicateURL _ _); [|reflexivity].
      destruct (proj1 Hfind eq_refl) as [x Hx]. discriminate Hx. }
    rewrite Hdup. split; [split; discriminate|].
    split; [|reflexivity]. intros _. eexists. split; reflexivity.
Qed.

(** The two spellings of a problem url that [validateLeetCodeURL] accepts,
    with and without the closing slash, name the same slug but are not
    duplicates of each other: when neither is in the store, the service
    stores a record for the one and then a record for the other. *)
Theorem same_problem_two_urls (slug : string) (data data' : CreateQuestionRequest)
    (s : Store) :
  slug <> EmptyString -> all_slug_chars slug ->
  c_leetcodeUrl data = "https://leetcode.com/problems/" +:+ slug ->
  c_leetcodeUrl data' = "https://leetcode.com/problems/" +:+ slug +:+ "/" ->
  isDuplicateURL (c_leetcodeUrl data) (questions s) = false ->
  isDuplicateURL (c_leetcodeUrl data') (questions s) = false ->
  validateLeetCodeURL (c_leetcodeUrl data) = true
  /\ validateLeetCodeURL (c_leetcodeUrl data') = true
  /\ extractProblemSlug (c_leetcodeUrl data) = Some slug
  /\ extractProblemSlug (c_leetcodeUrl data') = Some slug
  /\ exists q q',
       (createQuestion data s).1 = Ok q
       /\ (createQuestion data' (createQuestion data s).2).1 = Ok q'
       /\ questions (createQuestion data' (createQuestion data s).2).2
          = questions s ++ [q; q'].
Proof.
  intros Hne Hall Hu Hu' Hdup Hdup'.
  assert (Hm : match_slug_tail slug = Some slug)
    by (apply match_slug_tail_Some; auto).
  assert (Hm' : match_slug_tail (slug +:+ "/") = Some slug)
    by (apply match_slug_tail_Some; auto).
  assert (Hv : forall rest, match_slug_tail rest = Some slug ->
                 validateLeetCodeURL ("https://leetcode.com/problems/" +:+ rest) = true).
  { intros rest Hrest. unfold validateLeetCodeURL.
    rewrite (proj2 (strip_prefix_Some _ _ rest) eq_refl), Hrest.
    apply bool_decide_eq_true. eauto. }
  split; [rewrite Hu; exact (Hv _ Hm)|].
  split; [rewrite Hu'; exact (Hv _ Hm')|].
  split; [rewrite Hu; exact (extract_valid _ _ Hm)|].
  split; [rewrite Hu'; exact (extract_valid _ _ Hm')|].
  assert (Hfind : forall d st, isDuplicateURL (c_leetcodeUrl d) (questions st) = false ->
             list_find (fun q => leetcodeUrl q = c_leetcodeUrl d) (questions st) = None).
  { intros d st Hd. destruct (list_find _ _) eqn:E; [|reflexivity].
    rewrite (proj2 (isDuplicateURL_find _ _)) in Hd by (rewrite E; eauto). discriminate. }
  assert (Hc : forall d st, isDuplicateURL (c_leetcodeUrl d) (questions st) = false ->
             exists q st', createQuestion d st = (Ok q, st')
                           /\ questions st' = questions st ++ [q]
                           /\ leetcodeUrl q = c_leetcodeUrl d).
  { intros d st Hd. unfold createQuestion. rewrite (Hfind d st Hd).
    do 2 eexists. split; [reflexivity|]. split; reflexivity. }
  destruct (Hc data s Hdup) as (q & s1 & Hq & Hs1 & Hurl).
  destruct (Hc data' s1) as (q' & s2 & Hq' & Hs2 & _).
  { rewrite Hs1, isDuplicateURL_snoc, Hdup', Hurl. cbn [orb].
    apply String.eqb_neq. rewrite Hu, Hu'.
    intros E%append_inj. exact (append_slash_ne _ E). }
  exists q, q'. rewrite Hq. cbn [fst snd]. rewrite Hq'. cbn [fst snd].
  split; [reflexivity|]. split; [reflexivity|].
  rewrite Hs2, Hs1, <- app_assoc. reflexivity.
Qed.

Lemma same_problem_two_urls_witness :
  validateLeetCodeURL (c_leetcodeUrl MoreSamples.create_a_bare) = true
  /\ validateLeetCodeURL (c_leetcodeUrl Samples.create_a) = true
  /\ extractProblemSlug (c_leetcodeUrl MoreSamples.create_a_bare) = Some "two-sum"%string
  /\ extractProblemSlug (c_leetcodeUrl Samples.create_a) = Some "two-sum"%string
  /\ exists q q',
       (createQuestion MoreSamples.create_a_bare (initialize [])).1 = Ok q
       /\ (createQuestion Samples.create_a
             (createQuestion MoreSamples.create_a_bare (initialize [])).2).1 = Ok q'
       /\ questions (createQuestion Samples.create_a
                       (createQuestion MoreSamples.create_a_bare (initialize [])).2).2
          = questions (initialize []) ++ [q; q'].
Proof.
  apply (same_problem_two_urls "two-sum" MoreSamples.create_a_bare Samples.create_a
           (initialize [])); try reflexivity. discriminate.
Defined.

End ValidationProps.

(** ** The id parameter of the routes *)

Module RoutesProps.
Import Text TextProps QuestionService Routes.

Lemma param_reads (i : Z) (rest : string) :
  stops rest -> parseInt (Number_toString i +:+ rest) (Some 10) = Some i.
Proof. apply parseInt_radix10. Qed.

(** A path parameter that is a printed safe integer followed by anything
    that does not start with a decimal digit addresses the record with that
    id: the routes that get, delete and reset reply, and change the store,
    as for the bare id; the get route never replies 400 to it, and replies
    404 exactly when no record has the id. *)
Theorem id_param_prefix (i : Z) (rest : string) (s : Store) :
  isSafeInteger i = true ->
  stops rest ->
  get_question (Number_toString i +:+ rest) s = get_question (Number_toString i) s
  /\ delete_question (Number_toString i +:+ rest) s
     = delete_question (Number_toString i) s
  /\ reset_question (Number_toString i +:+ rest) s
     = reset_question (Number_toString i) s
  /\ get_question (Number_toString i +:+ rest) s <> BadRequest
  /\ (get_question (Number_toString i +:+ rest) s = NotFoundReply
      <-> forall q, q ∈ questions s -> id q <> i).
Proof.
  intros _ Hrest.
  unfold get_question, delete_question, reset_question.
  rewrite (param_reads i rest Hrest), parseInt_printed.
  do 3 (split; [reflexivity|]).
  unfold getQuestionById.
  destruct (findById i (questions s)) as [[idx q]|] eqn:Hfind; cbn.
  - split; [discriminate|]. split; [discriminate|]. intros Hnone.
    apply StoreProps.findById_Some in Hfind as [Hl Hid].
    exfalso. apply (Hnone q); [|exact Hid]. apply list_elem_of_lookup. eauto.
  - split; [discriminate|]. split; [|reflexivity]. intros _.
    apply StoreProps.findById_None. exact Hfind.
Qed.

Lemma id_param_prefix_witness :
  get_question (Number_toString 2 +:+ "abc") Samples.store_ab
  = get_question (Number_toString 2) Samples.store_ab
  /\ delete_question (Number_toString 2 +:+ "abc") Samples.store_ab
     = delete_question (Number_toString 2) Samples.store_ab
  /\ reset_question (Number_toString 2 +:+ "abc") Samples.store_ab
     = reset_question (Number_toString 2) Samples.store_ab
  /\ get_question (Number_toString 2 +:+ "abc") Samples.store_ab <> BadRequest
  /\ (get_question (Number_toString 2 +:+ "abc") Samples.store_ab = NotFoundReply
      <-> forall q, q ∈ questions Samples.store_ab -> id q <> 2).
Proof.
  apply (id_param_prefix 2 "abc" Samples.store_ab); [reflexivity|].
  unfold stops. change (digit_of "a") with (Some 10). cbv beta iota. lia.
Defined.

End RoutesProps.

(** ** The CSV text of the frontend *)

Module CsvTextProps.
Import JS JSFacts Text TextProps CsvHandler CsvHandlerProps CsvService CsvServiceProps
  CsvText.

#[local] Arguments String.append !_ _ / : simpl nomatch.

(** *** Which characters the printed cells can hold *)

Lemma has_char_app (c : ascii) (a b : string) :
  has_char c (a +:+ b) = has_char c a || has_char c b.
Proof.
  induction a as [|x a IH]; [reflexivity|].
  cbn [String.append has_char]. rewrite IH, orb_assoc. reflexivity.
Qed.

Lemma none_of_In (l : list ascii) (c a : ascii) :
  none_of l c -> In a l -> Ascii.eqb a c = false.
Proof.
  unfold none_of. rewrite forallb_forall. intros H Ha.
  apply negb_true_iff, H, Ha.
Qed.

Lemma digit_In (n : Z) : In (digit n) decimal_digits.
Proof.
  unfold digit. pose proof (Z.mod_pos_bound n 10 eq_refl) as Hb.
  assert (Hk : (Z.to_nat (n mod 10) < 10)%nat) by lia.
  destruct (Z.to_nat (n mod 10)) as [|k]; [cbn; tauto|].
  do 9 (destruct k as [|k]; [cbn; tauto|]). lia.
Qed.

Lemma pad_avoids (c : ascii) (w : nat) (n : Z) :
  none_of decimal_digits c -> has_char c (pad w n) = false.
Proof.
  intros Hc. revert n. induction w as [|w IH]; intros n; [reflexivity|].
  cbn [pad]. rewrite has_char_app, IH. cbn [has_char orb].
  rewrite (none_of_In _ _ _ Hc (digit_In n)). reflexivity.
Qed.

Lemma uint_avoids (c : ascii) (d : Decimal.uint) :
  none_of decimal_digits c -> has_char c (NilEmpty.string_of_uint d) = false.
Proof.
  intros Hc. induction d; cbn [NilEmpty.string_of_uint has_char]; [reflexivity|..];
    rewrite IHd, orb_false_r; apply (none_of_In _ _ _ Hc); cbn; tauto.
Qed.

Lemma Number_toString_avoids (c : ascii) (n : Z) :
  none_of ("-"%char :: decimal_digits) c -> has_char c (Number_toString n) = false.
Proof.
  intros Hc.
  assert (Hd : none_of decimal_digits c).
  { unfold none_of in *. cbn [forallb] in Hc. apply andb_prop in Hc as [_ Hc]. exact Hc. }
  destruct n as [|p|p]; cbn [Number_toString has_char].
  - rewrite orb_false_r. apply (none_of_In _ _ _ Hd). cbn. tauto.
  - apply uint_avoids, Hd.
  - rewrite (uint_avoids _ _ Hd), orb_false_r.
    apply (none_of_In _ _ _ Hc). cbn. tauto.
Qed.

Lemma toISOString_avoids (c : ascii) (t : Z) :
  none_of iso_chars c -> has_char c (toISOString t) = false.
Proof.
  intros Hc.
  assert (Hd : none_of decimal_digits c).
  { unfold none_of, iso_chars in *. rewrite forallb_app in Hc.
    apply andb_prop in Hc as [_ Hc]. exact Hc. }
  assert (Hs : forall a, In a ["T"; ":"; "."; "Z"; "+"; "-"]%char -> Ascii.eqb a c = false).
  { intros a Ha. apply (none_of_In _ _ _ Hc). unfold iso_chars. apply in_or_app. auto. }
  unfold toISOString. destruct (civil_from_days (t / msPerDay)) as [[y m] d].
  assert (Hy : has_char c (year_string y) = false).
  { unfold year_string. destruct ((0 <=? y) && (y <=? 9999)); [apply pad_avoids, Hd|].
    destruct (y <? 0); cbn [has_char]; rewrite pad_avoids by exact Hd;
      rewrite orb_false_r; apply Hs; cbn; tauto. }
  repeat (rewrite has_char_app || cbn [has_char]).
  rewrite Hy, !pad_avoids by exact Hd.
  rewrite !Hs by (cbn; tauto). reflexivity.
Qed.

Lemma split_head_avoids (c sep : ascii) (s : string) :
  has_char c s = false ->
  has_char c (default EmptyString (head (split sep s))) = false.
Proof.
  induction s as [|a s IH]; [reflexivity|].
  cbn [has_char split]. intros [Ha Hs]%orb_false_elim.
  destruct (Ascii.eqb a sep); [reflexivity|].
  specialize (IH Hs). destruct (split sep s) as [|h t]; cbn in *.
  - rewrite Ha. reflexivity.
  - rewrite Ha, IH. reflexivity.
Qed.

(** *** One line *)

Lemma escape_plain (v : string) : plain v = true -> escapeCSVValue v = v.
Proof.
  unfold plain, escapeCSVValue. intros H%negb_true_iff. rewrite H. reflexivity.
Qed.

Lemma or_else_empty (v : string) : or_else (Some v) EmptyString = v.
Proof. unfold or_else. destruct (String.eqb_spec v EmptyString); congruence. Qed.

Lemma plain_avoids (v : string) :
  has_char comma v = false -> has_char dquote v = false -> has_char newline v = false ->
  plain v = true.
Proof. unfold plain. intros -> -> ->. reflexivity. Qed.

Lemma Number_toString_plain (n : Z) : plain (Number_toString n) = true.
Proof. apply plain_avoids; apply Number_toString_avoids; reflexivity. Qed.

Lemma status_string_plain (st : Status) : plain (status_string st) = true.
Proof. destruct st; reflexivity. Qed.

Lemma difficulty_string_plain (d : Difficulty) : plain (difficulty_string d) = true.
Proof. destruct d; reflexivity. Qed.

Lemma date_cell_plain (Date_parse : string -> JSDate) (o : option string) (c : string) :
  date_cell Date_parse o = Some c -> plain c = true.
Proof.
  unfold date_cell. destruct (truthy o); [|intros [= <-]; reflexivity].
  destruct (o ≫= Date_parse) as [t|]; [|discriminate]. intros [= <-].
  apply plain_avoids; apply split_head_avoids, toISOString_avoids; reflexivity.
Qed.

Lemma join_cons (sep x y : string) (l : list string) :
  join sep (x :: y :: l) = x +:+ sep +:+ join sep (y :: l).
Proof. reflexivity. Qed.

Lemma append_assoc (a b c : string) : (a +:+ b) +:+ c = a +:+ (b +:+ c).
Proof.
  induction a as [|x a IH]; [reflexivity|].
  cbn [String.append]. rewrite IH. reflexivity.
Qed.

(** Joining a joined group among other values is joining its members among
    them. *)
Lemma join_flat (sep : string) (y : string) (ys zs : list string) :
  zs <> [] ->
  join sep (join sep (y :: ys) :: zs) = join sep ((y :: ys) ++ zs).
Proof.
  intros Hzs. destruct zs as [|z zs]; [contradiction|]. clear Hzs.
  revert y. induction ys as [|y' ys IH]; intros y; [reflexivity|].
  change (join sep ((y :: y' :: ys) ++ z :: zs))
    with (y +:+ sep +:+ join sep ((y' :: ys) ++ z :: zs)).
  rewrite <- IH.
  change (join sep (join sep (y :: y' :: ys) :: z :: zs))
    with (join sep (y :: y' :: ys) +:+ sep +:+ join sep (z :: zs)).
  change (join sep (join sep (y' :: ys) :: z :: zs))
    with (join sep (y' :: ys) +:+ sep +:+ join sep (z :: zs)).
  change (join sep (y :: y' :: ys)) with (y +:+ sep +:+ join sep (y' :: ys)).
  rewrite !append_assoc. reflexivity.
Qed.

Lemma join_flat_mid (sep : string) (pre : list string) (y : string)
    (ys zs : list string) :
  zs <> [] ->
  join sep (pre ++ join sep (y :: ys) :: zs) = join sep (pre ++ (y :: ys) ++ zs).
Proof.
  intros Hzs. induction pre as [|x pre IH]; [apply join_flat, Hzs|].
  assert (Hcons : forall l, l <> [] -> join sep (x :: l) = x +:+ sep +:+ join sep l)
    by (intros [|a l] Hl; [contradiction | reflexivity]).
  cbn [app]. rewrite !Hcons, IH; [reflexivity | |]; destruct pre; discriminate.
Qed.

(** The line of a record whose url and date cells are plain is the line of
    its escaped values. *)
Lemma line_of_cells (q : Question) (fc lr nr : string) :
  plain (leetcodeUrl q) = true -> plain fc = true -> plain lr = true ->
  plain nr = true ->
  join ","
    [Number_toString (id q); escapeCSVValue (name q); escapeCSVValue (category q);
     leetcodeUrl q; status_string (status q); fc; lr; nr;
     Number_toString (reviewCount q);
     join "," (map difficulty_string (difficultyHistory q));
     escapeCSVValue (or_else (Some (notes q)) EmptyString)]
  = join "," (map escapeCSVValue (raw_cells q fc lr nr)).
Proof.
  intros Hu Hfc Hlr Hnr. unfold raw_cells. rewrite !map_app.
  assert (Hds : forall l, map escapeCSVValue (map difficulty_string l)
                          = map difficulty_string l).
  { intros l. induction l as [|x l IH]; [reflexivity|].
    cbn [map]. rewrite IH, escape_plain by apply difficulty_string_plain. reflexivity. }
  rewrite or_else_empty.
  destruct (difficultyHistory q) as [|d ds]; [|rewrite Hds]; cbn [map app];
    rewrite !(escape_plain (Number_toString _)) by apply Number_toString_plain;
    rewrite (escape_plain (leetcodeUrl q)), (escape_plain fc), (escape_plain lr),
      (escape_plain nr), (escape_plain (status_string _))
      by (assumption || apply status_string_plain).
  - reflexivity.
  - exact (join_flat_mid ","
             [Number_toString (id q); escapeCSVValue (name q);
              escapeCSVValue (category q); leetcodeUrl q; status_string (status q);
              fc; lr; nr; Number_toString (reviewCount q)]
             (difficulty_string d) (map difficulty_string ds)
             [escapeCSVValue (notes q)] ltac:(discriminate)).
Qed.

Lemma parse_escaped (v : string) (vs : list string) :
  parseCSVLine (join "," (map escapeCSVValue (v :: vs))) = v :: vs.
Proof. unfold parseCSVLine. apply loop_line. Qed.

Lemma Number_toString_head (n : Z) :
  exists c r, Number_toString n = String c r /\ StrWhiteSpaceChar c = false.
Proof.
  destruct n as [|p|p]; cbn [Number_toString]; [eauto | | eauto].
  pose proof (to_uint_not_nil p) as Hn.
  destruct (Pos.to_uint p); [contradiction | cbn [NilEmpty.string_of_uint]; eauto ..].
Qed.

Lemma value_of_number (n : Z) (dflt : string) :
  nan_or (parseInt (or_else (Some (Number_toString n)) dflt) None) 0 = n.
Proof.
  destruct (Number_toString_head n) as (c & r & Hn & _).
  unfold or_else. rewrite Hn. cbn [String.eqb]. rewrite <- Hn, parseInt_auto.
  unfold nan_or. destruct (Z.eqb_spec n 0); congruence.
Qed.

Lemma value_of_status (st : Status) :
  validateStatus (or_else (Some (status_string st)) "not_started") = st.
Proof. destruct st; reflexivity. Qed.

Lemma value_of_history (h : list Difficulty) :
  (length h <= 1)%nat ->
  (let cell := or_else (Some (join "," (map difficulty_string h))) EmptyString in
   if String.eqb cell EmptyString then []
   else omap difficulty_of_string (split comma cell)) = h.
Proof.
  destruct h as [|d [|d' h]]; cbn [length]; [reflexivity | destruct d; reflexivity | lia].
Qed.

Lemma value_of_rating (d : Difficulty) :
  (let cell := or_else (Some (difficulty_string d)) EmptyString in
   if String.eqb cell EmptyString then []
   else omap difficulty_of_string (split comma cell)) = [d].
Proof. destruct d; reflexivity. Qed.

(** What [line_question] reads from the line of eleven or more escaped
    values, the first and the ninth being printed numbers and the fifth a
    status. *)
Lemma line_question_values (i rc : Z) (nm cat url fc lr nr hist nt : string)
    (st : Status) (more : list string) :
  0 < i ->
  line_question
    (join ","
       (map escapeCSVValue
          ([Number_toString i; nm; cat; url; status_string st; fc; lr; nr;
            Number_toString rc; hist; nt] ++ more)))
  = Some {| id := i; name := nm; category := cat; leetcodeUrl := url;
            leetcodeDifficulty := None; status := st;
            firstCompleted := cell_or_undefined fc;
            lastReviewed := cell_or_undefined lr;
            nextReview := cell_or_undefined nr;
            reviewCount := rc;
            difficultyHistory :=
              (let cell := or_else (Some hist) EmptyString in
               if String.eqb cell EmptyString then []
               else omap difficulty_of_string (split comma cell));
            notes := nt |}.
Proof.
  intros Hi. unfold line_question. cbn [app]. rewrite parse_escaped.
  cbn [length Nat.ltb Nat.leb]. unfold csvRowToQuestion, value_or.
  cbn [lookup list_lookup row_id row_name row_category row_leetcode_url row_status
       row_first_completed row_last_reviewed row_next_review row_review_count
       row_difficulty_history row_notes id].
  rewrite !value_of_number, value_of_status, !or_else_empty.
  destruct (Z.ltb_spec 0 i); [reflexivity | lia].
Qed.

(** *** A record and its line *)

Lemma plain_newline (v : string) : plain v = true -> has_char newline v = false.
Proof.
  unfold plain. intros H%negb_true_iff. apply orb_false_elim in H as [_ H]. exact H.
Qed.

Lemma double_quotes_avoids (c : ascii) (v : string) :
  Ascii.eqb dquote c = false -> has_char c v = false ->
  has_char c (double_quotes v) = false.
Proof.
  intros Hc. induction v as [|a v IH]; [reflexivity|].
  cbn [has_char double_quotes]. intros [Ha Hv]%orb_false_elim.
  destruct (Ascii.eqb a dquote); cbn [has_char]; rewrite ?Hc, ?Ha, (IH Hv); reflexivity.
Qed.

Lemma escape_avoids_newline (v : string) :
  has_char newline v = false -> has_char newline (escapeCSVValue v) = false.
Proof.
  intros Hv. unfold escapeCSVValue.
  destruct (has_char comma v || has_char dquote v || has_char newline v); [|exact Hv].
  cbn [has_char]. rewrite has_char_app, double_quotes_avoids by (reflexivity || exact Hv).
  reflexivity.
Qed.

Lemma join_avoids (c : ascii) (sep : string) (l : list string) :
  has_char c sep = false -> Forall (fun x => has_char c x = false) l ->
  has_char c (join sep l) = false.
Proof.
  intros Hsep Hl. induction Hl as [|x l Hx Hl IH]; [reflexivity|].
  destruct l as [|y l]; [exact Hx|].
  change (join sep (x :: y :: l)) with (x +:+ sep +:+ join sep (y :: l)).
  rewrite !has_char_app, Hx, Hsep, IH. reflexivity.
Qed.

Lemma trim_head (c : ascii) (r : string) :
  StrWhiteSpaceChar c = false -> String.eqb (trim (String c r)) EmptyString = false.
Proof.
  intros Hc. unfold trim. cbn [trimStart]. rewrite Hc. cbn [trimEnd].
  rewrite Hc, andb_false_r. reflexivity.
Qed.

Section Record_and_line.
Variable Date_parse : string -> JSDate.

(** The line of an exportable record, when the export gives one, reads back
    as the record with its dates cut; it has no line feed and is not
    blank. *)
Lemma record_round (q : Question) :
  exportable q = true ->
  match question_line Date_parse q with
  | Some line =>
      (exists q', as_exported Date_parse q = Some q' /\ line_question line = Some q')
      /\ has_char newline line = false
      /\ String.eqb (trim line) EmptyString = false
  | None => as_exported Date_parse q = None
  end.
Proof.
  unfold exportable.
  intros ((((((Hid & Hsafe)%andb_prop & Hnm%negb_true_iff)%andb_prop
             & Hcat%negb_true_iff)%andb_prop & Hnt%negb_true_iff)%andb_prop
           & Hurl)%andb_prop & Hh%Nat.leb_le)%andb_prop.
  apply Z.ltb_lt in Hid.
  unfold question_line, as_exported.
  destruct (date_cell Date_parse (firstCompleted q)) as [fc|] eqn:Hfc; [|reflexivity].
  destruct (date_cell Date_parse (lastReviewed q)) as [lr|] eqn:Hlr; [|reflexivity].
  destruct (date_cell Date_parse (nextReview q)) as [nr|] eqn:Hnr; [|reflexivity].
  apply date_cell_plain in Hfc, Hlr, Hnr. cbn [mbind option_bind].
  split; [|split].
  - eexists. split; [reflexivity|].
    rewrite line_of_cells by assumption. unfold raw_cells.
    assert (Hcell : match difficultyHistory q with
                    | [] => [EmptyString]
                    | d :: ds => map difficulty_string (d :: ds)
                    end = [join "," (map difficulty_string (difficultyHistory q))]).
    { destruct (difficultyHistory q) as [|d [|d' ds]]; cbn [length] in Hh;
        [reflexivity | reflexivity | lia]. }
    rewrite Hcell.
    pose proof (line_question_values (id q) (reviewCount q) (name q) (category q)
                  (leetcodeUrl q) fc lr nr
                  (join "," (map difficulty_string (difficultyHistory q))) (notes q)
                  (status q) [] Hid) as Hread.
    cbn [app] in Hread |- *. rewrite Hread. do 2 f_equal.
    exact (value_of_history _ Hh).
  - apply join_avoids; [reflexivity|].
    repeat (apply Forall_cons; split);
      [apply plain_newline, Number_toString_plain
      | apply escape_avoids_newline, Hnm
      | apply escape_avoids_newline, Hcat
      | apply plain_newline, Hurl
      | apply plain_newline, status_string_plain
      | apply plain_newline, Hfc
      | apply plain_newline, Hlr
      | apply plain_newline, Hnr
      | apply plain_newline, Number_toString_plain
      |
      | rewrite or_else_empty; apply escape_avoids_newline, Hnt
      | apply Forall_nil_2 ].
    destruct (difficultyHistory q) as [|d [|d' ds]]; cbn [length] in Hh;
      [reflexivity | destruct d; reflexivity | lia].
  - destruct (Number_toString_head (id q)) as (c & r & Hn & Hc).
    rewrite join_cons, Hn. cbn [String.append]. apply trim_head, Hc.
Qed.

(** *** The whole text *)

Lemma lines_round (rows : list string) (qs' : list Question) :
  Forall2 (fun line q' => line_question line = Some q'
                          /\ has_char newline line = false
                          /\ String.eqb (trim line) EmptyString = false) rows qs' ->
  parseCSV (join (String newline EmptyString) (join "," headers :: rows)) = qs'.
Proof.
  intros Hrows. unfold parseCSV.
  rewrite split_join.
  - assert (Hkeep : List.filter (fun line => negb (String.eqb (trim line) EmptyString)) rows
                    = rows).
    { induction Hrows as [|line q' rows qs' (_ & _ & Hline) _ IH]; [reflexivity|].
      cbn [List.filter]. rewrite Hline, IH. reflexivity. }
    change (List.filter (fun line => negb (String.eqb (trim line) EmptyString))
              (join "," headers :: rows))
      with (join "," headers
            :: List.filter (fun line => negb (String.eqb (trim line) EmptyString)) rows).
    rewrite Hkeep. cbn [length tail].
    destruct Hrows as [|line q' rows qs' Hline Hrows]; [reflexivity|].
    cbn [length Nat.leb].
    assert (Hall : Forall2 (fun line q' => line_question line = Some q')
                     (line :: rows) (q' :: qs')).
    { constructor; [apply Hline|].
      eapply Forall2_impl; [exact Hrows | intros ? ? (H & _); exact H]. }
    clear - Hall. induction Hall as [|l x ls xs Hl _ IH]; [reflexivity|].
    cbn [omap list_omap]. rewrite Hl, IH. reflexivity.
  - constructor; [reflexivity|].
    induction Hrows as [|line q' rows qs' (_ & Hline & _) _ IH]; constructor; assumption.
Qed.

(** Exporting records that have a positive id, safe numbers, no line feed
    in name, category and notes, a url without comma, double quote and
    line feed, and at most one rating, and importing the text again, gives
    the records with their dates cut to the day and without difficulty tag;
    the export throws exactly when a date of one of them is invalid. *)
Theorem parseCSV_questionsToCSV (qs : list Question) :
  forallb exportable qs = true ->
  parseCSV <$> questionsToCSV Date_parse qs = mapM (as_exported Date_parse) qs.
Proof.
  intros Hqs. unfold questionsToCSV.
  assert (Hall : Forall (fun q => exportable q = true) qs).
  { apply Forall_forall. intros q Hq. rewrite forallb_forall in Hqs.
    apply Hqs, list_elem_of_In, Hq. }
  clear Hqs.
  destruct (mapM (question_line Date_parse) qs) as [rows|] eqn:Hrows.
  - cbn [mbind option_bind fmap option_fmap option_map].
    apply mapM_Some_1 in Hrows.
    assert (Hex : exists qs',
               Forall2 (fun q q' => as_exported Date_parse q = Some q') qs qs'
               /\ Forall2 (fun line q' => line_question line = Some q'
                              /\ has_char newline line = false
                              /\ String.eqb (trim line) EmptyString = false) rows qs').
    { induction Hrows as [|q line qs rows Hline _ IH].
      - exists []. split; constructor.
      - inversion Hall as [|? ? Hq Hrest]; subst.
        destruct (IH Hrest) as (qs' & H1 & H2).
        pose proof (record_round q Hq) as Hround. rewrite Hline in Hround.
        destruct Hround as ((q' & Hexp & Hread) & Hnl & Htrim).
        exists (q' :: qs'). split; constructor; auto. }
    destruct Hex as (qs' & Hexp & Hread).
    rewrite (lines_round rows qs' Hread). symmetry. apply mapM_Some_2, Hexp.
  - cbn [mbind option_bind fmap option_fmap option_map].
    symmetry. apply mapM_None_2. apply mapM_None_1 in Hrows.
    induction Hrows as [q qs Hq | q qs _ IH];
      inversion Hall as [|? ? Hexp Hrest]; subst.
    + apply Exists_cons_hd. pose proof (record_round q Hexp) as Hround.
      rewrite Hq in Hround. exact Hround.
    + apply Exists_cons_tl, IH, Hrest.
Qed.

(** A record with two or more ratings does not survive: the export joins
    the ratings with commas and does not escape them, so the import reads
    the first rating as the whole history and the second as the notes. *)
Theorem ratings_shift_the_notes (q : Question) (d1 d2 : Difficulty)
    (ds : list Difficulty) (line : string) :
  difficultyHistory q = d1 :: d2 :: ds ->
  plain (leetcodeUrl q) = true ->
  0 < id q ->
  safe_numbers q = true ->
  question_line Date_parse q = Some line ->
  exists q', line_question line = Some q'
    /\ id q' = id q
    /\ difficultyHistory q' = [d1]
    /\ notes q' = difficulty_string d2.
Proof.
  intros Hh Hurl Hid _. unfold question_line.
  destruct (date_cell Date_parse (firstCompleted q)) as [fc|] eqn:Hfc; [|discriminate].
  destruct (date_cell Date_parse (lastReviewed q)) as [lr|] eqn:Hlr; [|discriminate].
  destruct (date_cell Date_parse (nextReview q)) as [nr|] eqn:Hnr; [|discriminate].
  apply date_cell_plain in Hfc, Hlr, Hnr. cbn [mbind option_bind].
  intros Hline. apply (inj Some) in Hline. subst line.
  rewrite line_of_cells by assumption. unfold raw_cells. rewrite Hh.
  pose proof (line_question_values (id q) (reviewCount q) (name q) (category q)
                (leetcodeUrl q) fc lr nr (difficulty_string d1) (difficulty_string d2)
                (status q) (map difficulty_string ds ++ [notes q]) Hid) as Hread.
  cbn [app map] in Hread |- *. rewrite Hread. eexists. split; [reflexivity|].
  cbn [id difficultyHistory notes]. split; [reflexivity|]. split; [|reflexivity].
  exact (value_of_rating d1).
Qed.

End Record_and_line.

Lemma parseCSV_questionsToCSV_witness :
  parseCSV <$> questionsToCSV iso_parse [Samples.question_b; Samples.completed_a]
  = mapM (as_exported iso_parse) [Samples.question_b; Samples.completed_a].
Proof.
  apply (parseCSV_questionsToCSV iso_parse [Samples.question_b; Samples.completed_a]).
  reflexivity.
Defined.

Lemma ratings_shift_the_notes_witness :
  exists q', line_question MoreSamples.twice_rated_line = Some q'
    /\ id q' = id MoreSamples.twice_rated
    /\ difficultyHistory q' = [medium]
    /\ notes q' = difficulty_string hard.
Proof.
  apply (ratings_shift_the_notes iso_parse MoreSamples.twice_rated medium hard []
           MoreSamples.twice_rated_line); reflexivity.
Defined.

End CsvTextProps.
